(** * Streaming control plane: worker pool, room registry, adaptive bitrate,
      HLS supervision and segment upload

    A shallow embedding of the JavaScript sources under
    [backend/streaming/mediasoup] and [backend/streaming/hls], followed by the
    properties proved about them.

    Conventions.
    - A JavaScript [Map] is a [gmap], a [Set] is a [gset]; an engine object
      (worker, router, transport, process) is named by its identifier and its
      mutable state is kept in an explicit store.
    - A function that may [throw] returns a [result]; the state it leaves
      behind is returned next to it.
    - The media engine, the operating system and the clock are the
      environment: what they answer is an input of the model. *)

From Stdlib Require Import ZArith Lia Uint63 PrimFloat QArith Qminmax Qround.
From stdpp Require Import gmap strings list fin_maps.

Open Scope Z_scope.

(* ===================================================================== *)
(** * Part I: the embedding                                               *)
(* ===================================================================== *)

(** ** JavaScript values used by the sources *)

Module Js.

(** Errors thrown by the sources.  Each constructor stands for one
    [throw new Error(...)] site (or for the [TypeError] the runtime raises on
    a property access through [undefined]). *)
Inductive error : Type :=
| NoWorkersAvailable                      (* MediasoupServer._getNextWorker *)
| TypeError                               (* property access on undefined *)
| PeerNotFound (peerId : string)
| ConsumerPeerNotFound (peerId : string)
| ProducerPeerNotFound (peerId : string)
| ProducerNotFound (producerId : string)
| TransportNotFound (transportId : string)
| NoRtpCapabilities (peerId : string)
| IncompatibleCapabilities                (* router.canConsume answered false *)
| PortExhausted                           (* converter.allocateRtpPort *)
| InvalidProducerOrRoom                   (* converter.addProducer, first check *)
| InvalidRoomId                           (* converter.addProducer, character check *)
| EncoderFailedToStart.                   (* _spawnFfmpeg early exit *)

Inductive result (A : Type) : Type :=
| Ok (a : A)
| Throw (e : error).
Arguments Ok {A} a.
Arguments Throw {A} e.

(** A number used as an array index: an integer or [NaN]. *)
Inductive num : Type :=
| Int (z : Z)
| NaN.

(** [n + 1] *)
Definition succ (n : num) : num :=
  match n with
  | Int z => Int (z + 1)
  | NaN => NaN
  end.

(** [n % len], for an array length [len]: the remainder has the sign of the
    dividend, and a zero divisor gives [NaN]. *)
Definition rem (n : num) (len : nat) : num :=
  match n with
  | Int z => if Nat.eqb len 0 then NaN else Int (Z.rem z (Z.of_nat len))
  | NaN => NaN
  end.

(** [arr[n]]: [None] is [undefined]. *)
Definition index {A : Type} (arr : list A) (n : num) : option A :=
  match n with
  | Int z => if 0 <=? z then arr !! Z.to_nat z else None
  | NaN => None
  end.

(** [s.endsWith(suffix)] *)
Definition endsWith (s suffix : string) : bool :=
  let n := String.length s in
  let k := String.length suffix in
  (k <=? n)%nat && String.eqb (String.substring (n - k) k s) suffix.

End Js.

Import Js.

(** ** The media engine, as far as the control plane sees it *)

(** Engine objects are named by their identifiers.  A worker handle is the
    process id of the worker; routers get fresh numbers from the engine;
    transports, producers and consumers have string ids. *)
Definition worker : Type := Z.
Definition router : Type := nat.

(** RTP capabilities are opaque to the control plane: they are stored and
    handed back to the engine. *)
Definition rtpCapabilities : Type := string.

Module Engine.

(** What the engine has been asked to do so far. *)
Record state : Type := {
  routers_created : list (router * worker);  (* worker.createRouter calls, latest first *)
  closed_routers : gset router;              (* router.close() *)
  closed_transports : gset string;           (* transport.close() *)
  consumers_created : list string            (* transport.consume calls, latest first *)
}.

Definition initial : state :=
  {| routers_created := []; closed_routers := ∅;
     closed_transports := ∅; consumers_created := [] |}.

(** [await worker.createRouter(...)]: a router no earlier call returned. *)
Definition createRouter (e : state) (w : worker) : router * state :=
  let r := length (routers_created e) in
  (r, {| routers_created := (r, w) :: routers_created e;
         closed_routers := closed_routers e;
         closed_transports := closed_transports e;
         consumers_created := consumers_created e |}).

(** [router.close()] *)
Definition closeRouter (e : state) (r : router) : state :=
  {| routers_created := routers_created e;
     closed_routers := {[r]} ∪ closed_routers e;
     closed_transports := closed_transports e;
     consumers_created := consumers_created e |}.

(** [transport.close()] for every transport of [ts]. *)
Definition closeTransports (e : state) (ts : gset string) : state :=
  {| routers_created := routers_created e;
     closed_routers := closed_routers e;
     closed_transports := ts ∪ closed_transports e;
     consumers_created := consumers_created e |}.

(** [await transport.consume(...)]: the engine names the new consumer. *)
Definition consume (e : state) (consumerId : string) : state :=
  {| routers_created := routers_created e;
     closed_routers := closed_routers e;
     closed_transports := closed_transports e;
     consumers_created := consumerId :: consumers_created e |}.

End Engine.

(** ** The worker pool fields *)

Module WorkerPool.

(** The two fields both classes keep: [this.workers] and
    [this.nextWorkerIndex]. *)
Record pool : Type := {
  workers : list worker;
  nextWorkerIndex : num
}.

(** Calling a selection function [n] times in a row, collecting what the
    calls returned. *)
Fixpoint calls (next : pool -> result (option worker) * pool) (n : nat) (p : pool)
  : list (result (option worker)) * pool :=
  match n with
  | O => ([], p)
  | S n' =>
      let '(r, p1) := next p in
      let '(rs, p2) := calls next n' p1 in
      (r :: rs, p2)
  end.

(** A pool [_getNextWorker] can select from: the index points at a worker. *)
Definition healthy (p : pool) : Prop :=
  exists (i : nat) (w : worker),
    nextWorkerIndex p = Int (Z.of_nat i) /\ workers p !! i = Some w.

End WorkerPool.

Import WorkerPool.

(** ** Calls that suspend once

    [getRouter] and [getOrCreateRoom] are [async] functions with one
    suspension point, [await worker.createRouter(...)].  Under the event loop
    a call runs without interruption up to the [await] ([begin]) and, when the
    engine has answered, from there to its [return] ([resume]); other calls
    run in between.  A schedule is a list of such steps. *)

Module Async.

Section Calls.

Context {St Ret Pend : Type}.
Variable begin : St -> string -> (result Ret + Pend) * St.
Variable resume : St -> Pend -> result Ret * St.

Record sys : Type := {
  st : St;
  inflight : gmap nat Pend;             (* suspended calls *)
  returned : gmap nat (result Ret);     (* settled calls and their outcome *)
  next_call : nat                       (* number of calls made so far *)
}.

Inductive step : Type :=
| Call (roomId : string)   (* a caller invokes the function *)
| Settle (c : nat).        (* the engine answers call [c], which resumes *)

Definition start (s : St) : sys :=
  {| st := s; inflight := ∅; returned := ∅; next_call := 0 |}.

Definition exec (y : sys) (e : step) : sys :=
  match e with
  | Call roomId =>
      let c := next_call y in
      match begin (st y) roomId with
      | (inl r, s') =>
          {| st := s'; inflight := inflight y;
             returned := <[c := r]> (returned y); next_call := S c |}
      | (inr p, s') =>
          {| st := s'; inflight := <[c := p]> (inflight y);
             returned := returned y; next_call := S c |}
      end
  | Settle c =>
      match inflight y !! c with
      | None => y
      | Some p =>
          let '(r, s') := resume (st y) p in
          {| st := s'; inflight := delete c (inflight y);
             returned := <[c := r]> (returned y); next_call := next_call y |}
      end
  end.

Definition run (y : sys) (sched : list step) : sys := foldl exec y sched.



(** A call that runs alone: invoked, then resumed at once if it suspended. *)
Definition call_alone (y : sys) (roomId : string) : sys :=
  exec (exec y (Call roomId)) (Settle (next_call y)).

(** The function as sequential code: [begin], then [resume] if suspended. *)
Definition sequential (s : St) (roomId : string) : result Ret * St :=
  match begin s roomId with
  | (inl r, s') => (r, s')
  | (inr p, s') => resume s' p
  end.

End Calls.

End Async.

(** ** MediasoupServer.js *)

Module MediasoupServer.

(** [_getNextWorker]
<<
    if (this.workers.length === 0) {
      throw new Error('사용 가능한 mediasoup Worker가 없습니다');
    }
    const worker = this.workers[this.nextWorkerIndex];
    this.nextWorkerIndex = (this.nextWorkerIndex + 1) % this.workers.length;
    return worker;
>> *)
Definition _getNextWorker (p : pool) : result (option worker) * pool :=
  if Nat.eqb (length (workers p)) 0 then (Throw NoWorkersAvailable, p)
  else
    let w := index (workers p) (nextWorkerIndex p) in
    (Ok w, {| workers := workers p;
              nextWorkerIndex := rem (succ (nextWorkerIndex p)) (length (workers p)) |}).

Record producer : Type := {
  producer_id : string;
  producer_kind : string
}.

Record consumer : Type := {
  consumer_id : string;
  consumer_producerId : string
}.

(** A peer, as [createWebRtcTransport] builds it.  [transports] is a [Map]
    from [transport.id] to the transport with that id: the set of ids. *)
Record peer : Type := {
  peer_id : string;
  peer_transports : gset string;
  peer_producers : gmap string producer;
  peer_consumers : gmap string consumer;
  peer_rtpCapabilities : option rtpCapabilities   (* data.rtpCapabilities *)
}.

(** [roomInfo] of [getRouter] (the [createdAt] stamp is not modelled). *)
Record roomInfo : Type := {
  room_id : string;
  room_router : router;
  peers : gmap string peer
}.

Inductive event : Type :=
| peerClosed (roomId peerId : string).

Record server : Type := {
  pool_of : pool;                           (* this.workers, this.nextWorkerIndex *)
  rooms : gmap string roomInfo;             (* this.rooms *)
  producers : gmap string producer;         (* this.producers *)
  consumers : gmap string consumer;         (* this.consumers *)
  engine : Engine.state;
  emitted : list event                      (* this.emit(...), latest first *)
}.

Definition set_pool (s : server) (p : pool) : server :=
  {| pool_of := p; rooms := rooms s; producers := producers s;
     consumers := consumers s; engine := engine s; emitted := emitted s |}.

Definition set_rooms (s : server) (r : gmap string roomInfo) : server :=
  {| pool_of := pool_of s; rooms := r; producers := producers s;
     consumers := consumers s; engine := engine s; emitted := emitted s |}.

Definition set_consumers (s : server) (c : gmap string consumer) : server :=
  {| pool_of := pool_of s; rooms := rooms s; producers := producers s;
     consumers := c; engine := engine s; emitted := emitted s |}.

Definition set_engine (s : server) (e : Engine.state) : server :=
  {| pool_of := pool_of s; rooms := rooms s; producers := producers s;
     consumers := consumers s; engine := e; emitted := emitted s |}.

Definition emit (s : server) (ev : event) : server :=
  {| pool_of := pool_of s; rooms := rooms s; producers := producers s;
     consumers := consumers s; engine := engine s; emitted := ev :: emitted s |}.

(** [getRouter(roomId)], up to [await worker.createRouter(...)].  The cache
    lookup before it is behind [config.aws.elastiCache.enabled], false unless
    the environment sets it, and changes nothing here.
<<
    if (this.rooms.has(roomId)) return this.rooms.get(roomId).router;
    ...
    const worker = this._getNextWorker();
    const router = await worker.createRouter({...});
>> *)
Definition getRouter_begin (s : server) (roomId : string)
  : (result router + (string * worker)) * server :=
  match rooms s !! roomId with
  | Some r => (inl (Ok (room_router r)), s)
  | None =>
      match _getNextWorker (pool_of s) with
      | (Throw e, p) => (inl (Throw e), set_pool s p)
      | (Ok None, p) => (inl (Throw TypeError), set_pool s p)
      | (Ok (Some w), p) => (inr (roomId, w), set_pool s p)
      end
  end.

(** [getRouter(roomId)], from the engine's answer on.
<<
    const roomInfo = { id: roomId, router, peers: new Map(), createdAt: Date.now() };
    this.rooms.set(roomId, roomInfo);
    ...
    return router;
>> *)
Definition getRouter_resume (s : server) (p : string * worker) : result router * server :=
  let '(roomId, w) := p in
  let '(r, e) := Engine.createRouter (engine s) w in
  let roomInfo := {| room_id := roomId; room_router := r; peers := ∅ |} in
  (Ok r, set_rooms (set_engine s e) (<[roomId := roomInfo]> (rooms s))).

Definition getRouter : server -> string -> result router * server :=
  Async.sequential getRouter_begin getRouter_resume.

(** [_getPeer(roomId, peerId)]: [None] is [null] or [undefined]. *)
Definition _getPeer (s : server) (roomId peerId : string) : option peer :=
  match rooms s !! roomId with
  | None => None
  | Some room => peers room !! peerId
  end.

(** [room.peers.set(peer.id, peer)] on the room registered under [roomId]:
    the write a mutation of the peer amounts to. *)
Definition store_peer (s : server) (roomId : string) (p : peer) : server :=
  match rooms s !! roomId with
  | None => s
  | Some room =>
      set_rooms s (<[roomId := {| room_id := room_id room;
                                  room_router := room_router room;
                                  peers := <[peer_id p := p]> (peers room) |}]> (rooms s))
  end.

(** [createWebRtcTransport(roomId, peerId)]; [newId] is the id of the
    transport the engine creates.
<<
    const router = await this.getRouter(roomId);
    const transport = await router.createWebRtcTransport({...});
    ...
    let peer = this._getPeer(roomId, peerId);
    if (!peer) {
      peer = { id: peerId, transports: new Map(), producers: new Map(),
               consumers: new Map(), data: {} };
      this.rooms.get(roomId).peers.set(peerId, peer);
    }
    ...
    peer.transports.set(transport.id, transport);
    return { id: transport.id, ... };
>> *)
Definition createWebRtcTransport (s : server) (roomId peerId : string) (newId : string)
  : result string * server :=
  match getRouter s roomId with
  | (Throw e, s1) => (Throw e, s1)
  | (Ok _, s1) =>
      let peer :=
        match _getPeer s1 roomId peerId with
        | Some peer => peer
        | None => {| peer_id := peerId; peer_transports := ∅; peer_producers := ∅;
                     peer_consumers := ∅; peer_rtpCapabilities := None |}
        end in
      match rooms s1 !! roomId with
      | None => (Throw TypeError, s1)
      | Some room =>
          let peer' := {| peer_id := peer_id peer;
                          peer_transports := {[newId]} ∪ peer_transports peer;
                          peer_producers := peer_producers peer;
                          peer_consumers := peer_consumers peer;
                          peer_rtpCapabilities := peer_rtpCapabilities peer |} in
          (Ok newId,
           set_rooms s1 (<[roomId := {| room_id := room_id room;
                                        room_router := room_router room;
                                        peers := <[peerId := peer']> (peers room) |}]>
                           (rooms s1)))
      end
  end.

(** [setRtpCapabilities(roomId, peerId, rtpCapabilities)]
<<
    const peer = this._getPeer(roomId, peerId);
    if (!peer) throw new Error(`Peer ${peerId} not found`);
    peer.data.rtpCapabilities = rtpCapabilities;
>> *)
Definition setRtpCapabilities (s : server) (roomId peerId : string) (caps : rtpCapabilities)
  : result unit * server :=
  match _getPeer s roomId peerId, rooms s !! roomId with
  | Some peer, Some room =>
      let peer' := {| peer_id := peer_id peer;
                      peer_transports := peer_transports peer;
                      peer_producers := peer_producers peer;
                      peer_consumers := peer_consumers peer;
                      peer_rtpCapabilities := Some caps |} in
      (Ok tt,
       set_rooms s (<[roomId := {| room_id := room_id room;
                                   room_router := room_router room;
                                   peers := <[peerId := peer']> (peers room) |}]>
                      (rooms s)))
  | _, _ => (Throw (PeerNotFound peerId), s)
  end.

(** [createProducer(roomId, peerId, transportId, rtpParameters, kind)];
    [newId] is the id of the producer the engine creates.
<<
    const peer = this._getPeer(roomId, peerId);
    if (!peer) throw new Error(`Peer ${peerId} not found`);
    const transport = peer.transports.get(transportId);
    if (!transport) throw new Error(`Transport ${transportId} not found`);
    ...
    const producer = await transport.produce(producerOptions);
    ...
    peer.producers.set(producer.id, producer);
    this.producers.set(producer.id, producer);
    return { id: producer.id, kind: producer.kind };
>> *)
Definition createProducer (s : server) (roomId peerId transportId kind : string)
    (newId : string) : result producer * server :=
  match _getPeer s roomId peerId, rooms s !! roomId with
  | Some peer, Some room =>
      if negb (bool_decide (transportId ∈ peer_transports peer))
      then (Throw (TransportNotFound transportId), s)
      else
        let pr := {| producer_id := newId; producer_kind := kind |} in
        let peer' := {| peer_id := peer_id peer;
                        peer_transports := peer_transports peer;
                        peer_producers := <[newId := pr]> (peer_producers peer);
                        peer_consumers := peer_consumers peer;
                        peer_rtpCapabilities := peer_rtpCapabilities peer |} in
        (Ok pr,
         {| pool_of := pool_of s;
            rooms := <[roomId := {| room_id := room_id room;
                                    room_router := room_router room;
                                    peers := <[peerId := peer']> (peers room) |}]> (rooms s);
            producers := <[newId := pr]> (producers s);
            consumers := consumers s; engine := engine s; emitted := emitted s |})
  | _, _ => (Throw (PeerNotFound peerId), s)
  end.

(** A server whose [start()] created the workers [ws]. *)
Definition started (ws : list worker) : server :=
  {| pool_of := {| workers := ws; nextWorkerIndex := Int 0 |};
     rooms := ∅; producers := ∅; consumers := ∅;
     engine := Engine.initial; emitted := [] |}.

Section Consumers.

(** [router.canConsume({ producerId, rtpCapabilities })], the engine's
    compatibility check. *)
Variable canConsume : router -> string -> rtpCapabilities -> bool.

(** [createConsumer(roomId, consumerPeerId, producerPeerId, producerId,
    transportId)].  [newId] is the id the engine gives the consumer that
    [transport.consume] creates.
<<
    const consumerPeer = this._getPeer(roomId, consumerPeerId);
    if (!consumerPeer) throw new Error(`Consumer peer ... not found`);
    const room = this.rooms.get(roomId);
    const producerPeer = room.peers.get(producerPeerId);
    if (!producerPeer) throw new Error(`Producer peer ... not found`);
    const producer = producerPeer.producers.get(producerId);
    if (!producer) throw new Error(`Producer ... not found`);
    const transport = consumerPeer.transports.get(transportId);
    if (!transport) throw new Error(`Transport ... not found`);
    const router = await this.getRouter(roomId);
    ... rtpCapabilities = consumerPeer.data.rtpCapabilities;
        if (!rtpCapabilities) throw ... `has no RTP capabilities`
    if (!router.canConsume({ producerId: producer.id, rtpCapabilities }))
      throw new Error(`Consumer peer ... cannot consume producer ...`);
    const consumer = await transport.consume({...});
    consumerPeer.consumers.set(consumer.id, consumer);
    this.consumers.set(consumer.id, consumer);
    return {...};
>> *)
Definition createConsumer (s : server)
    (roomId consumerPeerId producerPeerId producerId transportId : string)
    (newId : string) : result consumer * server :=
  match _getPeer s roomId consumerPeerId with
  | None => (Throw (ConsumerPeerNotFound consumerPeerId), s)
  | Some consumerPeer =>
  match rooms s !! roomId with
  | None => (Throw TypeError, s)
  | Some room =>
  match peers room !! producerPeerId with
  | None => (Throw (ProducerPeerNotFound producerPeerId), s)
  | Some producerPeer =>
  match peer_producers producerPeer !! producerId with
  | None => (Throw (ProducerNotFound producerId), s)
  | Some producer =>
  if negb (bool_decide (transportId ∈ peer_transports consumerPeer))
  then (Throw (TransportNotFound transportId), s)
  else
  match getRouter s roomId with
  | (Throw e, s1) => (Throw e, s1)
  | (Ok router, s1) =>
  match peer_rtpCapabilities consumerPeer with
  | None => (Throw (NoRtpCapabilities consumerPeerId), s1)
  | Some caps =>
  if negb (canConsume router (producer_id producer) caps)
  then (Throw IncompatibleCapabilities, s1)
  else
    let c := {| consumer_id := newId; consumer_producerId := producer_id producer |} in
    let s2 := set_engine s1 (Engine.consume (engine s1) newId) in
    let consumerPeer' :=
      {| peer_id := peer_id consumerPeer;
         peer_transports := peer_transports consumerPeer;
         peer_producers := peer_producers consumerPeer;
         peer_consumers := <[newId := c]> (peer_consumers consumerPeer);
         peer_rtpCapabilities := peer_rtpCapabilities consumerPeer |} in
    let s3 := store_peer s2 roomId consumerPeer' in
    (Ok c, set_consumers s3 (<[newId := c]> (consumers s3)))
  end end end end end end.

End Consumers.

(** [closePeer(roomId, peerId)].  Each [transport.close()] runs the handler
    [createWebRtcTransport] registered, which removes the transport from the
    peer; the peer itself leaves the room right after.
<<
    const peer = this._getPeer(roomId, peerId);
    if (!peer) return;
    for (const transport of peer.transports.values()) transport.close();
    const room = this.rooms.get(roomId);
    room.peers.delete(peerId);
    if (room.peers.size === 0) {
      room.router.close();
      this.rooms.delete(roomId);
    }
    this.emit('peerClosed', { roomId, peerId });
>> *)
Definition closePeer (s : server) (roomId peerId : string) : server :=
  match _getPeer s roomId peerId with
  | None => s
  | Some peer =>
      let s1 := set_engine s (Engine.closeTransports (engine s) (peer_transports peer)) in
      match rooms s1 !! roomId with
      | None => s1
      | Some room =>
          let remaining := delete peerId (peers room) in
          let s2 :=
            if Nat.eqb (size remaining) 0
            then set_rooms (set_engine s1 (Engine.closeRouter (engine s1) (room_router room)))
                           (delete roomId (rooms s1))
            else set_rooms s1 (<[roomId := {| room_id := room_id room;
                                             room_router := room_router room;
                                             peers := remaining |}]> (rooms s1)) in
          emit s2 (peerClosed roomId peerId)
      end
  end.

(** Closing several peers of a room, one call after the other. *)
Definition closePeers (s : server) (roomId : string) (peerIds : list string) : server :=
  foldl (fun s peerId => closePeer s roomId peerId) s peerIds.

(** The ['died'] handler [_createWorker] registers, for the worker with
    process id [pid]: the worker leaves the list at once.
<<
    this.workers = this.workers.filter(w => w.pid !== worker.pid);
>> *)
Definition on_died (p : pool) (pid : worker) : pool :=
  {| workers := filter (fun w => w <> pid) (workers p);
     nextWorkerIndex := nextWorkerIndex p |}.

(** The same handler, once the replacement has been created (the server is
    not closed): the new worker goes to the end of the list.
<<
    this._createWorker(index).then(newWorker => { this.workers.push(newWorker); ... })
>> *)
Definition on_restarted (p : pool) (newWorker : worker) : pool :=
  {| workers := workers p ++ [newWorker];
     nextWorkerIndex := nextWorkerIndex p |}.

End MediasoupServer.

(** ** RoomManager.js *)

Module RoomManager.

(** [_getNextWorker]: the selection of [MediasoupServer], without the test
    on the length.
<<
    const worker = this.workers[this.nextWorkerIndex];
    this.nextWorkerIndex = (this.nextWorkerIndex + 1) % this.workers.length;
    return worker;
>> *)
Definition _getNextWorker (p : pool) : result (option worker) * pool :=
  let w := index (workers p) (nextWorkerIndex p) in
  (Ok w, {| workers := workers p;
            nextWorkerIndex := rem (succ (nextWorkerIndex p)) (length (workers p)) |}).

Record transport : Type := {
  transport_userId : string
}.

Record producer : Type := {
  producer_id : string;
  producer_kind : string;
  producer_userId : string
}.

Record consumer : Type := {
  consumer_id : string;
  consumer_userId : string;
  consumer_producerId : string
}.

(** The room object of [getOrCreateRoom]. *)
Record room : Type := {
  room_id : string;
  room_worker : worker;
  room_router : router;
  producers : gmap string producer;
  consumers : gmap string consumer;
  rtpTransports : gset string;
  webRtcTransports : gmap string transport
}.

Record manager : Type := {
  pool_of : pool;                 (* this.workers, this.nextWorkerIndex *)
  rooms : gmap string room;       (* this.rooms *)
  engine : Engine.state
}.

(** [getOrCreateRoom(roomId)], up to [await worker.createRouter(...)].
<<
    let room = this.rooms.get(roomId);
    if (room) return room;
    const worker = this._getNextWorker();
    const router = await worker.createRouter({...});
>> *)
Definition getOrCreateRoom_begin (m : manager) (roomId : string)
  : (result room + (string * worker)) * manager :=
  match rooms m !! roomId with
  | Some r => (inl (Ok r), m)
  | None =>
      match _getNextWorker (pool_of m) with
      | (Throw e, p) =>
          (inl (Throw e), {| pool_of := p; rooms := rooms m; engine := engine m |})
      | (Ok None, p) =>
          (inl (Throw TypeError), {| pool_of := p; rooms := rooms m; engine := engine m |})
      | (Ok (Some w), p) =>
          (inr (roomId, w), {| pool_of := p; rooms := rooms m; engine := engine m |})
      end
  end.

(** [getOrCreateRoom(roomId)], from the engine's answer on.
<<
    room = { id: roomId, worker, router, producers: new Map(), ... };
    this.rooms.set(roomId, room);
    return room;
>> *)
Definition getOrCreateRoom_resume (m : manager) (p : string * worker)
  : result room * manager :=
  let '(roomId, w) := p in
  let '(r, e) := Engine.createRouter (engine m) w in
  let room := {| room_id := roomId; room_worker := w; room_router := r;
                 producers := ∅; consumers := ∅;
                 rtpTransports := ∅; webRtcTransports := ∅ |} in
  (Ok room, {| pool_of := pool_of m; rooms := <[roomId := room]> (rooms m); engine := e |}).

Definition getOrCreateRoom : manager -> string -> result room * manager :=
  Async.sequential getOrCreateRoom_begin getOrCreateRoom_resume.

(** [createWebRtcTransport(roomId, userId)]; [newId] is the id of the
    transport the engine creates.
<<
    const room = await this.getOrCreateRoom(roomId);
    const transport = await room.router.createWebRtcTransport({...});
    transport.userId = userId;
    room.webRtcTransports.set(transport.id, transport);
    ...
    return { id: transport.id, ... };
>> *)
Definition createWebRtcTransport (m : manager) (roomId userId : string) (newId : string)
  : result string * manager :=
  match getOrCreateRoom m roomId with
  | (Throw e, m1) => (Throw e, m1)
  | (Ok room, m1) =>
      let room' := {| room_id := room_id room; room_worker := room_worker room;
                      room_router := room_router room; producers := producers room;
                      consumers := consumers room; rtpTransports := rtpTransports room;
                      webRtcTransports :=
                        <[newId := {| transport_userId := userId |}]> (webRtcTransports room) |} in
      (Ok newId, {| pool_of := pool_of m1; rooms := <[roomId := room']> (rooms m1);
                    engine := engine m1 |})
  end.

(** [createProducer(roomId, transportId, producerOptions)]; [kind] is
    [producerOptions.kind] and [newId] the id of the producer the engine
    creates.
<<
    const room = await this.getOrCreateRoom(roomId);
    const transport = room.webRtcTransports.get(transportId);
    if (!transport) throw new Error(...);
    const producer = await transport.produce(producerOptions);
    room.producers.set(producer.id, producer);
    producer.userId = transport.userId;
    ...
>> *)
Definition createProducer (m : manager) (roomId transportId kind : string) (newId : string)
  : result producer * manager :=
  match getOrCreateRoom m roomId with
  | (Throw e, m1) => (Throw e, m1)
  | (Ok room, m1) =>
      match webRtcTransports room !! transportId with
      | None => (Throw (TransportNotFound transportId), m1)
      | Some transport =>
          let pr := {| producer_id := newId; producer_kind := kind;
                       producer_userId := transport_userId transport |} in
          let room' := {| room_id := room_id room; room_worker := room_worker room;
                          room_router := room_router room;
                          producers := <[newId := pr]> (producers room);
                          consumers := consumers room; rtpTransports := rtpTransports room;
                          webRtcTransports := webRtcTransports room |} in
          (Ok pr, {| pool_of := pool_of m1; rooms := <[roomId := room']> (rooms m1);
                     engine := engine m1 |})
      end
  end.

(** A manager whose [initialize()] created the workers [ws]. *)
Definition initialized (ws : list worker) : manager :=
  {| pool_of := {| workers := ws; nextWorkerIndex := Int 0 |};
     rooms := ∅; engine := Engine.initial |}.

Section Consumers.

Variable canConsume : router -> string -> rtpCapabilities -> bool.

(** [createConsumer(roomId, transportId, producerId, rtpCapabilities)];
    [newId] is the id the engine gives the new consumer.
<<
    const room = await this.getOrCreateRoom(roomId);
    if (!room.router.canConsume({ producerId, rtpCapabilities }))
      throw new Error('컨슈머를 생성할 수 없음: 호환되지 않는 RTP 기능');
    const transport = room.webRtcTransports.get(transportId);
    if (!transport) throw new Error(...);
    const producer = room.producers.get(producerId);
    if (!producer) throw new Error(...);
    const consumer = await transport.consume({ producerId, rtpCapabilities, paused: true });
    room.consumers.set(consumer.id, consumer);
    consumer.userId = transport.userId;
    consumer.producerId = producerId;
    return {...};
>> *)
Definition createConsumer (m : manager)
    (roomId transportId producerId : string) (caps : rtpCapabilities)
    (newId : string) : result consumer * manager :=
  match getOrCreateRoom m roomId with
  | (Throw e, m1) => (Throw e, m1)
  | (Ok room, m1) =>
  if negb (canConsume (room_router room) producerId caps)
  then (Throw IncompatibleCapabilities, m1)
  else
  match webRtcTransports room !! transportId with
  | None => (Throw (TransportNotFound transportId), m1)
  | Some transport =>
  match producers room !! producerId with
  | None => (Throw (ProducerNotFound producerId), m1)
  | Some producer =>
      let c := {| consumer_id := newId;
                  consumer_userId := transport_userId transport;
                  consumer_producerId := producerId |} in
      let room' := {| room_id := room_id room; room_worker := room_worker room;
                      room_router := room_router room; producers := producers room;
                      consumers := <[newId := c]> (consumers room);
                      rtpTransports := rtpTransports room;
                      webRtcTransports := webRtcTransports room |} in
      (Ok c, {| pool_of := pool_of m1;
                rooms := <[roomId := room']> (rooms m1);
                engine := Engine.consume (engine m1) newId |})
  end end end.

End Consumers.

(** Every consumer the manager knows, room by room. *)
Definition all_consumers (m : manager) : gmap string (gmap string consumer) :=
  consumers <$> rooms m.


(** [closeRoom(roomId)].  [stopHlsStream(roomId)] asks the converter to stop
    the conversion named [`${roomId}-undefined`] and touches nothing of the
    manager; the producers and consumers are closed in the engine, which
    keeps no record of them here.
<<
    const room = this.rooms.get(roomId);
    if (!room) return false;
    await this.stopHlsStream(roomId);
    for (const producer of room.producers.values()) producer.close();
    for (const consumer of room.consumers.values()) consumer.close();
    for (const transport of room.webRtcTransports.values()) transport.close();
    for (const transport of room.rtpTransports.values()) transport.close();
    room.router.close();
    this.rooms.delete(roomId);
    return true;
>> *)
Definition closeRoom (m : manager) (roomId : string) : bool * manager :=
  match rooms m !! roomId with
  | None => (false, m)
  | Some room =>
      let e1 := Engine.closeTransports (engine m) (dom (webRtcTransports room)) in
      let e2 := Engine.closeTransports e1 (rtpTransports room) in
      let e3 := Engine.closeRouter e2 (room_router room) in
      (true, {| pool_of := pool_of m; rooms := delete roomId (rooms m); engine := e3 |})
  end.

(** [close()].  [HlsConverterService] has no method [stopAll]: calling it
    raises a [TypeError] after the loop, and the lines that close the workers
    and reset the pool are not reached.
<<
    for (const roomId of this.rooms.keys()) await this.closeRoom(roomId);
    await this.hlsConverter.stopAll();
    for (const worker of this.workers) worker.close();
    this.workers = [];
    this.nextWorkerIndex = 0;
>> *)
Definition close (m : manager) : result unit * manager :=
  (Throw TypeError,
   foldl (fun m roomId => (closeRoom m roomId).2) m (map_to_list (rooms m)).*1).


End RoomManager.

(** ** Binary64 arithmetic on bitrates

    Bitrates are integers ([parseInt] of the configuration, [Math.floor] of
    every computed value), and the two factors are binary64 constants.  The
    product [currentBitrate * factor] is the exact product rounded to the
    nearest binary64 value, ties to even; [Math.floor] then drops the
    fraction.  For a non-negative integer below [2^53] and a non-negative
    factor this is computed here on integers. *)

Module Float64.

(** A non-negative binary64 value, written exactly as [num / 2^scale]. *)
Record dyadic : Type := {
  num : Z;
  scale : Z
}.

(** Round the non-negative integer [p] to 53 significant bits, to nearest,
    ties to even. *)
Definition round53 (p : Z) : Z :=
  let k := Z.log2 p + 1 - 53 in
  if k <=? 0 then p
  else
    let q := p / 2 ^ k in
    let r := p mod 2 ^ k in
    let h := 2 ^ (k - 1) in
    let q' := if (h <? r) || ((r =? h) && Z.odd q) then q + 1 else q in
    q' * 2 ^ k.

(** [Math.floor(n * f)] *)
Definition floor_mul (n : Z) (f : dyadic) : Z :=
  round53 (n * num f) / 2 ^ scale f.

(** The same value as a primitive float and as a rational. *)
Definition to_float (f : dyadic) : float :=
  PrimFloat.div (PrimFloat.of_uint63 (Uint63.of_Z (num f)))
                (PrimFloat.of_uint63 (Uint63.of_Z (2 ^ scale f))).

Definition to_Q (f : dyadic) : Q := Qmake (num f) (Z.to_pos (2 ^ scale f)).

(** [f <= 1] and [1 <= f] *)
Definition at_most_one (f : dyadic) : Prop := 0 <= scale f /\ 0 <= num f <= 2 ^ scale f.
Definition at_least_one (f : dyadic) : Prop := 0 <= scale f /\ 2 ^ scale f <= num f.

(** The largest integer every smaller integer is a binary64 value. *)
Definition max_exact : Z := 2 ^ 53.

End Float64.

(** ** MediasoupServer._setupNetworkMonitoring: the adaptive bitrate loop *)

Module NetworkMonitor.

Import Float64.

(** [config.mediasoup.adaptiveBitrate] and the two bounds of
    [config.mediasoup.webRtcTransport] the loop reads. *)
Record config : Type := {
  minRtt : float;
  decreaseFactor : dyadic;
  increaseFactor : dyadic;
  adjustmentThrottleMs : Z;
  stableNetworkThreshold : Z;
  minimumAvailableOutgoingBitrate : Z;
  maximumAvailableOutgoingBitrate : Z
}.

(** The values of [config.js] when the environment overrides nothing. *)
Definition default_config : config :=
  {| minRtt := 50%float;
     decreaseFactor := {| num := 3; scale := 2 |};                    (* 0.75 *)
     increaseFactor := {| num := 5179139571476070; scale := 52 |};    (* 1.15 *)
     adjustmentThrottleMs := 5000;
     stableNetworkThreshold := 5;
     minimumAvailableOutgoingBitrate := 250000;
     maximumAvailableOutgoingBitrate := 5000000 |}.

(** [const sensitivityFactor = 1.2] *)
Definition sensitivityFactor : float := 0x1.3333333333333p+0%float.

(** One entry of [transport.getStats()]. *)
Record stat : Type := {
  stat_type : string;
  stat_kind : string;
  roundTripTime : option float       (* [None]: the entry has no such field *)
}.

(** [stats.find(s => s.type === 'outbound-rtp' && s.kind === 'video')?.roundTripTime] *)
Definition videoRtt (stats : list stat) : option float :=
  match List.find (fun s => String.eqb (stat_type s) "outbound-rtp"
                            && String.eqb (stat_kind s) "video") stats with
  | Some s => roundTripTime s
  | None => None
  end.

(** [!x] for a number or [undefined]: true on [undefined], [0], [-0], [NaN]. *)
Definition falsy (x : option float) : bool :=
  match x with
  | None => true
  | Some f => PrimFloat.is_zero f || PrimFloat.is_nan f
  end.

(** The variables the interval callback closes over, and the transport it
    watches.  [getMaxOutgoingBitrate] reads the transport's bitrate cell,
    [setMaxOutgoingBitrate] writes it. *)
Record monitor : Type := {
  running : bool;                      (* the interval is not cleared *)
  lastAdjustmentTime : Z;
  lastStats : option (list stat);
  stableNetworkCount : Z;
  transport_closed : bool;
  maxOutgoingBitrate : Z;
  applied : list Z                     (* setMaxOutgoingBitrate calls, latest first *)
}.

(** The state [_setupNetworkMonitoring] starts from, at time [now] and with
    the transport's bitrate at [bitrate]. *)
Definition setup (now bitrate : Z) : monitor :=
  {| running := true; lastAdjustmentTime := now; lastStats := None;
     stableNetworkCount := 0; transport_closed := false;
     maxOutgoingBitrate := bitrate; applied := [] |}.

Definition remember (m : monitor) (stats : list stat) (count : Z) : monitor :=
  {| running := running m; lastAdjustmentTime := lastAdjustmentTime m;
     lastStats := Some stats; stableNetworkCount := count;
     transport_closed := transport_closed m;
     maxOutgoingBitrate := maxOutgoingBitrate m; applied := applied m |}.

(** [await transport.setMaxOutgoingBitrate(newBitrate); lastAdjustmentTime = now;
    stableNetworkCount = 0; ... lastStats = stats] *)
Definition adjust (m : monitor) (stats : list stat) (now newBitrate : Z) : monitor :=
  {| running := running m; lastAdjustmentTime := now;
     lastStats := Some stats; stableNetworkCount := 0;
     transport_closed := transport_closed m;
     maxOutgoingBitrate := newBitrate; applied := newBitrate :: applied m |}.

(** [currentRtt > lastRtt * sensitivityFactor && currentRtt > minRtt * 1.5] *)
Definition congested (cfg : config) (currentRtt lastRtt : float) : bool :=
  (PrimFloat.ltb (PrimFloat.mul lastRtt sensitivityFactor) currentRtt)
  && (PrimFloat.ltb (PrimFloat.mul (minRtt cfg) 1.5%float) currentRtt).

(** [currentRtt < minRtt * 1.2] *)
Definition calm (cfg : config) (currentRtt : float) : bool :=
  PrimFloat.ltb currentRtt (PrimFloat.mul (minRtt cfg) 0x1.3333333333333p+0%float).

(** [Math.max(minimumAvailableBitrate, Math.floor(currentBitrate * decreaseFactor))] *)
Definition decreased (cfg : config) (currentBitrate : Z) : Z :=
  Z.max (minimumAvailableOutgoingBitrate cfg) (floor_mul currentBitrate (decreaseFactor cfg)).

(** [Math.min(maximumAvailableBitrate, Math.floor(currentBitrate * increaseFactor))] *)
Definition increased (cfg : config) (currentBitrate : Z) : Z :=
  Z.min (maximumAvailableOutgoingBitrate cfg) (floor_mul currentBitrate (increaseFactor cfg)).

(** One run of the interval callback; [now] is what [Date.now()] returns and
    [stats] what [transport.getStats()] resolves to.
<<
    if (transport.closed) { clearInterval(intervalId); return; }
    const stats = await transport.getStats();
    if (!lastStats) { lastStats = stats; return; }
    const currentRtt = ...; const lastRtt = ...;
    if (!currentRtt || !lastRtt) return;
    const now = Date.now();
    if (now - lastAdjustmentTime < adjustmentThrottleMs) return;
    const currentBitrate = await transport.getMaxOutgoingBitrate();
    if (currentRtt > lastRtt * sensitivityFactor && currentRtt > minRtt * 1.5) {
      const newBitrate = Math.max(minimumAvailableBitrate,
                                  Math.floor(currentBitrate * decreaseFactor));
      await transport.setMaxOutgoingBitrate(newBitrate);
      lastAdjustmentTime = now; stableNetworkCount = 0;
    } else if (currentRtt < minRtt * 1.2) {
      stableNetworkCount++;
      if (stableNetworkCount >= stableNetworkThreshold) {
        const newBitrate = Math.min(maximumAvailableBitrate,
                                    Math.floor(currentBitrate * increaseFactor));
        await transport.setMaxOutgoingBitrate(newBitrate);
        lastAdjustmentTime = now; stableNetworkCount = 0;
      }
    } else { stableNetworkCount = 0; }
    lastStats = stats;
>> *)
Definition tick (cfg : config) (m : monitor) (now : Z) (stats : list stat) : monitor :=
  if negb (running m) then m
  else if transport_closed m then
    {| running := false; lastAdjustmentTime := lastAdjustmentTime m;
       lastStats := lastStats m; stableNetworkCount := stableNetworkCount m;
       transport_closed := true;
       maxOutgoingBitrate := maxOutgoingBitrate m; applied := applied m |}
  else
    match lastStats m with
    | None => remember m stats (stableNetworkCount m)
    | Some last =>
        match videoRtt stats, videoRtt last with
        | Some currentRtt, Some lastRtt =>
            if falsy (Some currentRtt) || falsy (Some lastRtt) then m
            else if now - lastAdjustmentTime m <? adjustmentThrottleMs cfg then m
            else
              let currentBitrate := maxOutgoingBitrate m in
              if congested cfg currentRtt lastRtt then
                adjust m stats now (decreased cfg currentBitrate)
              else if calm cfg currentRtt then
                let count := stableNetworkCount m + 1 in
                if stableNetworkThreshold cfg <=? count
                then adjust m stats now (increased cfg currentBitrate)
                else remember m stats count
              else remember m stats 0
        | _, _ => m
        end
    end.

(** What happens to a monitor: the interval fires, or the transport is
    closed by somebody else. *)
Inductive input : Type :=
| Fire (now : Z) (stats : list stat)
| TransportClose.

Definition step (cfg : config) (m : monitor) (i : input) : monitor :=
  match i with
  | Fire now stats => tick cfg m now stats
  | TransportClose =>
      {| running := running m; lastAdjustmentTime := lastAdjustmentTime m;
         lastStats := lastStats m; stableNetworkCount := stableNetworkCount m;
         transport_closed := true;
         maxOutgoingBitrate := maxOutgoingBitrate m; applied := applied m |}
  end.

Definition run (cfg : config) (m : monitor) (inputs : list input) : monitor :=
  foldl (step cfg) m inputs.

(** The bounds the loop is meant to keep. *)
Definition within (cfg : config) (b : Z) : Prop :=
  minimumAvailableOutgoingBitrate cfg <= b <= maximumAvailableOutgoingBitrate cfg.

(** A configuration the loop can work with: ordered non-negative bounds
    that are exact binary64 integers, a decrease factor at most one and an
    increase factor at least one. *)
Definition well_formed (cfg : config) : Prop :=
  0 <= minimumAvailableOutgoingBitrate cfg
  /\ minimumAvailableOutgoingBitrate cfg <= maximumAvailableOutgoingBitrate cfg
  /\ maximumAvailableOutgoingBitrate cfg < max_exact
  /\ at_most_one (decreaseFactor cfg)
  /\ at_least_one (increaseFactor cfg).

(** What the loop keeps: the transport's bitrate and every value applied so
    far are within the bounds. *)
Definition bounded (cfg : config) (m : monitor) : Prop :=
  within cfg (maxOutgoingBitrate m) /\ Forall (within cfg) (applied m).

(** The specification's formula for the value applied under congestion,
    [max(minBitrate, currentBitrate * decreaseFactor)], as a rational. *)
Definition spec_decreased (cfg : config) (currentBitrate : Z) : Q :=
  Qmax (inject_Z (minimumAvailableOutgoingBitrate cfg))
       (inject_Z currentBitrate * to_Q (decreaseFactor cfg))%Q.


End NetworkMonitor.

(** ** Files and object storage, as the upload loops see them *)

Module Storage.

(** A directory entry: its name, its modification time in milliseconds, and
    whether it can be read. *)
Record file : Type := {
  file_name : string;
  file_mtime : Z;
  file_readable : bool
}.

(** A [PutObjectCommand] that succeeded. *)
Record put : Type := {
  put_key : string;
  put_contentType : string;
  put_cacheControl : string
}.

(** What [stat] tells about a directory entry. *)
Record stats : Type := {
  isDirectory : bool;
  mtime : Z
}.

(** A name of a directory listing and the answer of [stat] for it; [None]:
    [stat] throws. *)
Record dirEntry : Type := {
  entry_name : string;
  entry_stat : option stats
}.

(** An entry of [listResponse.Contents]; [None]: no [LastModified]. *)
Record s3Object : Type := {
  obj_key : string;
  obj_lastModified : option Z
}.

(** [Contents.filter(obj => obj.LastModified
                            && obj.LastModified.getTime() < expirationTimestamp)] *)
Definition expiredObjects (expirationTimestamp : Z) (contents : list s3Object)
  : list s3Object :=
  List.filter (fun obj => match obj_lastModified obj with
                          | Some t => t <? expirationTimestamp
                          | None => false
                          end) contents.

(** The batches of the loop
<<
    for (let i = 0; i < expiredObjects.length; i += 100) {
      const batch = expiredObjects.slice(i, i + 100);
      ...
    }
>>
    from index [i] on, for at most [rounds] rounds. *)
Fixpoint batchesFrom {A : Type} (rounds i : nat) (objs : list A) : list (list A) :=
  match rounds with
  | O => []
  | S r =>
      if (i <? length objs)%nat
      then take 100 (drop i objs) :: batchesFrom r (i + 100) objs
      else []
  end.

Definition batches {A : Type} (objs : list A) : list (list A) :=
  batchesFrom (length objs) 0 objs.

(** The keys a [DeleteObjectCommand] is sent for, batch after batch.  The
    commands of a batch are all sent; when the store refuses one of them,
    [Promise.all] rejects and the loop is left.
<<
    await Promise.all(batch.map(obj => s3Client.send(new DeleteObjectCommand({...
      Key: obj.Key }))));
>> *)
Fixpoint deleteBatches (delete_ok : string -> bool) (bs : list (list s3Object))
  : list string :=
  match bs with
  | [] => []
  | batch :: rest =>
      map obj_key batch
      ++ (if forallb (fun obj => delete_ok (obj_key obj)) batch
          then deleteBatches delete_ok rest
          else [])
  end.

(** The text [startS3Cleanup] and [cleanupS3HlsSegments] share; [now] is
    what [Date.now()] returns and [contents] the listing ([[]] when the
    answer has no [Contents]).
<<
    const expirationTimestamp = Date.now() - (config.aws.s3.expirationDays * 86400 * 1000);
    const listResponse = await s3Client.send(new ListObjectsV2Command({...}));
    if (!listResponse.Contents || listResponse.Contents.length === 0) return;
    const expiredObjects = listResponse.Contents.filter(...);
    for (...) {...}
>> *)
Definition deleteExpired (delete_ok : string -> bool) (now expirationDays : Z)
    (contents : list s3Object) : list string :=
  deleteBatches delete_ok
    (batches (expiredObjects (now - expirationDays * 86400 * 1000) contents)).

End Storage.

Import Storage.

(** ** hls/HlsConverterService.js *)

Module HlsConverterService.

(** The configuration fields [startConversion] reads. *)
Record config : Type := {
  cloudFront_enabled : bool;
  cloudFront_domain : option string;     (* [None]: not set by the environment *)
  s3_enabled : bool;
  s3_bucket : string;
  aws_region : string;
  hls_baseUrl : string;
  hls_outputPath : string
}.

Record producer : Type := {
  producer_id : string;
  producer_kind : string
}.

(** The plain-RTP consumer: [rtpParameters.encodings[0].ssrc] and [kind]. *)
Record rtpConsumer : Type := {
  consumer_ssrc : Z;
  consumer_kind : string
}.

(** The arguments of one [_spawnFfmpeg] call, that is, one encoder process. *)
Record process : Type := {
  proc_roomId : string;
  proc_rtpPort : Z;
  proc_rtpHost : string;
  proc_mediaKind : string;
  proc_outputDir : string
}.

(** The [conversion] object of [startConversion]. *)
Record conversion : Type := {
  id : string;
  roomId : string;
  producerId : string;
  outputDir : string;
  transport : string;
  consumer : rtpConsumer;
  ffmpegProcess : nat;
  hlsUrl : string;
  startedAt : Z;
  s3Uploading : bool
}.

(** The service.  Conversion objects live in [objects] and are named by
    their position there: closures and the registry share them.  Processes
    are named by their position in [processes]. *)
Record service : Type := {
  conversions : gmap string nat;     (* this.conversions: id to conversion object *)
  objects : list conversion;         (* every conversion object created *)
  _closed : bool;                    (* this._closed *)
  processes : list process;          (* every encoder spawned, oldest first *)
  killed : gset nat;                 (* kill('SIGKILL') *)
  on_exit : gmap nat nat;            (* process to the conversion object its 'exit' handler holds *)
  timers : list (Z * nat);           (* pending restart timers: due time, conversion object *)
  closed_transports : gset string;   (* transport.close() *)
  now : Z                            (* the clock *)
}.

Definition initial : service :=
  {| conversions := ∅; objects := []; _closed := false; processes := [];
     killed := ∅; on_exit := ∅; timers := []; closed_transports := ∅; now := 0 |}.

(** The delay of the restart timer, [setTimeout(..., 10000)]. *)
Definition restartDelay : Z := 10000.

(** [`${roomId}-${producerId}`] *)
Definition conversionId (roomId producerId : string) : string :=
  roomId +:+ "-" +:+ producerId.

(** [path.join(a, b, c)] for plain path segments. *)
Definition path_join3 (a b c : string) : string := a +:+ "/" +:+ b +:+ "/" +:+ c.

Section Service.

Variable cfg : config.

(** Whether the encoder with a given process number outlives the grace
    period of [_spawnFfmpeg]; an early exit rejects the promise. *)
Variable survives : nat -> bool.

(** The playlist URL, in the order [startConversion] tries. *)
Definition playlistUrl (roomId producerId : string) : string :=
  match cloudFront_enabled cfg, cloudFront_domain cfg with
  | true, Some domain =>
      if String.eqb domain "" then
        if s3_enabled cfg
        then "https://" +:+ s3_bucket cfg +:+ ".s3." +:+ aws_region cfg
             +:+ ".amazonaws.com/hls/" +:+ roomId +:+ "/" +:+ producerId +:+ "/playlist.m3u8"
        else hls_baseUrl cfg +:+ "/" +:+ roomId +:+ "/" +:+ producerId +:+ "/playlist.m3u8"
      else "https://" +:+ domain +:+ "/hls/" +:+ roomId +:+ "/" +:+ producerId +:+ "/playlist.m3u8"
  | _, _ =>
      if s3_enabled cfg
      then "https://" +:+ s3_bucket cfg +:+ ".s3." +:+ aws_region cfg
           +:+ ".amazonaws.com/hls/" +:+ roomId +:+ "/" +:+ producerId +:+ "/playlist.m3u8"
      else hls_baseUrl cfg +:+ "/" +:+ roomId +:+ "/" +:+ producerId +:+ "/playlist.m3u8"
  end.

(** [_spawnFfmpeg(roomId, rtpPort, rtpHost, mediaKind, outputDir)]: the
    process is spawned in any case; the promise resolves to it if it is still
    running after the grace period and rejects if it exited before. *)
Definition _spawnFfmpeg (s : service) (p : process) : result nat * service :=
  let pid := length (processes s) in
  let s' := {| conversions := conversions s; objects := objects s; _closed := _closed s;
               processes := processes s ++ [p]; killed := killed s;
               on_exit := on_exit s; timers := timers s;
               closed_transports := closed_transports s; now := now s |} in
  (if survives pid then Ok pid else Throw EncoderFailedToStart, s').

(** [ffmpegProcess.on('exit', ...)] for the conversion object [c]. *)
Definition listen (s : service) (pid c : nat) : service :=
  {| conversions := conversions s; objects := objects s; _closed := _closed s;
     processes := processes s; killed := killed s;
     on_exit := <[pid := c]> (on_exit s); timers := timers s;
     closed_transports := closed_transports s; now := now s |}.

(** [process.kill('SIGKILL')] *)
Definition kill (s : service) (pid : nat) : service :=
  {| conversions := conversions s; objects := objects s; _closed := _closed s;
     processes := processes s; killed := {[pid]} ∪ killed s;
     on_exit := on_exit s; timers := timers s;
     closed_transports := closed_transports s; now := now s |}.

(** [startConversion(roomId, router, producer)].  [newTransport] and [ssrc]
    are what the engine answers to [createPlainTransport] and [consume].
<<
    const conversionId = `${roomId}-${producer.id}`;
    if (this.conversions.has(conversionId)) return this.conversions.get(conversionId);
    const outputDir = path.join(config.hls.outputPath, roomId, producer.id);
    ... rtpTransport, rtpConsumer ...
    const rtpPort = rtpConsumer.rtpParameters.encodings[0].ssrc;
    const ffmpegProcess = await this._spawnFfmpeg(roomId, rtpPort, '127.0.0.1',
                                                  producer.kind, outputDir);
    let hlsUrl; ...
    const conversion = { id: conversionId, roomId, producerId: producer.id, outputDir,
                         transport: rtpTransport, consumer: rtpConsumer, ffmpegProcess,
                         hlsUrl, startedAt: new Date(), s3Uploading: config.aws.s3.enabled };
    this.conversions.set(conversionId, conversion);
    ...
    ffmpegProcess.on('exit', (code, signal) => {...});
    return conversion;
>> *)
Definition startConversion (s : service) (roomId : string) (r : router) (p : producer)
    (newTransport : string) (ssrc : Z) : result nat * service :=
  let cid := conversionId roomId (producer_id p) in
  match conversions s !! cid with
  | Some c => (Ok c, s)
  | None =>
      let dir := path_join3 (hls_outputPath cfg) roomId (producer_id p) in
      let rtpConsumer := {| consumer_ssrc := ssrc; consumer_kind := producer_kind p |} in
      match _spawnFfmpeg s {| proc_roomId := roomId; proc_rtpPort := ssrc;
                              proc_rtpHost := "127.0.0.1";
                              proc_mediaKind := producer_kind p;
                              proc_outputDir := dir |} with
      | (Throw e, s1) => (Throw e, s1)
      | (Ok pid, s1) =>
          let conversion :=
            {| id := cid; roomId := roomId; producerId := producer_id p;
               outputDir := dir; transport := newTransport; consumer := rtpConsumer;
               ffmpegProcess := pid; hlsUrl := playlistUrl roomId (producer_id p);
               startedAt := now s1; s3Uploading := s3_enabled cfg |} in
          let c := length (objects s1) in
          let s2 := {| conversions := <[cid := c]> (conversions s1);
                       objects := objects s1 ++ [conversion];
                       _closed := _closed s1; processes := processes s1;
                       killed := killed s1; on_exit := on_exit s1; timers := timers s1;
                       closed_transports := closed_transports s1; now := now s1 |} in
          (Ok c, listen s2 pid c)
      end
  end.

(** [_restartFFmpeg(conversion)]
<<
    if (conversion.ffmpegProcess) conversion.ffmpegProcess.kill('SIGKILL');
    const rtpPort = conversion.consumer.rtpParameters.encodings[0].ssrc;
    conversion.ffmpegProcess = await this._spawnFfmpeg(conversion.roomId, rtpPort,
        '127.0.0.1', conversion.consumer.kind, conversion.outputDir);
    conversion.ffmpegProcess.on('exit', (code, signal) => {...});
>> *)
Definition _restartFFmpeg (s : service) (c : nat) : service :=
  match objects s !! c with
  | None => s
  | Some conv =>
      let s0 := kill s (ffmpegProcess conv) in
      match _spawnFfmpeg s0 {| proc_roomId := roomId conv;
                               proc_rtpPort := consumer_ssrc (consumer conv);
                               proc_rtpHost := "127.0.0.1";
                               proc_mediaKind := consumer_kind (consumer conv);
                               proc_outputDir := outputDir conv |} with
      | (Throw _, s1) => s1
      | (Ok pid, s1) =>
          let conv' := {| id := id conv; roomId := roomId conv; producerId := producerId conv;
                          outputDir := outputDir conv; transport := transport conv;
                          consumer := consumer conv; ffmpegProcess := pid;
                          hlsUrl := hlsUrl conv; startedAt := startedAt conv;
                          s3Uploading := s3Uploading conv |} in
          listen {| conversions := conversions s1; objects := <[c := conv']> (objects s1);
                    _closed := _closed s1; processes := processes s1;
                    killed := killed s1; on_exit := on_exit s1; timers := timers s1;
                    closed_transports := closed_transports s1; now := now s1 |} pid c
      end
  end.

(** The ['exit'] handler both [startConversion] and [_restartFFmpeg]
    register, run when process [pid] exits with [code] ([None] is [null],
    the code of a process ended by a signal).
<<
    if (code !== 0 && !this._closed) {
      setTimeout(() => {...}, 10000);
    }
>> *)
Definition onExit (s : service) (pid : nat) (code : option Z) : service :=
  match on_exit s !! pid with
  | None => s
  | Some c =>
      let timers' :=
        if negb (bool_decide (code = Some 0)) && negb (_closed s)
        then timers s ++ [(now s + restartDelay, c)]
        else timers s in
      {| conversions := conversions s; objects := objects s; _closed := _closed s;
         processes := processes s; killed := killed s;
         on_exit := delete pid (on_exit s); timers := timers';
         closed_transports := closed_transports s; now := now s |}
  end.

(** The body of the restart timer, for the conversion object [c].
<<
    if (this.conversions.has(conversionId) && !this._closed) {
      this._restartFFmpeg(conversion).catch(...);
    }
>> *)
Definition onTimer (s : service) (c : nat) : service :=
  match objects s !! c with
  | None => s
  | Some conv =>
      if bool_decide (is_Some (conversions s !! id conv)) && negb (_closed s)
      then _restartFFmpeg s c
      else s
  end.

(** Time passes: the clock moves by [dt] and the timers then due run, in
    the order they were set. *)
Definition advance (s : service) (dt : Z) : service :=
  let t := now s + dt in
  let due := filter (fun x => x.1 <= t) (timers s) in
  let rest := filter (fun x => ¬ (x.1 <= t)) (timers s) in
  foldl onTimer
        {| conversions := conversions s; objects := objects s; _closed := _closed s;
           processes := processes s; killed := killed s; on_exit := on_exit s;
           timers := rest; closed_transports := closed_transports s; now := t |}
        due.*2.

(** [stopConversion(roomId, producerId)]
<<
    const conversionId = `${roomId}-${producerId}`;
    if (!this.conversions.has(conversionId)) return;
    const conversion = this.conversions.get(conversionId);
    if (conversion.ffmpegProcess) conversion.ffmpegProcess.kill('SIGKILL');
    if (conversion.s3UploaderTimeout) clearTimeout(conversion.s3UploaderTimeout);
    if (conversion.consumer) conversion.consumer.close();
    if (conversion.transport) conversion.transport.close();
    ...
    this.conversions.delete(conversionId);
>> *)
Definition stopConversion (s : service) (roomId producerId : string) : service :=
  let cid := conversionId roomId producerId in
  match conversions s !! cid with
  | None => s
  | Some c =>
      match objects s !! c with
      | None => s
      | Some conv =>
          {| conversions := delete cid (conversions s); objects := objects s;
             _closed := _closed s; processes := processes s;
             killed := {[ffmpegProcess conv]} ∪ killed s;
             on_exit := on_exit s; timers := timers s;
             closed_transports := {[transport conv]} ∪ closed_transports s;
             now := now s |}
      end
  end.

(** What happens to the service. *)
Inductive event : Type :=
| Start (roomId : string) (r : router) (p : producer) (newTransport : string) (ssrc : Z)
| Stop (roomId producerId : string)
| Exit (pid : nat) (code : option Z)
| Advance (dt : Z).

Definition exec (s : service) (e : event) : service :=
  match e with
  | Start roomId r p t ssrc => (startConversion s roomId r p t ssrc).2
  | Stop roomId producerId => stopConversion s roomId producerId
  | Exit pid code => onExit s pid code
  | Advance dt => advance s dt
  end.

Definition run (s : service) (trace : list event) : service := foldl exec s trace.

(** One pass of the loop [_startS3Uploader] runs every five seconds, over
    the listing [files] of the output directory; [put_ok] tells which keys
    the object store accepts.
<<
    const files = await readdir(outputDir);
    const uploadPromises = files
      .filter(file => file.endsWith('.ts') || file.endsWith('.m3u8'))
      .map(async file => {
        const s3Key = `hls/${roomId}/${producerId}/${file}`;
        try {
          const fileContent = await readFile(localPath);
          const contentType = file.endsWith('.m3u8') ? 'application/vnd.apple.mpegurl'
                                                     : 'video/MP2T';
          await this.s3Client.send(new PutObjectCommand({...}));
          ...
        } catch (error) {...}
      });
>> *)
Definition uploadLoop (put_ok : string -> bool) (roomId producerId : string)
    (files : list file) : list put :=
  omap (fun f =>
          let name := file_name f in
          let key := "hls/" +:+ roomId +:+ "/" +:+ producerId +:+ "/" +:+ name in
          if file_readable f && put_ok key
          then Some {| put_key := key;
                       put_contentType := if endsWith name ".m3u8"
                                          then "application/vnd.apple.mpegurl"
                                          else "video/MP2T";
                       put_cacheControl := if endsWith name ".m3u8"
                                           then "max-age=5" else "max-age=3600" |}
          else None)
       (filter (fun f => endsWith (file_name f) ".ts" || endsWith (file_name f) ".m3u8") files).

End Service.

(** [startS3Cleanup] of [_startCleanupInterval]: the keys it asks the store
    to delete.
<<
    if (!this.s3Client || !config.aws.s3.enabled) return;
>> *)
Definition startS3Cleanup (cfg : config) (delete_ok : string -> bool)
    (now expirationDays : Z) (contents : list s3Object) : list string :=
  if negb (s3_enabled cfg) then []
  else deleteExpired delete_ok now expirationDays contents.




(** [close()]
<<
    this._closed = true;
    ...
    const stopPromises = Array.from(this.conversions.values()).map(conversion =>
      this.stopConversion(conversion.roomId, conversion.producerId));
    await Promise.all(stopPromises);
>> *)
Definition close (s : service) : service :=
  foldl (fun s conv => stopConversion s (roomId conv) (producerId conv))
        {| conversions := conversions s; objects := objects s; _closed := true;
           processes := processes s; killed := killed s; on_exit := on_exit s;
           timers := timers s; closed_transports := closed_transports s; now := now s |}
        (omap (fun c => objects s !! c) (map_to_list (conversions s)).*2).

(** An event that starts and stops nothing: a process exits, time passes. *)
Definition quiet (e : event) : Prop :=
  match e with
  | Exit _ _ | Advance _ => True
  | Start _ _ _ _ _ | Stop _ _ => False
  end.



End HlsConverterService.

(** ** hls/converter.js *)

Module Converter.

(** [const minRtpPort = 10000; const maxRtpPort = 59999;] *)
Definition minRtpPort : Z := 10000.
Definition maxRtpPort : Z := 59999.

(** The number of even ports from [minRtpPort] up to [maxRtpPort]. *)
Definition sweep : nat := Z.to_nat ((maxRtpPort - minRtpPort) / 2 + 1).

(** The sequential search
<<
    while (usedPorts.has(port) && port <= maxRtpPort) port += 2;
>>
    run for at most [n] rounds. *)
Fixpoint scan (n : nat) (usedPorts : gset Z) (port : Z) : Z :=
  match n with
  | O => port
  | S n' =>
      if bool_decide (port ∈ usedPorts) && (port <=? maxRtpPort)
      then scan n' usedPorts (port + 2)
      else port
  end.

(** The port one round of the [do] loop proposes: [draw] is the value of
    [Math.floor(Math.random() * (maxRtpPort - minRtpPort))] in that round.
<<
    port = Math.floor(Math.random() * (maxRtpPort - minRtpPort)) + minRtpPort;
    if (port % 2 !== 0) port++;
>> *)
Definition candidate (draw : Z) : Z :=
  let port := draw + minRtpPort in
  if negb (Z.rem port 2 =? 0) then port + 1 else port.

(** The [do ... while] loop with [remaining] random rounds left before it
    gives up on random ports ([attempts > 100]); [draw k] is the draw of
    round [k] of this call.
<<
    do {
      port = ...;
      attempts++;
      if (attempts > 100) {
        port = minRtpPort;
        while (usedPorts.has(port) && port <= maxRtpPort) port += 2;
        break;
      }
    } while (usedPorts.has(port) && port <= maxRtpPort);
>> *)
Fixpoint attempt (draw : nat -> Z) (remaining k : nat) (usedPorts : gset Z) : Z :=
  match remaining with
  | O => scan sweep usedPorts minRtpPort
  | S r =>
      let port := candidate (draw k) in
      if bool_decide (port ∈ usedPorts) && (port <=? maxRtpPort)
      then attempt draw r (S k) usedPorts
      else port
  end.

(** [allocateRtpPort()]
<<
    if (port > maxRtpPort) throw new Error('사용 가능한 RTP 포트가 없습니다');
    usedPorts.add(port);
    return port;
>> *)
Definition allocateRtpPort (draw : nat -> Z) (usedPorts : gset Z) : result Z * gset Z :=
  let port := attempt draw 100 0 usedPorts in
  if maxRtpPort <? port then (Throw PortExhausted, usedPorts)
  else (Ok port, {[port]} ∪ usedPorts).

(** [releaseRtpPort(port)] *)
Definition releaseRtpPort (usedPorts : gset Z) (port : Z) : gset Z :=
  usedPorts ∖ {[port]}.

(** What [Math.random()] can make a draw be: [Math.random()] is in [0, 1),
    so the floor of its product with [maxRtpPort - minRtpPort] is a
    non-negative integer below that difference. *)
Definition fair (draw : nat -> Z) : Prop :=
  forall k, 0 <= draw k < maxRtpPort - minRtpPort.

(** No even port of the range is free. *)
Definition exhausted (usedPorts : gset Z) : Prop :=
  forall p, minRtpPort <= p <= maxRtpPort -> Z.rem p 2 = 0 -> p ∈ usedPorts.

(** The set of all even ports of the range. *)
Definition every_even_port : gset Z :=
  list_to_set (map (fun i => minRtpPort + 2 * Z.of_nat i) (seq 0 sweep)).

(** The window within which a modified file is left alone:
    [if (now - fileModTime < 500) continue;] *)
Definition debounceWindow : Z := 500.

(** One pass of [uploadNewFiles] over the listing [files] of the output
    directory; [now name] is what [Date.now()] returns when the entry
    [name] is examined, and [put_ok] tells which keys the object store
    accepts.
<<
    for (const file of files) {
      if (!file.endsWith('.m3u8') && !file.endsWith('.ts')) continue;
      try {
        await access(filePath, fs.constants.R_OK);
        const fileStat = await stat(filePath);
        const now = Date.now();
        const fileModTime = fileStat.mtime.getTime();
        if (now - fileModTime < 500) continue;
        let contentType = ...;
        const fileContent = await readFile(filePath);
        const s3Key = `hls/${outputId}/${file}`;
        await s3Client.send(new PutObjectCommand(uploadParams));
      } catch (error) {...}
    }
>> *)
Definition uploadNewFiles (put_ok : string -> bool) (now : string -> Z)
    (outputId : string) (files : list file) : list put :=
  omap (fun f =>
          let name := file_name f in
          let key := "hls/" +:+ outputId +:+ "/" +:+ name in
          if negb (endsWith name ".m3u8") && negb (endsWith name ".ts") then None
          else if negb (file_readable f) then None
          else if now name - file_mtime f <? debounceWindow then None
          else if put_ok key
          then Some {| put_key := key;
                       put_contentType := if endsWith name ".m3u8"
                                          then "application/vnd.apple.mpegurl"
                                          else "video/mp2t";
                       put_cacheControl := if endsWith name ".m3u8"
                                           then "max-age=3" else "max-age=31536000" |}
          else None)
       files.

(** *** addProducer *)

Record producer : Type := {
  producer_id : string;
  producer_kind : string
}.

Record rtpInfo : Type := {
  rtpPort : Z;
  rtpHost : string;
  rtp_outputDir : string
}.

(** The [producerInfo] object. *)
Record producerInfo : Type := {
  info_id : string;
  info_kind : string;
  info_roomId : string;
  info_outputId : string;
  info_hlsUrl : option string;       (* [None] is [null] *)
  info_rtpInfo : option rtpInfo
}.

(** The module-level maps and the encoders started so far. *)
Record state : Type := {
  producers : gmap string producerInfo;      (* const producers = new Map() *)
  ffmpegProcesses : gmap string nat;         (* const ffmpegProcesses = new Map() *)
  usedPorts : gset Z;                        (* const usedPorts = new Set() *)
  started : list (Z * string * string)       (* startFFmpeg(rtpPort, outputDir, producerId) *)
}.

(** [\w] or [-] *)
Definition word_char (a : Ascii.ascii) : bool :=
  let n := Ascii.nat_of_ascii a in
  ((48 <=? n) && (n <=? 57) || (65 <=? n) && (n <=? 90)
   || (97 <=? n) && (n <=? 122) || (n =? 95) || (n =? 45))%nat.

(** [roomId.replace(/[^\w-]/g, '')] *)
Fixpoint sanitize (s : string) : string :=
  match s with
  | EmptyString => EmptyString
  | String a rest => if word_char a then String a (sanitize rest) else sanitize rest
  end.

Section AddProducer.

(** [config.aws.cloudFront.domain] and [config.hls.baseUrl], [outputPath]. *)
Variable cloudFront_domain : option string.
Variable hls_baseUrl : string.
Variable hls_outputPath : string.

(** [addProducer(producer, roomId)]; [secureId] is the identifier drawn by
    [generateSecureId] and [draw] the port draws of this call.
<<
    if (!producer || !producer.id || !roomId) throw ...;
    const sanitizedRoomId = roomId.replace(/[^\w-]/g, '');
    if (sanitizedRoomId !== roomId) throw ...;
    const outputId = `${sanitizedRoomId}-${secureId}`;
    if (producers.has(producer.id)) return producers.get(producer.id);
    const producerInfo = {...};
    producers.set(producer.id, producerInfo);
    ...
    if (producer.kind === 'video') {
      const rtpInfo = await setupRtpTransport(producer, sanitizedRoomId, outputId);
      producerInfo.rtpInfo = rtpInfo;
      producerInfo.hlsUrl = ...;
    }
    return producerInfo;
>> *)
Definition addProducer (s : state) (p : producer) (roomId : string)
    (secureId : string) (draw : nat -> Z) : result producerInfo * state :=
  if String.eqb (producer_id p) "" || String.eqb roomId "" then (Throw InvalidProducerOrRoom, s)
  else if negb (String.eqb (sanitize roomId) roomId) then (Throw InvalidRoomId, s)
  else
    let outputId := roomId +:+ "-" +:+ secureId in
    match producers s !! producer_id p with
    | Some info => (Ok info, s)
    | None =>
        let info := {| info_id := producer_id p; info_kind := producer_kind p;
                       info_roomId := roomId; info_outputId := outputId;
                       info_hlsUrl := None; info_rtpInfo := None |} in
        if negb (String.eqb (producer_kind p) "video")
        then (Ok info, {| producers := <[producer_id p := info]> (producers s);
                          ffmpegProcesses := ffmpegProcesses s;
                          usedPorts := usedPorts s; started := started s |})
        else
          let dir := hls_outputPath +:+ "/" +:+ outputId in
          match allocateRtpPort draw (usedPorts s) with
          | (Throw e, u) =>
              (Throw e, {| producers := <[producer_id p := info]> (producers s);
                           ffmpegProcesses := ffmpegProcesses s;
                           usedPorts := u; started := started s |})
          | (Ok port, u) =>
              let pid := length (started s) in
              let url := match cloudFront_domain with
                         | Some d => if String.eqb d ""
                                     then hls_baseUrl +:+ "/" +:+ outputId +:+ "/playlist.m3u8"
                                     else "https://" +:+ d +:+ "/hls/" +:+ outputId
                                          +:+ "/playlist.m3u8"
                         | None => hls_baseUrl +:+ "/" +:+ outputId +:+ "/playlist.m3u8"
                         end in
              let info' := {| info_id := producer_id p; info_kind := producer_kind p;
                              info_roomId := roomId; info_outputId := outputId;
                              info_hlsUrl := Some url;
                              info_rtpInfo := Some {| rtpPort := port; rtpHost := "127.0.0.1";
                                                      rtp_outputDir := dir |} |} in
              (Ok info', {| producers := <[producer_id p := info']> (producers s);
                            ffmpegProcesses := <[producer_id p := pid]> (ffmpegProcesses s);
                            usedPorts := u;
                            started := started s ++ [(port, dir, producer_id p)] |})
          end
    end.

End AddProducer.

(** [securityOptions.fileCleanupAge] *)
Definition fileCleanupAge : Z := 30 * 60 * 1000.

(** [cleanupDirectory(directory, age)] over the listing [files]; [now] is
    read once, before the loop.  The result is the list of the files
    unlinked; [unlink_ok] tells which files can be.  A [stat] that throws ends
    the pass, an [unlink] that throws does not.
<<
    const now = Date.now();
    for (const file of files) {
      if (file === 'playlist.m3u8') continue;
      const fileStat = await stat(filePath);
      const fileAge = now - fileStat.mtime.getTime();
      if (fileAge > age) {
        try { await unlink(filePath); } catch (err) {...}
      }
    }
>> *)
Fixpoint cleanupDirectory (unlink_ok : string -> bool) (now age : Z) (files : list dirEntry)
  : list string :=
  match files with
  | [] => []
  | file :: rest =>
      if String.eqb (entry_name file) "playlist.m3u8"
      then cleanupDirectory unlink_ok now age rest
      else
        match entry_stat file with
        | None => []
        | Some fileStat =>
            if (age <? now - mtime fileStat) && unlink_ok (entry_name file)
            then entry_name file :: cleanupDirectory unlink_ok now age rest
            else cleanupDirectory unlink_ok now age rest
        end
  end.

(** [cleanupS3HlsSegments()]: the keys it asks the store to delete;
    [s3Client] tells whether the client was created.
<<
    if (!s3Client) return;
>> *)
Definition cleanupS3HlsSegments (s3Client : bool) (delete_ok : string -> bool)
    (now expirationDays : Z) (contents : list s3Object) : list string :=
  if negb s3Client then []
  else deleteExpired delete_ok now expirationDays contents.

(** [stopFFmpeg(producerId)]: the process that is sent [SIGTERM], if any.
    The registry is not touched until the process closes (or five seconds
    have passed). *)
Definition stopFFmpeg (s : state) (producerId : string) : option nat :=
  ffmpegProcesses s !! producerId.

(** [removeProducer(producerId)]: what it leaves in the module-level maps.
    The signal sent is that of [stopFFmpeg], the files removed are those of
    [cleanupDirectory].
<<
    const producerData = producers.get(producerId);
    if (!producerData) return;
    stopFFmpeg(producerId);
    ...
    if (producerData.rtpInfo && producerData.rtpInfo.rtpPort)
      releaseRtpPort(producerData.rtpInfo.rtpPort);
    producers.delete(producerId);
>> *)
Definition removeProducer (s : state) (producerId : string) : state :=
  match producers s !! producerId with
  | None => s
  | Some producerData =>
      let used :=
        match info_rtpInfo producerData with
        | Some r => if rtpPort r =? 0 then usedPorts s
                    else releaseRtpPort (usedPorts s) (rtpPort r)
        | None => usedPorts s
        end in
      {| producers := delete producerId (producers s);
         ffmpegProcesses := ffmpegProcesses s;
         usedPorts := used; started := started s |}
  end.

(** [getHlsUrl(producerId)]: [None] is [null]. *)
Definition getHlsUrl (s : state) (producerId : string) : option string :=
  match producers s !! producerId with
  | Some producerData => info_hlsUrl producerData
  | None => None
  end.

End Converter.

(** ** Scenarios

    States reached through the operations above, used to run the
    properties on concrete inputs. *)

Module Scenario.

(** Two workers; in [room-1] peer [p1] has a transport and publishes a video
    producer, peer [p2] has a transport and has announced its capabilities. *)
Definition server_with_two_peers : MediasoupServer.server :=
  let s0 := MediasoupServer.started [101; 102] in
  let s1 := (MediasoupServer.createWebRtcTransport s0 "room-1" "p1" "t1").2 in
  let s2 := (MediasoupServer.createProducer s1 "room-1" "p1" "t1" "video" "prod-1").2 in
  let s3 := (MediasoupServer.createWebRtcTransport s2 "room-1" "p2" "t2").2 in
  (MediasoupServer.setRtpCapabilities s3 "room-1" "p2" "caps-vp8-only").2.

(** The same server once [p2] has left: [p1] is the last peer of the room. *)
Definition server_with_one_peer : MediasoupServer.server :=
  MediasoupServer.closePeer server_with_two_peers "room-1" "p2".

(** A room manager with one worker; in [room-1] user [u1] has a transport
    and a video producer, user [u2] has a transport. *)
Definition manager_with_producer : RoomManager.manager :=
  let m0 := RoomManager.initialized [101] in
  let m1 := (RoomManager.createWebRtcTransport m0 "room-1" "u1" "t1").2 in
  let m2 := (RoomManager.createProducer m1 "room-1" "t1" "video" "prod-1").2 in
  (RoomManager.createWebRtcTransport m2 "room-1" "u2" "t2").2.

(** An engine that finds every receiver incompatible, and one that accepts
    every receiver. *)
Definition never_compatible (r : router) (producerId : string) (caps : rtpCapabilities)
  : bool := false.
Definition always_compatible (r : router) (producerId : string) (caps : rtpCapabilities)
  : bool := true.

(** Transport statistics whose video stream reports the round-trip time
    [rtt]. *)
Definition video_stats (rtt : float) : list NetworkMonitor.stat :=
  [ {| NetworkMonitor.stat_type := "inbound-rtp"; NetworkMonitor.stat_kind := "audio";
       NetworkMonitor.roundTripTime := None |};
    {| NetworkMonitor.stat_type := "outbound-rtp"; NetworkMonitor.stat_kind := "video";
       NetworkMonitor.roundTripTime := Some rtt |} ].

(** [config.js] with only [MEDIASOUP_MAX_BITRATE=1000000] set in the
    environment. *)
Definition lowered_cap : NetworkMonitor.config :=
  {| NetworkMonitor.minRtt := NetworkMonitor.minRtt NetworkMonitor.default_config;
     NetworkMonitor.decreaseFactor :=
       NetworkMonitor.decreaseFactor NetworkMonitor.default_config;
     NetworkMonitor.increaseFactor :=
       NetworkMonitor.increaseFactor NetworkMonitor.default_config;
     NetworkMonitor.adjustmentThrottleMs :=
       NetworkMonitor.adjustmentThrottleMs NetworkMonitor.default_config;
     NetworkMonitor.stableNetworkThreshold :=
       NetworkMonitor.stableNetworkThreshold NetworkMonitor.default_config;
     NetworkMonitor.minimumAvailableOutgoingBitrate :=
       NetworkMonitor.minimumAvailableOutgoingBitrate NetworkMonitor.default_config;
     NetworkMonitor.maximumAvailableOutgoingBitrate := 1000000 |}.

(** [initialAvailableOutgoingBitrate] of [config.js], the bitrate a
    transport is created with. *)
Definition initialAvailableOutgoingBitrate : Z := 2000000.

(** The interval fires every two seconds while the round-trip time doubles;
    the third run is the first outside the throttle window. *)
Definition congestion : list NetworkMonitor.input :=
  [ NetworkMonitor.Fire 2000 (video_stats 100);
    NetworkMonitor.Fire 4000 (video_stats 150);
    NetworkMonitor.Fire 6000 (video_stats 200) ].

(** The same, followed by a quiet period, the close of the transport and
    one more run of the interval. *)
Definition congestion_then_calm : list NetworkMonitor.input :=
  congestion
  ++ [ NetworkMonitor.Fire 8000 (video_stats 40); NetworkMonitor.Fire 10000 (video_stats 40);
       NetworkMonitor.Fire 12000 (video_stats 40); NetworkMonitor.Fire 14000 (video_stats 40);
       NetworkMonitor.Fire 16000 (video_stats 40); NetworkMonitor.Fire 18000 (video_stats 40);
       NetworkMonitor.Fire 20000 (video_stats 40); NetworkMonitor.Fire 22000 (video_stats 40);
       NetworkMonitor.TransportClose; NetworkMonitor.Fire 24000 (video_stats 40) ].

(** A monitor that has stored one sample with round-trip time [rtt], on a
    transport whose bitrate is [bitrate]. *)
Definition after_first_sample (bitrate : Z) (rtt : float) : NetworkMonitor.monitor :=
  NetworkMonitor.tick NetworkMonitor.default_config (NetworkMonitor.setup 0 bitrate)
                      2000 (video_stats rtt).

(** The HLS configuration of [config.js] with the object store enabled. *)
Definition hls_config : HlsConverterService.config :=
  {| HlsConverterService.cloudFront_enabled := false;
     HlsConverterService.cloudFront_domain := None;
     HlsConverterService.s3_enabled := true;
     HlsConverterService.s3_bucket := "casino-platform-media";
     HlsConverterService.aws_region := "ap-northeast-2";
     HlsConverterService.hls_baseUrl := "http://localhost:3000/hls";
     HlsConverterService.hls_outputPath := "public/hls" |}.

Definition video_producer : HlsConverterService.producer :=
  {| HlsConverterService.producer_id := "prod-1";
     HlsConverterService.producer_kind := "video" |}.

(** Encoders that all outlive the grace period. *)
Definition always_survives (pid : nat) : bool := true.

(** The service after one start for [room-1] and [prod-1]. *)
Definition first_conversion : HlsConverterService.service :=
  (HlsConverterService.startConversion hls_config always_survives
     HlsConverterService.initial "room-1" 0%nat video_producer "plain-1" 5004).2.

(** A start, a minute of encoding, then the encoder exits with code 1. *)
Definition crash_trace : list HlsConverterService.event :=
  [ HlsConverterService.Start "room-1" 0%nat video_producer "plain-1" 5004;
    HlsConverterService.Advance 60000;
    HlsConverterService.Exit 0%nat (Some 1) ].

(** After the crash the client stops the stream and starts it again, all
    within the ten seconds of the restart timer. *)
Definition stop_and_restart_trace : list HlsConverterService.event :=
  crash_trace
  ++ [ HlsConverterService.Advance 1000;
       HlsConverterService.Stop "room-1" "prod-1";
       HlsConverterService.Advance 1000;
       HlsConverterService.Start "room-1" 0%nat video_producer "plain-2" 5006;
       HlsConverterService.Advance 8000 ].

(** A segment written at 9900 and a playlist written at 9000. *)
Definition fresh_segment : file :=
  {| file_name := "segment_003.ts"; file_mtime := 9900; file_readable := true |}.
Definition stable_playlist : file :=
  {| file_name := "playlist.m3u8"; file_mtime := 9000; file_readable := true |}.

(** The same file, modified at [t]. *)
Definition touch (t : Z) (f : file) : file :=
  {| file_name := file_name f; file_mtime := t; file_readable := file_readable f |}.

(** An object store that accepts every key. *)
Definition accepts_all (key : string) : bool := true.

(** [converter.js] just loaded. *)
Definition converter_empty : Converter.state :=
  {| Converter.producers := ∅; Converter.ffmpegProcesses := ∅;
     Converter.usedPorts := ∅; Converter.started := [] |}.

(** Encoders of which only the first outlives the grace period. *)
Definition only_first_survives (pid : nat) : bool := Nat.eqb pid 0.

(** The service after one start for [room-1] and [prod-1], with such
    encoders. *)
Definition fragile_conversion : HlsConverterService.service :=
  (HlsConverterService.startConversion hls_config only_first_survives
     HlsConverterService.initial "room-1" 0%nat video_producer "plain-1" 5004).2.

(** A listing of the bucket on day ten: a segment written on day two, a
    segment written an hour ago, an entry without a date. *)
Definition listing : list s3Object :=
  [ {| obj_key := "hls/room-1/prod-1/segment_001.ts";
       obj_lastModified := Some (2 * 86400000) |};
    {| obj_key := "hls/room-1/prod-1/segment_900.ts";
       obj_lastModified := Some (10 * 86400000 - 3600000) |};
    {| obj_key := "hls/room-1/prod-1/playlist.m3u8"; obj_lastModified := None |} ].


(** The output directory of a stream at time 3600000: the playlist and a
    segment written at time zero, a segment written a minute ago. *)
Definition output_dir : list dirEntry :=
  [ {| entry_name := "playlist.m3u8";
       entry_stat := Some {| isDirectory := false; mtime := 0 |} |};
    {| entry_name := "segment_001.ts";
       entry_stat := Some {| isDirectory := false; mtime := 0 |} |};
    {| entry_name := "segment_060.ts";
       entry_stat := Some {| isDirectory := false; mtime := 3540000 |} |} ].

End Scenario.

(* ===================================================================== *)
(** * Part II: properties                                                 *)
(* ===================================================================== *)

(** ** Worker pool *)

Section WorkerPoolFacts.

Implicit Types (p : pool) (ws : list worker).

(** With no worker, [MediasoupServer._getNextWorker] throws and leaves the
    pool as it is. *)
Lemma mediasoup_next_empty (i : num) :
  MediasoupServer._getNextWorker {| workers := []; nextWorkerIndex := i |}
  = (Throw NoWorkersAvailable, {| workers := []; nextWorkerIndex := i |}).
Proof. reflexivity. Qed.

(** With workers and an index inside the list, it returns the worker at the
    index and moves the index on by one, modulo the number of workers. *)
Lemma mediasoup_next_round_robin ws (i : nat) (w : worker) :
  ws !! i = Some w ->
  MediasoupServer._getNextWorker {| workers := ws; nextWorkerIndex := Int (Z.of_nat i) |}
  = (Ok (Some w),
     {| workers := ws; nextWorkerIndex := Int (Z.of_nat (S i mod length ws)) |}).
Proof.
  intros Hw. pose proof (lookup_lt_Some _ _ _ Hw) as Hlt.
  unfold MediasoupServer._getNextWorker; cbn [workers nextWorkerIndex].
  destruct (Nat.eqb_spec (length ws) 0) as [E|E]; [lia|].
  unfold index. destruct (Z.leb_spec 0 (Z.of_nat i)) as [_|?]; [|lia].
  rewrite Nat2Z.id, Hw. do 3 f_equal.
  unfold rem, succ. destruct (Nat.eqb_spec (length ws) 0) as [?|_]; [lia|].
  f_equal. rewrite Z.rem_mod_nonneg by lia.
  rewrite Nat2Z.inj_mod. f_equal. lia.
Qed.

(** X1: [MediasoupServer._getNextWorker] is round-robin.  On a pool whose
    index is inside the list of workers, [n] calls in a row hand out the
    workers in cyclic order, starting with the one at the index. *)
Lemma mediasoup_calls_cycle ws (n i : nat) :
  (i < length ws)%nat ->
  (calls MediasoupServer._getNextWorker n
         {| workers := ws; nextWorkerIndex := Int (Z.of_nat i) |}).1
  = map (fun j => Ok (ws !! ((i + j) mod length ws)%nat)) (seq 0 n).
Proof.
  revert i. induction n as [|n IH]; intros i Hi; [reflexivity|].
  destruct (lookup_lt_is_Some_2 ws i Hi) as [w Hw].
  cbn [calls]. rewrite (mediasoup_next_round_robin ws i w Hw).
  specialize (IH (S i mod length ws)%nat).
  destruct (calls _ n _) as [rs p2] eqn:E. cbn [fst] in *.
  rewrite IH by (apply Nat.mod_upper_bound; lia).
  cbn [seq map]. f_equal.
  - rewrite Nat.add_0_r, Nat.mod_small, Hw by done. reflexivity.
  - rewrite <- seq_shift, map_map. apply map_ext. intros j. do 2 f_equal.
    rewrite Nat.Div0.add_mod_idemp_l. f_equal. lia.
Qed.

(** A worker that dies is filtered out of [this.workers] while the index
    stays: the next selection can then fall outside the list. *)
Lemma mediasoup_next_stale_index :
  MediasoupServer._getNextWorker {| workers := [7]; nextWorkerIndex := Int 1 |}
  = (Ok None, {| workers := [7]; nextWorkerIndex := Int 0 |}).
Proof. reflexivity. Qed.

(** C9 (the claim fails on [RoomManager]): with an empty pool,
    [RoomManager._getNextWorker] does not throw; it returns [undefined] as the
    worker and turns the index into [NaN].  [MediasoupServer._getNextWorker]
    has the test [RoomManager] lacks. *)
Theorem room_manager_next_empty :
  RoomManager._getNextWorker {| workers := []; nextWorkerIndex := Int 0 |}
  = (Ok None, {| workers := []; nextWorkerIndex := NaN |})
  /\ MediasoupServer._getNextWorker {| workers := []; nextWorkerIndex := Int 0 |}
     = (Throw NoWorkersAvailable, {| workers := []; nextWorkerIndex := Int 0 |})
  /\ (forall i : num,
        RoomManager._getNextWorker {| workers := []; nextWorkerIndex := i |}
        = (Ok None, {| workers := []; nextWorkerIndex := NaN |})).
Proof.
  split; [reflexivity|]. split; [reflexivity|].
  intros i. unfold RoomManager._getNextWorker. cbn [workers nextWorkerIndex length].
  f_equal.
  - f_equal. destruct i as [z|]; [|reflexivity].
    cbn [index]. destruct (0 <=? z); reflexivity.
  - f_equal. destruct i; reflexivity.
Qed.

(** Once the index is [NaN] it stays so, whatever workers come back. *)
Lemma room_manager_next_nan ws :
  RoomManager._getNextWorker {| workers := ws; nextWorkerIndex := NaN |}
  = (Ok None, {| workers := ws; nextWorkerIndex := NaN |}).
Proof. reflexivity. Qed.


End WorkerPoolFacts.

(** ** RTP port allocation (converter.js) *)

Section PortFacts.

Import Converter.

Implicit Types (used : gset Z) (draw : nat -> Z).

Lemma candidate_even_in_range (d : Z) :
  0 <= d < maxRtpPort - minRtpPort ->
  Z.rem (candidate d) 2 = 0 /\ minRtpPort <= candidate d <= maxRtpPort - 1.
Proof.
  unfold candidate, maxRtpPort, minRtpPort. intros Hd.
  destruct (Z.eqb_spec (Z.rem (d + 10000) 2) 0) as [E|E]; cbn [negb].
  - split; [exact E|].
    lia.
  - rewrite Z.rem_mod_nonneg in E by lia.
    rewrite Z.rem_mod_nonneg by lia.
    pose proof (Z.mod_pos_bound (d + 10000) 2 eq_refl) as Hb.
    assert (Hodd : (d + 10000) mod 2 = 1) by lia.
    split.
    + replace (d + 10000 + 1) with ((d + 10000) + 1) by lia.
      rewrite Z.add_mod, Hodd by lia. reflexivity.
    + assert (d <> 49998) by (intros ->; vm_compute in Hodd; discriminate Hodd). lia.
Qed.

(** The sequential search stops on the first port it may stop on. *)
Lemma scan_spec used (n : nat) (port : Z) :
  exists j : nat,
    (j <= n)%nat
    /\ scan n used port = port + 2 * Z.of_nat j
    /\ (forall i : nat, (i < j)%nat ->
          (port + 2 * Z.of_nat i) ∈ used /\ port + 2 * Z.of_nat i <= maxRtpPort)
    /\ ((j < n)%nat ->
          ~ ((scan n used port) ∈ used /\ scan n used port <= maxRtpPort)).
Proof.
  revert port. induction n as [|n IH]; intros port.
  - exists 0%nat. cbn [scan]. repeat split; [lia|lia|lia|lia|lia].
  - cbn [scan].
    destruct (bool_decide (port ∈ used) && (port <=? maxRtpPort)) eqn:E.
    + apply andb_true_iff in E as [Hin Hle].
      apply bool_decide_eq_true in Hin. apply Z.leb_le in Hle.
      destruct (IH (port + 2)) as (j & Hj & Hr & Hused & Hstop).
      exists (S j). split; [lia|]. split; [lia|]. split.
      * intros i Hi. destruct i as [|i].
        -- replace (port + 2 * Z.of_nat 0) with port by lia. done.
        -- replace (port + 2 * Z.of_nat (S i)) with (port + 2 + 2 * Z.of_nat i) by lia.
           apply Hused. lia.
      * intros Hlt. apply Hstop. lia.
    + exists 0%nat. split; [lia|]. split; [lia|]. split; [lia|].
      intros _ [Hin Hle].
      apply andb_false_iff in E as [E|E].
      * apply bool_decide_eq_false in E. done.
      * apply Z.leb_gt in E. lia.
Qed.

(** The full sweep from [minRtpPort]: either an unused even port of the
    range, or the first port past the range when every even port is used. *)
Lemma sweep_spec used :
  let port := scan sweep used minRtpPort in
  (port <= maxRtpPort /\ (port ∉ used) /\ Z.rem port 2 = 0 /\ minRtpPort <= port)
  \/ (maxRtpPort < port /\ exhausted used).
Proof.
  intros port. subst port.
  assert (Hsweep : Z.of_nat sweep = 25000).
  { unfold sweep. rewrite Z2Nat.id by (vm_compute; discriminate). reflexivity. }
  destruct (scan_spec used sweep minRtpPort) as (j & Hj & Hr & Hused & Hstop).
  rewrite Hr in Hstop |- *.
  unfold maxRtpPort, minRtpPort in *.
  destruct (decide (j = sweep)) as [->|Hne].
  - right. split; [lia|].
    intros p Hp Heven. unfold maxRtpPort, minRtpPort in Hp.
    rewrite Z.rem_mod_nonneg in Heven by lia.
    assert (Hhalf : (p - 10000) mod 2 = 0).
    { rewrite Zminus_mod, Heven. reflexivity. }
    pose proof (Z.div_mod (p - 10000) 2 ltac:(lia)) as Hdm.
    assert (Hq : 0 <= (p - 10000) / 2 < 25000).
    { split; [apply Z.div_pos; lia|apply Z.div_lt_upper_bound; lia]. }
    replace p with (10000 + 2 * Z.of_nat (Z.to_nat ((p - 10000) / 2)))
      by (rewrite Z2Nat.id; lia).
    apply Hused. lia.
  - left. assert (Hlt : (j < sweep)%nat) by lia.
    specialize (Hstop Hlt).
    assert (Hle : 10000 + 2 * Z.of_nat j <= 59999) by lia.
    split; [exact Hle|]. split; [tauto|]. split; [|lia].
    rewrite Z.rem_mod_nonneg by lia.
    rewrite Z.add_mod, Z.mul_comm, Z_mod_mult by lia. reflexivity.
Qed.

(** What the [do ... while] loop leaves in [port] under fair draws. *)
Lemma attempt_spec draw used (remaining k : nat) :
  fair draw ->
  let port := attempt draw remaining k used in
  (port <= maxRtpPort /\ (port ∉ used) /\ Z.rem port 2 = 0 /\ minRtpPort <= port)
  \/ (maxRtpPort < port /\ exhausted used).
Proof.
  intros Hfair. revert k. induction remaining as [|r IH]; intros k; cbn [attempt].
  - apply sweep_spec.
  - destruct (candidate_even_in_range (draw k) (Hfair k)) as [Heven Hrange].
    destruct (bool_decide (candidate (draw k) ∈ used)
              && (candidate (draw k) <=? maxRtpPort)) eqn:E.
    + apply IH.
    + left. apply andb_false_iff in E as [E|E].
      * apply bool_decide_eq_false in E. repeat split; [lia|done|done|lia].
      * apply Z.leb_gt in E. lia.
Qed.

(** When every even port is used, every round of the loop goes on and the
    search ends past the range. *)
Lemma attempt_exhausted draw used (remaining k : nat) :
  fair draw -> exhausted used -> maxRtpPort < attempt draw remaining k used.
Proof.
  intros Hfair Hex.
  destruct (attempt_spec draw used remaining k Hfair) as [(Hle & Hnot & Heven & Hmin)|[Hgt _]];
    [|exact Hgt].
  exfalso. apply Hnot, Hex; [lia|exact Heven].
Qed.

(** C10: under draws [Math.random()] can produce, a port [allocateRtpPort]
    returns is even, lies in the configured range, was not in the in-use set,
    and is in the set the call leaves behind (the old set plus that port); and
    the call throws the port-exhausted error, leaving the set as it was,
    exactly when no even port of the range is free, so in particular when no
    port of the range is free. *)
Theorem allocateRtpPort_spec draw used :
  fair draw ->
  (forall port used',
      allocateRtpPort draw used = (Ok port, used') ->
      Z.rem port 2 = 0
      /\ minRtpPort <= port <= maxRtpPort
      /\ (port ∉ used)
      /\ (port ∈ used')
      /\ used' = {[port]} ∪ used)
  /\ (forall e used',
         allocateRtpPort draw used = (Throw e, used') ->
         e = PortExhausted /\ used' = used /\ exhausted used)
  /\ (exhausted used -> allocateRtpPort draw used = (Throw PortExhausted, used))
  /\ ((forall p, minRtpPort <= p <= maxRtpPort -> p ∈ used) ->
      allocateRtpPort draw used = (Throw PortExhausted, used)).
Proof.
  intros Hfair. unfold allocateRtpPort.
  pose proof (attempt_spec draw used 100 0 Hfair) as Hspec. cbv zeta in Hspec.
  pose proof (attempt_exhausted draw used 100 0 Hfair) as Hgt.
  generalize dependent (attempt draw 100 0 used). intros port Hspec Hgt.
  assert (Hthrow : exhausted used ->
    (if maxRtpPort <? port
     then (Throw PortExhausted, used)
     else (Ok port, {[port]} ∪ used))
    = (@Throw Z PortExhausted, used)).
  { intros Hex. specialize (Hgt Hex). apply Z.ltb_lt in Hgt. rewrite Hgt. reflexivity. }
  split; [|split; [|split]].
  - intros port' used' H.
    destruct (Z.ltb_spec maxRtpPort port) as [Hlt|Hle]; [discriminate H|].
    injection H as <- <-.
    destruct Hspec as [(_ & Hnot & Heven & Hmin)|[Hlt _]]; [|lia].
    split; [exact Heven|]. split; [lia|]. split; [exact Hnot|].
    split; [set_solver|reflexivity].
  - intros e used' H.
    destruct (Z.ltb_spec maxRtpPort port) as [Hlt|Hle]; [|discriminate H].
    injection H as <- <-.
    destruct Hspec as [(Hle & _)|[_ Hex]]; [lia|done].
  - exact Hthrow.
  - intros Hall. apply Hthrow. intros p Hp _. apply Hall, Hp.
Qed.

(** The set of all even ports leaves no even port free. *)
Lemma every_even_port_exhausted : exhausted every_even_port.
Proof.
  assert (Hsweep : Z.of_nat sweep = 25000).
  { unfold sweep. rewrite Z2Nat.id by (vm_compute; discriminate). reflexivity. }
  intros p Hp Heven. unfold maxRtpPort, minRtpPort in Hp.
  rewrite Z.rem_mod_nonneg in Heven by lia.
  assert (Hhalf : (p - 10000) mod 2 = 0).
  { rewrite Zminus_mod, Heven. reflexivity. }
  pose proof (Z.div_mod (p - 10000) 2 ltac:(lia)) as Hdm.
  assert (Hq : 0 <= (p - 10000) / 2 < 25000).
  { split; [apply Z.div_pos; lia|apply Z.div_lt_upper_bound; lia]. }
  unfold every_even_port. apply elem_of_list_to_set, list_elem_of_In, in_map_iff.
  exists (Z.to_nat ((p - 10000) / 2)). split.
  - unfold minRtpPort. rewrite Z2Nat.id; lia.
  - apply in_seq. lia.
Qed.

Lemma constant_draw_fair : fair (fun _ => 0).
Proof. intros k. unfold maxRtpPort, minRtpPort. lia. Qed.

(** With port 10000 taken and every draw proposing it, the hundred random
    rounds fail and the sequential search settles on 10002. *)
Example allocateRtpPort_after_100_rounds :
  allocateRtpPort (fun _ => 0) {[10000]} = (Ok 10002, {[10002]} ∪ {[10000]}).
Proof. vm_compute. reflexivity. Qed.

Lemma allocateRtpPort_spec_witness :
  fair (fun _ => 0)
  /\ (Z.rem 10002 2 = 0
      /\ minRtpPort <= 10002 <= maxRtpPort
      /\ (10002 ∉ ({[10000]} : gset Z))
      /\ (10002 ∈ ({[10002]} ∪ {[10000]} : gset Z))
      /\ ({[10002]} ∪ {[10000]} : gset Z) = {[10002]} ∪ {[10000]})
  /\ (exhausted every_even_port
      /\ allocateRtpPort (fun _ => 0) every_even_port
         = (Throw PortExhausted, every_even_port)).
Proof.
  split; [exact constant_draw_fair|]. split.
  - exact (proj1 (allocateRtpPort_spec (fun _ => 0) {[10000]} constant_draw_fair)
             10002 ({[10002]} ∪ {[10000]}) allocateRtpPort_after_100_rounds).
  - split; [exact every_even_port_exhausted|].
    exact (proj1 (proj2 (proj2 (allocateRtpPort_spec (fun _ => 0) every_even_port
                                  constant_draw_fair)))
             every_even_port_exhausted).
Defined.

End PortFacts.

(** ** Peers and rooms (MediasoupServer.js) *)

Section PeerFacts.

Import MediasoupServer.

Implicit Types (s : server) (room : roomInfo) (peer : peer).

Lemma closePeer_unknown_peer s roomId peerId :
  _getPeer s roomId peerId = None -> closePeer s roomId peerId = s.
Proof. intros H. unfold closePeer. rewrite H. reflexivity. Qed.

(** What [closePeer] does to the registry entry of the room. *)
Lemma closePeer_rooms s roomId peerId room peer :
  rooms s !! roomId = Some room ->
  peers room !! peerId = Some peer ->
  rooms (closePeer s roomId peerId)
  = if Nat.eqb (size (delete peerId (peers room))) 0
    then delete roomId (rooms s)
    else <[roomId := {| room_id := room_id room; room_router := room_router room;
                        peers := delete peerId (peers room) |}]> (rooms s).
Proof.
  intros Hroom Hpeer. unfold closePeer, _getPeer. rewrite Hroom, Hpeer.
  cbn [set_engine rooms]. rewrite Hroom.
  destruct (Nat.eqb _ 0); reflexivity.
Qed.

(** Other rooms are left alone. *)
Lemma closePeer_other_room s roomId peerId r :
  r <> roomId -> rooms (closePeer s roomId peerId) !! r = rooms s !! r.
Proof.
  intros Hne. unfold closePeer.
  destruct (_getPeer s roomId peerId) as [peer|]; [|reflexivity].
  cbn [set_engine rooms].
  destruct (rooms s !! roomId) as [room|]; [|reflexivity].
  destruct (Nat.eqb _ 0); cbn [emit set_rooms rooms].
  - apply lookup_delete_ne. congruence.
  - apply lookup_insert_ne. congruence.
Qed.

(** A room that is not registered stays so. *)
Lemma closePeers_absent s roomId peerIds :
  rooms s !! roomId = None -> rooms (closePeers s roomId peerIds) !! roomId = None.
Proof.
  revert s. induction peerIds as [|k rest IH]; intros s H; [exact H|].
  cbn [closePeers foldl]. apply IH.
  rewrite closePeer_unknown_peer; [exact H|].
  unfold _getPeer. rewrite H. reflexivity.
Qed.

(** C2: when [closePeer] is called for the last remaining peer of a room,
    the room is absent from the registry afterwards; the peer's transports
    and the room's router have been closed, the event is emitted, and the
    other rooms are as before. *)
Theorem closePeer_last_peer s roomId peerId room peer :
  rooms s !! roomId = Some room ->
  peers room !! peerId = Some peer ->
  size (peers room) = 1%nat ->
  rooms (closePeer s roomId peerId) !! roomId = None
  /\ room_router room ∈ Engine.closed_routers (engine (closePeer s roomId peerId))
  /\ peer_transports peer ⊆ Engine.closed_transports (engine (closePeer s roomId peerId))
  /\ (forall r, r <> roomId -> rooms (closePeer s roomId peerId) !! r = rooms s !! r)
  /\ emitted (closePeer s roomId peerId) = peerClosed roomId peerId :: emitted s.
Proof.
  intros Hroom Hpeer Hsize.
  assert (Hempty : size (delete peerId (peers room)) = 0%nat).
  { rewrite map_size_delete_Some by eauto. lia. }
  split; [|split; [|split; [|split]]].
  - rewrite (closePeer_rooms s roomId peerId room peer Hroom Hpeer), Hempty.
    apply lookup_delete_eq.
  - unfold closePeer, _getPeer. rewrite Hroom, Hpeer.
    cbn [set_engine rooms]. rewrite Hroom, Hempty. cbn. set_solver.
  - unfold closePeer, _getPeer. rewrite Hroom, Hpeer.
    cbn [set_engine rooms]. rewrite Hroom, Hempty. cbn. set_solver.
  - intros r Hne. apply closePeer_other_room, Hne.
  - unfold closePeer, _getPeer. rewrite Hroom, Hpeer.
    cbn [set_engine rooms]. rewrite Hroom, Hempty. reflexivity.
Qed.

(** While another peer remains, the room stays registered, with the same
    router and without the closed peer. *)
Lemma closePeer_not_last s roomId peerId room peer :
  rooms s !! roomId = Some room ->
  peers room !! peerId = Some peer ->
  size (peers room) <> 1%nat ->
  rooms (closePeer s roomId peerId) !! roomId
  = Some {| room_id := room_id room; room_router := room_router room;
            peers := delete peerId (peers room) |}.
Proof.
  intros Hroom Hpeer Hsize.
  rewrite (closePeer_rooms s roomId peerId room peer Hroom Hpeer).
  assert (Hn : size (delete peerId (peers room)) <> 0%nat).
  { rewrite map_size_delete_Some by eauto.
    assert (size (peers room) <> 0%nat).
    { intros E. apply map_size_empty_inv in E. rewrite E in Hpeer.
      rewrite lookup_empty in Hpeer. discriminate. }
    lia. }
  destruct (Nat.eqb_spec (size (delete peerId (peers room))) 0); [contradiction|].
  apply lookup_insert_eq.
Qed.

(** X2: closing the peers of a room one after the other, in any order, with
    repeated or unknown ids in between, removes the room from the registry once
    all its peers are gone. *)
Lemma closePeers_all s roomId peerIds room :
  rooms s !! roomId = Some room ->
  peers room <> ∅ ->
  (forall k, is_Some (peers room !! k) -> k ∈ peerIds) ->
  rooms (closePeers s roomId peerIds) !! roomId = None.
Proof.
  revert s room. induction peerIds as [|k rest IH]; intros s room Hroom Hne Hall.
  - exfalso. apply Hne. apply map_empty. intros i.
    destruct (peers room !! i) eqn:E; [|reflexivity].
    assert (Hin : i ∈ @nil string) by (apply Hall; eauto).
    inversion Hin.
  - cbn [closePeers foldl]. fold (closePeers (closePeer s roomId k) roomId rest).
    destruct (peers room !! k) as [peer|] eqn:Hk.
    + destruct (decide (size (peers room) = 1%nat)) as [Hone|Hmore].
      * apply closePeers_absent.
        rewrite (closePeer_rooms s roomId k room peer Hroom Hk).
        rewrite map_size_delete_Some, Hone by eauto.
        apply lookup_delete_eq.
      * eapply IH.
        -- apply (closePeer_not_last s roomId k room peer Hroom Hk Hmore).
        -- cbn [peers]. intros E.
           apply (f_equal size) in E. rewrite map_size_delete_Some in E by eauto.
           rewrite map_size_empty in E.
           assert (size (peers room) <> 0%nat).
           { intros E0. apply map_size_empty_inv in E0. rewrite E0 in Hk.
             rewrite lookup_empty in Hk. discriminate. }
           lia.
        -- cbn [peers]. intros i [x Hi].
           apply lookup_delete_Some in Hi as [Hik Hi].
           assert (Hin : i ∈ k :: rest) by (apply Hall; eauto).
           apply elem_of_cons in Hin as [->|Hin]; [contradiction|exact Hin].
    + rewrite closePeer_unknown_peer by (unfold _getPeer; rewrite Hroom; exact Hk).
      eapply IH; [exact Hroom|exact Hne|].
      intros i Hi. assert (Hin : i ∈ k :: rest) by (apply Hall; exact Hi).
      apply elem_of_cons in Hin as [->|Hin]; [|exact Hin].
      rewrite Hk in Hi. destruct Hi as [x Hx]. discriminate.
Qed.

(** A server with two workers on which peer [p1] opened one transport in
    room [room-1]. *)
Example one_peer_room :
  let s := (createWebRtcTransport (started [101; 102]) "room-1" "p1" "t1").2 in
  rooms s !! "room-1"
  = Some {| room_id := "room-1"; room_router := 0%nat;
            peers := {[ "p1" := {| peer_id := "p1"; peer_transports := {[ "t1" ]};
                                   peer_producers := ∅; peer_consumers := ∅;
                                   peer_rtpCapabilities := None |} ]} |}.
Proof. vm_compute. reflexivity. Qed.

(** In the scenario where [p1] is the last peer of [room-1], closing it
    removes the room. *)
Lemma closePeer_last_peer_witness :
  size (peers {| room_id := "room-1"; room_router := 0%nat;
                 peers := {[ "p1" := {| peer_id := "p1"; peer_transports := {[ "t1" ]};
                                        peer_producers :=
                                          {[ "prod-1" := {| producer_id := "prod-1";
                                                            producer_kind := "video" |} ]};
                                        peer_consumers := ∅;
                                        peer_rtpCapabilities := None |} ]} |}) = 1%nat
  /\ rooms (closePeer Scenario.server_with_one_peer "room-1" "p1") !! "room-1" = None
  /\ 0%nat ∈ Engine.closed_routers
               (engine (closePeer Scenario.server_with_one_peer "room-1" "p1"))
  /\ "t1" ∈ Engine.closed_transports
              (engine (closePeer Scenario.server_with_one_peer "room-1" "p1")).
Proof.
  set (peer := {| peer_id := "p1"; peer_transports := {[ "t1" ]};
                  peer_producers := {[ "prod-1" := {| producer_id := "prod-1";
                                                      producer_kind := "video" |} ]};
                  peer_consumers := ∅; peer_rtpCapabilities := None |}).
  set (room := {| room_id := "room-1"; room_router := 0%nat;
                  peers := {[ "p1" := peer ]} |}).
  assert (Hroom : rooms Scenario.server_with_one_peer !! "room-1" = Some room)
    by (vm_compute; reflexivity).
  assert (Hpeer : peers room !! "p1" = Some peer) by (vm_compute; reflexivity).
  assert (Hsize : size (peers room) = 1%nat) by (vm_compute; reflexivity).
  destruct (closePeer_last_peer Scenario.server_with_one_peer "room-1" "p1" room peer
              Hroom Hpeer Hsize) as (Habsent & Hrouter & Htransports & _ & _).
  split; [exact Hsize|]. split; [exact Habsent|]. split; [exact Hrouter|].
  apply (Htransports "t1"). change ("t1" ∈ ({[ "t1" ]} : gset string)).
  apply elem_of_singleton_2. reflexivity.
Defined.

End PeerFacts.

(** ** Consumer creation *)

Section ConsumerFacts.

Variable canConsume : router -> string -> rtpCapabilities -> bool.

(** [getRouter] on a registered room returns its router and changes
    nothing. *)
Lemma getRouter_known (s : MediasoupServer.server) roomId room :
  MediasoupServer.rooms s !! roomId = Some room ->
  MediasoupServer.getRouter s roomId = (Ok (MediasoupServer.room_router room), s).
Proof.
  intros H. unfold MediasoupServer.getRouter, Async.sequential,
    MediasoupServer.getRouter_begin. rewrite H. reflexivity.
Qed.







End ConsumerFacts.

Section ConsumerScenario.

Import Scenario.

(** In the two-peer scenario [p2] asks for [p1]'s producer and the engine
    refuses. *)
Example createConsumer_refused :
  MediasoupServer.createConsumer never_compatible server_with_two_peers
    "room-1" "p2" "p1" "prod-1" "t2" "c-1"
  = (Throw IncompatibleCapabilities, server_with_two_peers).
Proof. vm_compute. reflexivity. Qed.

(** In the same scenario with an engine that accepts, the consumer is
    created and registered. *)
Example createConsumer_accepted :
  let '(r, s) := MediasoupServer.createConsumer always_compatible server_with_two_peers
                   "room-1" "p2" "p1" "prod-1" "t2" "c-1" in
  r = Ok {| MediasoupServer.consumer_id := "c-1";
            MediasoupServer.consumer_producerId := "prod-1" |}
  /\ MediasoupServer.consumers s !! "c-1"
     = Some {| MediasoupServer.consumer_id := "c-1";
               MediasoupServer.consumer_producerId := "prod-1" |}.
Proof. vm_compute. split; reflexivity. Qed.


End ConsumerScenario.

(** ** Room creation under interleaved calls *)

Section AsyncFacts.

Context {St Ret Pend : Type}.
Variable begin : St -> string -> (result Ret + Pend) * St.
Variable resume : St -> Pend -> result Ret * St.

Local Abbreviation sys := (@Async.sys St Ret Pend).
Local Abbreviation exec := (Async.exec begin resume).
Local Abbreviation run := (Async.run begin resume).


End AsyncFacts.

Section RoomCreation.

Local Abbreviation Call := Async.Call.
Local Abbreviation Settle := Async.Settle.

(** The two interleavings of the room manager, as systems of calls. *)
Local Abbreviation manager_run :=
  (Async.run RoomManager.getOrCreateRoom_begin RoomManager.getOrCreateRoom_resume).
Local Abbreviation server_run :=
  (Async.run MediasoupServer.getRouter_begin MediasoupServer.getRouter_resume).

(** Two calls for the same unknown room that are both under way before
    either resumes: each misses the registry, each gets a router of its own,
    they return different rooms, and the registry keeps the later one. *)
Example getOrCreateRoom_overlapping :
  let y := manager_run (Async.start (RoomManager.initialized [101]))
             [Call "room-1"; Call "room-1"; Settle 0%nat; Settle 1%nat] in
  length (Engine.routers_created (RoomManager.engine (Async.st y))) = 2%nat
  /\ Async.inflight y = ∅
  /\ (RoomManager.room_router <$> RoomManager.rooms (Async.st y) !! "room-1") = Some 1%nat
  /\ (exists r0 r1, Async.returned y !! 0%nat = Some (Ok r0)
                    /\ Async.returned y !! 1%nat = Some (Ok r1)
                    /\ RoomManager.room_router r0 = 0%nat
                    /\ RoomManager.room_router r1 = 1%nat).
Proof.
  vm_compute. split; [reflexivity|]. split; [reflexivity|]. split; [reflexivity|].
  eexists _, _. repeat split; reflexivity.
Qed.

Example getRouter_overlapping :
  let y := server_run (Async.start (MediasoupServer.started [101]))
             [Call "room-1"; Call "room-1"; Settle 0%nat; Settle 1%nat] in
  length (Engine.routers_created (MediasoupServer.engine (Async.st y))) = 2%nat
  /\ Async.returned y !! 0%nat = Some (Ok 0%nat)
  /\ Async.returned y !! 1%nat = Some (Ok 1%nat).
Proof. vm_compute. repeat split; reflexivity. Qed.






End RoomCreation.

(** ** Binary64 products of bitrates *)

Section Float64Facts.

Import Float64.

(** The shape of a rounded value: the quotient [q] of [p] by the unit in
    the last place, or its successor, times that unit. *)
Lemma round53_cases (p : Z) :
  let k := Z.log2 p + 1 - 53 in
  (k <= 0 /\ round53 p = p)
  \/ (0 < k
      /\ ((p mod 2 ^ k = 0 /\ round53 p = p)
          \/ (0 < p mod 2 ^ k /\ (round53 p = p / 2 ^ k * 2 ^ k
                                  \/ round53 p = (p / 2 ^ k + 1) * 2 ^ k)))).
Proof.
  intros k. unfold round53. fold k.
  destruct (Z.leb_spec k 0) as [Hk|Hk]; [left; split; [exact Hk|reflexivity]|].
  right. split; [exact Hk|].
  assert (Hpow : 0 < 2 ^ k) by (apply Z.pow_pos_nonneg; lia).
  assert (Hh : 0 < 2 ^ (k - 1)) by (apply Z.pow_pos_nonneg; lia).
  pose proof (Z.mod_pos_bound p (2 ^ k) Hpow) as Hr.
  pose proof (Z.div_mod p (2 ^ k) ltac:(lia)) as Hdm.
  destruct (Z.eq_dec (p mod 2 ^ k) 0) as [Hz|Hnz].
  - left. split; [exact Hz|]. rewrite Hz.
    destruct (Z.ltb_spec (2 ^ (k - 1)) 0) as [?|_]; [lia|].
    destruct (Z.eqb_spec 0 (2 ^ (k - 1))) as [?|_]; [lia|].
    cbn [orb andb]. lia.
  - right. split; [lia|].
    destruct ((2 ^ (k - 1) <? p mod 2 ^ k)
              || (p mod 2 ^ k =? 2 ^ (k - 1)) && Z.odd (p / 2 ^ k)); [right|left]; reflexivity.
Qed.

(** The position of the leading bit, when rounding takes place. *)
Lemma round53_leading (p : Z) :
  0 < Z.log2 p + 1 - 53 ->
  2 ^ 52 * 2 ^ (Z.log2 p + 1 - 53) <= p.
Proof.
  intros Hk. assert (Hp : 0 < p).
  { destruct (Z.ltb_spec 0 p) as [H|H]; [exact H|].
    rewrite Z.log2_nonpos in Hk by exact H. lia. }
  rewrite <- Z.pow_add_r by lia.
  replace (52 + (Z.log2 p + 1 - 53)) with (Z.log2 p) by lia.
  apply Z.log2_spec, Hp.
Qed.

(** An integer multiple [n * 2^e] of a power of two, with [n] below [2^53],
    is a binary64 value: rounding never crosses it. *)
Lemma round53_lower (n e p : Z) :
  0 <= n < 2 ^ 53 -> 0 <= e -> n * 2 ^ e <= p -> n * 2 ^ e <= round53 p.
Proof.
  intros Hn He Hle.
  destruct (round53_cases p) as [[_ ->]|[Hk Hcase]]; [exact Hle|].
  set (k := Z.log2 p + 1 - 53) in *.
  assert (Hpow : 0 < 2 ^ k) by (apply Z.pow_pos_nonneg; lia).
  pose proof (Z.mod_pos_bound p (2 ^ k) Hpow) as Hr.
  pose proof (Z.div_mod p (2 ^ k) ltac:(lia)) as Hdm.
  assert (Hq : n * 2 ^ e <= p / 2 ^ k * 2 ^ k).
  { destruct (Z.le_gt_cases k e) as [Hke|Hke].
    - replace e with ((e - k) + k) by lia.
      rewrite Z.pow_add_r by lia.
      assert (0 <= 2 ^ (e - k)) by (apply Z.pow_nonneg; lia).
      replace e with ((e - k) + k) in Hle by lia.
      rewrite Z.pow_add_r in Hle by lia.
      assert (n * 2 ^ (e - k) <= p / 2 ^ k) by nia.
      nia.
    - pose proof (round53_leading p Hk) as Hlead. fold k in Hlead.
      assert (H52 : 2 ^ 52 <= p / 2 ^ k) by (apply Z.div_le_lower_bound; lia).
      assert (He1 : 2 ^ (e + 1) <= 2 ^ k) by (apply Z.pow_le_mono_r; lia).
      rewrite Z.pow_add_r in He1 by lia.
      assert (0 < 2 ^ e) by (apply Z.pow_pos_nonneg; lia).
      change (2 ^ 1) with 2 in He1. change (2 ^ 53) with (2 * 2 ^ 52) in Hn.
      assert (n * 2 ^ e <= 2 ^ 52 * (2 ^ e * 2)) by nia.
      nia. }
  destruct Hcase as [[_ ->]|[_ [->| ->]]]; [exact Hle|exact Hq|nia].
Qed.

Lemma round53_upper (n e p : Z) :
  0 <= n < 2 ^ 53 -> 0 <= e -> p <= n * 2 ^ e -> round53 p <= n * 2 ^ e.
Proof.
  intros Hn He Hle.
  destruct (round53_cases p) as [[_ ->]|[Hk Hcase]]; [exact Hle|].
  set (k := Z.log2 p + 1 - 53) in *.
  assert (Hpow : 0 < 2 ^ k) by (apply Z.pow_pos_nonneg; lia).
  pose proof (Z.mod_pos_bound p (2 ^ k) Hpow) as Hr.
  pose proof (Z.div_mod p (2 ^ k) ltac:(lia)) as Hdm.
  destruct Hcase as [[_ ->]|[Hpos Hcase]]; [exact Hle|].
  assert (Hq : (p / 2 ^ k + 1) * 2 ^ k <= n * 2 ^ e).
  { destruct (Z.le_gt_cases k e) as [Hke|Hke].
    - replace e with ((e - k) + k) by lia.
      rewrite Z.pow_add_r by lia.
      assert (0 <= 2 ^ (e - k)) by (apply Z.pow_nonneg; lia).
      replace e with ((e - k) + k) in Hle by lia.
      rewrite Z.pow_add_r in Hle by lia.
      assert (p / 2 ^ k < n * 2 ^ (e - k)) by nia.
      nia.
    - exfalso.
      pose proof (round53_leading p Hk) as Hlead. fold k in Hlead.
      assert (He1 : 2 ^ (e + 1) <= 2 ^ k) by (apply Z.pow_le_mono_r; lia).
      rewrite Z.pow_add_r in He1 by lia.
      assert (0 < 2 ^ e) by (apply Z.pow_pos_nonneg; lia).
      change (2 ^ 1) with 2 in He1. change (2 ^ 53) with (2 * 2 ^ 52) in Hn.
      assert (n * 2 ^ e < 2 ^ 52 * (2 ^ e * 2)) by nia.
      nia. }
  destruct Hcase as [-> | ->]; [nia|exact Hq].
Qed.

Lemma round53_exact (p : Z) : p < 2 ^ 53 -> round53 p = p.
Proof.
  intros Hp. destruct (round53_cases p) as [[_ H]|[Hk _]]; [exact H|].
  exfalso. assert (0 < p).
  { destruct (Z.ltb_spec 0 p) as [H|H]; [exact H|].
    rewrite Z.log2_nonpos in Hk by exact H. lia. }
  assert (Z.log2 p < 53) by (apply Z.log2_lt_pow2; lia). lia.
Qed.

(** Multiplying by a factor of at least one does not lower a bitrate, and by
    a factor of at most one does not raise it. *)
Lemma floor_mul_ge (n : Z) (f : dyadic) :
  at_least_one f -> 0 <= n < max_exact -> n <= floor_mul n f.
Proof.
  intros [Hs Hf] Hn. unfold floor_mul, max_exact in *.
  assert (Hpow : 0 < 2 ^ scale f) by (apply Z.pow_pos_nonneg; lia).
  apply Z.div_le_lower_bound; [exact Hpow|].
  rewrite (Z.mul_comm (2 ^ scale f) n). apply round53_lower; [exact Hn|exact Hs|nia].
Qed.

Lemma floor_mul_le (n : Z) (f : dyadic) :
  at_most_one f -> 0 <= n < max_exact -> floor_mul n f <= n.
Proof.
  intros [Hs Hf] Hn. unfold floor_mul, max_exact in *.
  assert (Hpow : 0 < 2 ^ scale f) by (apply Z.pow_pos_nonneg; lia).
  apply Z.div_le_upper_bound; [exact Hpow|].
  rewrite (Z.mul_comm (2 ^ scale f) n). apply round53_upper; [exact Hn|exact Hs|nia].
Qed.

(** When the exact product fits 53 bits, nothing is rounded. *)
Lemma floor_mul_exact (n : Z) (f : dyadic) :
  n * num f < max_exact -> floor_mul n f = n * num f / 2 ^ scale f.
Proof. intros H. unfold floor_mul. rewrite round53_exact by exact H. reflexivity. Qed.

End Float64Facts.

(** ** The adaptive bitrate loop *)

Section MonitorFacts.

Import Float64 NetworkMonitor.

Implicit Types (cfg : config) (m : monitor).

(** The constants of the model are the binary64 values of the literals
    [0.75] and [1.15] of [config.js]. *)
Example factors_are_the_literals :
  PrimFloat.eqb (to_float (decreaseFactor default_config)) 0.75%float = true
  /\ PrimFloat.eqb (to_float (increaseFactor default_config))
                   0x1.2666666666666p+0%float = true.
Proof. split; vm_compute; reflexivity. Qed.

(** [Math.floor(100 * 1.15)] is 114: the product rounds to
    114.99999999999999. *)
Example floor_mul_rounds_as_binary64 :
  floor_mul 100 (increaseFactor default_config) = 114
  /\ PrimFloat.ltb (PrimFloat.mul 100%float 0x1.2666666666666p+0%float) 115%float = true
  /\ PrimFloat.leb 114%float (PrimFloat.mul 100%float 0x1.2666666666666p+0%float) = true.
Proof. repeat split; vm_compute; reflexivity. Qed.

Lemma default_config_well_formed : well_formed default_config.
Proof.
  unfold well_formed, at_most_one, at_least_one, max_exact. cbn.
  repeat split; try lia; vm_compute; congruence.
Qed.

(** The decrease stays within the bounds when the current bitrate does. *)
Lemma decreased_within cfg (b : Z) :
  well_formed cfg -> within cfg b -> within cfg (decreased cfg b).
Proof.
  intros (Hmin & Hle & Hmax & Hdec & _) [Hlo Hhi]. unfold within, decreased in *.
  pose proof (floor_mul_le b (decreaseFactor cfg) Hdec ltac:(lia)). lia.
Qed.

(** The increase stays within the bounds when the current bitrate does. *)
Lemma increased_within cfg (b : Z) :
  well_formed cfg -> within cfg b -> within cfg (increased cfg b).
Proof.
  intros (Hmin & Hle & Hmax & _ & Hinc) [Hlo Hhi]. unfold within, increased in *.
  pose proof (floor_mul_ge b (increaseFactor cfg) Hinc ltac:(lia)). lia.
Qed.

Lemma adjust_bounded cfg m stats now b :
  bounded cfg m -> within cfg b -> bounded cfg (adjust m stats now b).
Proof.
  intros [_ Happ] Hb. split; cbn [adjust maxOutgoingBitrate applied];
    [exact Hb|constructor; assumption].
Qed.

Lemma tick_bounded cfg m now stats :
  well_formed cfg -> bounded cfg m -> bounded cfg (tick cfg m now stats).
Proof.
  intros Hcfg Hm. pose proof Hm as [Hbit Happ]. unfold tick.
  destruct (negb (running m)); [exact Hm|].
  destruct (transport_closed m); [exact Hm|].
  destruct (lastStats m) as [last|]; [|exact Hm].
  destruct (videoRtt stats) as [c|]; [|exact Hm].
  destruct (videoRtt last) as [l|]; [|exact Hm].
  destruct (falsy (Some c) || falsy (Some l)); [exact Hm|].
  destruct (now - lastAdjustmentTime m <? adjustmentThrottleMs cfg); [exact Hm|].
  destruct (congested cfg c l).
  - apply adjust_bounded; [exact Hm|apply decreased_within; assumption].
  - destruct (calm cfg c); [|exact Hm].
    destruct (stableNetworkThreshold cfg <=? stableNetworkCount m + 1); [|exact Hm].
    apply adjust_bounded; [exact Hm|apply increased_within; assumption].
Qed.

Lemma run_bounded cfg (inputs : list input) :
  well_formed cfg -> forall m, bounded cfg m -> bounded cfg (run cfg m inputs).
Proof.
  intros Hcfg. induction inputs as [|i rest IH]; intros m Hm; [exact Hm|].
  unfold run. cbn [foldl]. apply IH.
  destruct i as [now stats|]; [apply tick_bounded; assumption|exact Hm].
Qed.

(** C4 as stated fails: a transport created with the default initial
    bitrate under a lowered cap gets, at the first congestion, a bitrate above
    the cap; the decrease is clamped from below only. *)
Lemma bitrate_bounds_counterexample :
  ~ (forall cfg (now bitrate : Z) (inputs : list input),
        Forall (within cfg) (applied (run cfg (setup now bitrate) inputs))).
Proof.
  intros H.
  specialize (H Scenario.lowered_cap 0 Scenario.initialAvailableOutgoingBitrate
                Scenario.congestion).
  assert (E : applied (run Scenario.lowered_cap
                         (setup 0 Scenario.initialAvailableOutgoingBitrate)
                         Scenario.congestion) = [1500000])
    by (vm_compute; reflexivity).
  rewrite E in H. apply Forall_cons in H as [[_ Hhi] _].
  vm_compute in Hhi. apply Hhi. reflexivity.
Qed.

(** The increase is clamped from above only: on a transport whose bitrate
    reads as zero, a quiet network makes the loop apply zero. *)
Example bitrate_below_minimum :
  applied (run default_config (setup 0 0)
             [Fire 2000 (Scenario.video_stats 40); Fire 6000 (Scenario.video_stats 40);
              Fire 8000 (Scenario.video_stats 40); Fire 10000 (Scenario.video_stats 40);
              Fire 12000 (Scenario.video_stats 40); Fire 14000 (Scenario.video_stats 40)])
  = [0].
Proof. vm_compute. reflexivity. Qed.

(** C4, amended: under a configuration with ordered, non-negative bounds
    below [2^53], a decrease factor at most one and an increase factor at least
    one, on a transport whose bitrate (read by [getMaxOutgoingBitrate], written
    only by the loop) starts within the bounds, every bitrate the loop applies,
    however long the run and whatever the samples, lies within
    [minimumAvailableOutgoingBitrate, maximumAvailableOutgoingBitrate]. *)
Theorem bitrate_within_bounds cfg m (inputs : list input) :
  well_formed cfg ->
  within cfg (maxOutgoingBitrate m) ->
  Forall (within cfg) (applied m) ->
  Forall (within cfg) (applied (run cfg m inputs))
  /\ within cfg (maxOutgoingBitrate (run cfg m inputs)).
Proof.
  intros Hcfg Hbit Happ.
  destruct (run_bounded cfg inputs Hcfg m (conj Hbit Happ)) as [H1 H2].
  split; assumption.
Qed.

(** The default configuration, the default initial bitrate, a congestion
    followed by a quiet period: the loop applies 1500000, then 1724999. *)
Example bitrate_run :
  applied (run default_config (setup 0 Scenario.initialAvailableOutgoingBitrate)
             Scenario.congestion_then_calm)
  = [1724999; 1500000].
Proof. vm_compute. reflexivity. Qed.

Lemma bitrate_within_bounds_witness :
  well_formed default_config
  /\ within default_config Scenario.initialAvailableOutgoingBitrate
  /\ Forall (within default_config) [1724999; 1500000].
Proof.
  assert (Hbit : within default_config Scenario.initialAvailableOutgoingBitrate).
  { split; vm_compute; congruence. }
  split; [exact default_config_well_formed|]. split; [exact Hbit|].
  rewrite <- bitrate_run.
  exact (proj1 (bitrate_within_bounds default_config
                  (setup 0 Scenario.initialAvailableOutgoingBitrate)
                  Scenario.congestion_then_calm
                  default_config_well_formed Hbit (Forall_nil_2 _))).
Defined.

(** The floor of an exact product, as a rational computation. *)
Lemma floor_mul_Qfloor (n : Z) (f : dyadic) :
  0 <= scale f -> n * num f < max_exact ->
  floor_mul n f = Qfloor (inject_Z n * to_Q f).
Proof.
  intros Hs Hp. rewrite floor_mul_exact by exact Hp.
  assert (Hpow : 0 < 2 ^ scale f) by (apply Z.pow_pos_nonneg; lia).
  unfold to_Q, inject_Z, Qmult, Qfloor. cbn [Qnum Qden].
  change (1 * Z.to_pos (2 ^ scale f))%positive with (Z.to_pos (2 ^ scale f)).
  rewrite Z2Pos.id by exact Hpow. reflexivity.
Qed.

(** C5 as stated fails in two ways.  The value applied is the floor of the
    product, not the product: from 1000001 the loop applies 750000, not
    750000.75.  And a previous round-trip time of zero is taken for a missing
    sample: the cycle returns before any comparison. *)
Lemma congestion_step_counterexample :
  ~ (forall cfg m (now : Z) (stats last : list stat) (c l : float),
        running m = true ->
        transport_closed m = false ->
        lastStats m = Some last ->
        videoRtt stats = Some c ->
        videoRtt last = Some l ->
        adjustmentThrottleMs cfg <= now - lastAdjustmentTime m ->
        congested cfg c l = true ->
        exists v,
          applied (tick cfg m now stats) = v :: applied m
          /\ Qeq (inject_Z v) (spec_decreased cfg (maxOutgoingBitrate m))
          /\ stableNetworkCount (tick cfg m now stats) = 0)
  /\ (congested default_config 200 0 = true
      /\ tick default_config (Scenario.after_first_sample 2000000 0) 6000
              (Scenario.video_stats 200)
         = Scenario.after_first_sample 2000000 0).
Proof.
  split.
  - intros H.
    destruct (H default_config (Scenario.after_first_sample 1000001 100) 6000
                (Scenario.video_stats 200) (Scenario.video_stats 100) 200%float 100%float)
      as (v & Hv & Hq & _); try reflexivity.
    + vm_compute. discriminate.
    + vm_compute in Hv. injection Hv as <-.
      vm_compute in Hq. discriminate Hq.
  - split; vm_compute; reflexivity.
Qed.

(** C5, amended: in a cycle with a stored sample, both round-trip times
    present and neither zero nor [NaN], the throttle window elapsed, and
    [currentRtt > previousRtt * sensitivityFactor] and
    [currentRtt > minRtt * 1.5], the loop applies
    [max(minBitrate, floor(currentBitrate * decreaseFactor))] at once, records
    the time of the change and the sample, and resets the stability counter to
    zero; the floor is that of the exact product whenever the product is below
    [2^53]. *)
Theorem congestion_step cfg m (now : Z) (stats last : list stat) (c l : float) :
  running m = true ->
  transport_closed m = false ->
  lastStats m = Some last ->
  videoRtt stats = Some c ->
  videoRtt last = Some l ->
  falsy (Some c) = false ->
  falsy (Some l) = false ->
  adjustmentThrottleMs cfg <= now - lastAdjustmentTime m ->
  congested cfg c l = true ->
  applied (tick cfg m now stats)
  = Z.max (minimumAvailableOutgoingBitrate cfg)
          (floor_mul (maxOutgoingBitrate m) (decreaseFactor cfg)) :: applied m
  /\ maxOutgoingBitrate (tick cfg m now stats)
     = Z.max (minimumAvailableOutgoingBitrate cfg)
             (floor_mul (maxOutgoingBitrate m) (decreaseFactor cfg))
  /\ stableNetworkCount (tick cfg m now stats) = 0
  /\ lastAdjustmentTime (tick cfg m now stats) = now
  /\ lastStats (tick cfg m now stats) = Some stats
  /\ (0 <= scale (decreaseFactor cfg) ->
      maxOutgoingBitrate m * num (decreaseFactor cfg) < max_exact ->
      floor_mul (maxOutgoingBitrate m) (decreaseFactor cfg)
      = Qfloor (inject_Z (maxOutgoingBitrate m) * to_Q (decreaseFactor cfg))).
Proof.
  intros Hrun Hopen Hlast Hc Hl Hfc Hfl Hthrottle Hcong.
  assert (Htick : tick cfg m now stats
                  = adjust m stats now (decreased cfg (maxOutgoingBitrate m))).
  { unfold tick. rewrite Hrun, Hopen, Hlast, Hc, Hl, Hfc, Hfl, Hcong. cbn [negb orb].
    destruct (Z.ltb_spec (now - lastAdjustmentTime m) (adjustmentThrottleMs cfg));
      [lia|reflexivity]. }
  rewrite Htick. unfold decreased. cbn [adjust applied maxOutgoingBitrate
    stableNetworkCount lastAdjustmentTime lastStats].
  repeat split. apply floor_mul_Qfloor.
Qed.

(** The default configuration, a bitrate of 2000000, a round-trip time that
    went from 100 to 200: the loop applies 1500000. *)
Lemma congestion_step_witness :
  congested default_config 200 100 = true
  /\ falsy (Some 100%float) = false
  /\ applied (tick default_config (Scenario.after_first_sample 2000000 100) 6000
                   (Scenario.video_stats 200))
     = [1500000]
  /\ stableNetworkCount (tick default_config (Scenario.after_first_sample 2000000 100) 6000
                              (Scenario.video_stats 200)) = 0.
Proof.
  assert (Hcong : congested default_config 200 100 = true) by (vm_compute; reflexivity).
  assert (Hfl : falsy (Some 100%float) = false) by (vm_compute; reflexivity).
  assert (Hfc : falsy (Some 200%float) = false) by (vm_compute; reflexivity).
  assert (Hthrottle : adjustmentThrottleMs default_config
                      <= 6000 - lastAdjustmentTime (Scenario.after_first_sample 2000000 100))
    by (vm_compute; discriminate).
  destruct (congestion_step default_config (Scenario.after_first_sample 2000000 100) 6000
              (Scenario.video_stats 200) (Scenario.video_stats 100) 200%float 100%float
              eq_refl eq_refl eq_refl eq_refl eq_refl Hfc Hfl Hthrottle Hcong)
    as (Happ & _ & Hcount & _).
  split; [exact Hcong|]. split; [exact Hfl|]. split; [|exact Hcount].
  rewrite Happ. vm_compute. reflexivity.
Defined.

End MonitorFacts.

(** ** HLS supervision *)

Section SupervisorFacts.

Import HlsConverterService Scenario.

Variable cfg : config.
Variable survives : nat -> bool.

Implicit Types (s : service) (conv : conversion).

Local Abbreviation startConversion := (HlsConverterService.startConversion cfg survives).
Local Abbreviation run := (HlsConverterService.run cfg survives).
Local Abbreviation advance := (HlsConverterService.advance survives).
Local Abbreviation onTimer := (HlsConverterService.onTimer survives).
Local Abbreviation _restartFFmpeg := (HlsConverterService._restartFFmpeg survives).

(** A start that finds the conversion registered returns it and changes
    nothing: no directory, no transport, no process. *)
Lemma startConversion_registered s roomId r p t ssrc c :
  conversions s !! conversionId roomId (producer_id p) = Some c ->
  startConversion s roomId r p t ssrc = (Ok c, s).
Proof. intros H. unfold HlsConverterService.startConversion. rewrite H. reflexivity. Qed.

(** A start that succeeds leaves the conversion it returns registered under
    the id of the pair. *)
Lemma startConversion_registers s roomId r p t ssrc c s' :
  startConversion s roomId r p t ssrc = (Ok c, s') ->
  conversions s' !! conversionId roomId (producer_id p) = Some c.
Proof.
  unfold HlsConverterService.startConversion.
  destruct (conversions s !! conversionId roomId (producer_id p)) as [c0|] eqn:E.
  - intros H. injection H as <- <-. exact E.
  - unfold _spawnFfmpeg. destruct (survives (length (processes s))); [|discriminate].
    intros H. injection H as <- <-. cbn. apply lookup_insert_eq.
Qed.

(** The fields that identify a conversion are those [startConversion]
    computes from the pair. *)
Lemma startConversion_identity s roomId r p t ssrc c s' :
  conversions s !! conversionId roomId (producer_id p) = None ->
  startConversion s roomId r p t ssrc = (Ok c, s') ->
  exists conv,
    objects s' !! c = Some conv
    /\ id conv = conversionId roomId (producer_id p)
    /\ outputDir conv = path_join3 (hls_outputPath cfg) roomId (producer_id p)
    /\ hlsUrl conv = playlistUrl cfg roomId (producer_id p)
    /\ processes s' = processes s ++ [{| proc_roomId := roomId; proc_rtpPort := ssrc;
                                        proc_rtpHost := "127.0.0.1";
                                        proc_mediaKind := producer_kind p;
                                        proc_outputDir := outputDir conv |}].
Proof.
  intros Hnew. unfold HlsConverterService.startConversion. rewrite Hnew.
  unfold _spawnFfmpeg. destruct (survives (length (processes s))); [|discriminate].
  intros H. injection H as <- <-. cbn.
  eexists. split; [apply list_lookup_middle; reflexivity|]. cbn. repeat split.
Qed.

(** What a relaunch does: one more process, with the room, port, kind and
    output directory of the conversion; the conversion keeps every field but
    the process. *)
Lemma restart_spawns s c conv :
  objects s !! c = Some conv ->
  processes (_restartFFmpeg s c)
  = processes s ++ [{| proc_roomId := roomId conv;
                       proc_rtpPort := consumer_ssrc (consumer conv);
                       proc_rtpHost := "127.0.0.1";
                       proc_mediaKind := consumer_kind (consumer conv);
                       proc_outputDir := outputDir conv |}]
  /\ conversions (_restartFFmpeg s c) = conversions s
  /\ (exists conv',
        objects (_restartFFmpeg s c) !! c = Some conv'
        /\ id conv' = id conv /\ roomId conv' = roomId conv
        /\ producerId conv' = producerId conv /\ outputDir conv' = outputDir conv
        /\ hlsUrl conv' = hlsUrl conv /\ transport conv' = transport conv
        /\ consumer conv' = consumer conv /\ startedAt conv' = startedAt conv
        /\ (survives (length (processes s)) = true ->
            ffmpegProcess conv' = length (processes s))).
Proof.
  intros Hc. unfold HlsConverterService._restartFFmpeg. rewrite Hc.
  unfold _spawnFfmpeg. cbn [kill processes].
  destruct (survives (length (processes s))) eqn:Hs; cbn.
  - split; [reflexivity|]. split; [reflexivity|].
    eexists. split; [apply list_lookup_insert_eq; eapply lookup_lt_Some; exact Hc|].
    cbn. repeat split.
  - split; [reflexivity|]. split; [reflexivity|].
    exists conv. split; [exact Hc|]. repeat split. discriminate.
Qed.

(** The timer the ['exit'] handler sets on a failure. *)
Lemma onExit_sets_timer s pid code c :
  on_exit s !! pid = Some c ->
  code <> Some 0 ->
  _closed s = false ->
  onExit s pid code
  = {| conversions := conversions s; objects := objects s; _closed := _closed s;
       processes := processes s; killed := killed s;
       on_exit := delete pid (on_exit s);
       timers := timers s ++ [(now s + restartDelay, c)];
       closed_transports := closed_transports s; now := now s |}.
Proof.
  intros Hh Hcode Hopen. unfold onExit. rewrite Hh, Hopen.
  rewrite bool_decide_eq_false_2 by exact Hcode. reflexivity.
Qed.

(** A clean exit sets no timer. *)
Lemma onExit_clean s pid :
  timers (onExit s pid (Some 0)) = timers s.
Proof.
  unfold onExit. destruct (on_exit s !! pid); [|reflexivity].
  rewrite bool_decide_eq_true_2 by reflexivity. reflexivity.
Qed.

(** Before the timer is due nothing is relaunched. *)
Lemma advance_before_due s due c dt :
  timers s = [(due, c)] ->
  now s + dt < due ->
  processes (advance s dt) = processes s
  /\ objects (advance s dt) = objects s
  /\ timers (advance s dt) = [(due, c)].
Proof.
  intros Ht Hlt. unfold HlsConverterService.advance. rewrite Ht.
  rewrite !filter_cons, !filter_nil. cbn [fst].
  rewrite (decide_False (P := due <= now s + dt)) by lia.
  rewrite (decide_True (P := ~ due <= now s + dt)) by lia.
  cbn. repeat split.
Qed.

(** When the timer is due, the body of the timer runs. *)
Lemma advance_at_due s due c dt :
  timers s = [(due, c)] ->
  due <= now s + dt ->
  advance s dt
  = onTimer {| conversions := conversions s; objects := objects s; _closed := _closed s;
               processes := processes s; killed := killed s; on_exit := on_exit s;
               timers := []; closed_transports := closed_transports s;
               now := now s + dt |} c.
Proof.
  intros Ht Hle. unfold HlsConverterService.advance. rewrite Ht.
  rewrite !filter_cons, !filter_nil. cbn [fst].
  rewrite (decide_True (P := due <= now s + dt)) by lia.
  rewrite (decide_False (P := ~ due <= now s + dt)) by lia.
  reflexivity.
Qed.

(** X3: the encoder of a registered conversion fails while the service is
    open: after the fixed delay of ten seconds, and not before, it is launched
    again for the same room, port, kind and output directory, and the
    conversion keeps its id, directory, URL, transport and consumer. *)
Lemma relaunch_after_backoff s pid code c conv :
  on_exit s !! pid = Some c ->
  objects s !! c = Some conv ->
  is_Some (conversions s !! id conv) ->
  _closed s = false ->
  code <> Some 0 ->
  timers s = [] ->
  (forall dt, 0 <= dt < restartDelay ->
     processes (run s [Exit pid code; Advance dt]) = processes s)
  /\ processes (run s [Exit pid code; Advance restartDelay])
     = processes s ++ [{| proc_roomId := roomId conv;
                          proc_rtpPort := consumer_ssrc (consumer conv);
                          proc_rtpHost := "127.0.0.1";
                          proc_mediaKind := consumer_kind (consumer conv);
                          proc_outputDir := outputDir conv |}]
  /\ conversions (run s [Exit pid code; Advance restartDelay]) = conversions s
  /\ (exists conv',
        objects (run s [Exit pid code; Advance restartDelay]) !! c = Some conv'
        /\ id conv' = id conv /\ outputDir conv' = outputDir conv
        /\ hlsUrl conv' = hlsUrl conv /\ transport conv' = transport conv
        /\ consumer conv' = consumer conv).
Proof.
  intros Hh Hc Hreg Hopen Hcode Ht.
  unfold HlsConverterService.run. cbn [foldl exec].
  rewrite (onExit_sets_timer s pid code c Hh Hcode Hopen), Ht. cbn [app].
  split.
  - intros dt Hdt.
    match goal with |- processes (HlsConverterService.advance _ ?s1 dt) = _ =>
      destruct (advance_before_due s1 (now s + restartDelay) c dt eq_refl) as (H & _)
    end; [cbn [now]; lia|exact H].
  - match goal with |- context [HlsConverterService.advance _ ?s1 restartDelay] =>
      rewrite (advance_at_due s1 (now s + restartDelay) c restartDelay eq_refl)
        by (cbn [now]; lia)
    end.
    cbn [conversions objects _closed processes killed on_exit timers closed_transports now].
    unfold HlsConverterService.onTimer. cbn [objects conversions _closed]. rewrite Hc, Hopen.
    rewrite bool_decide_eq_true_2 by exact Hreg. cbn [andb negb].
    match goal with |- context [HlsConverterService._restartFFmpeg _ ?s1 c] =>
      destruct (restart_spawns s1 c conv Hc)
        as (Hp & Hconvs & conv' & Hobj & Hid & _ & _ & Hdir & Hurl & Htr & Hcons & _)
    end.
    split; [exact Hp|]. split; [exact Hconvs|].
    exists conv'. repeat split; assumption.
Qed.

(** X4: a conversion whose encoder failed and which is stopped before the
    restart timer fires, and not started again, is not relaunched: the timer
    finds the id unregistered and launches nothing. *)
Lemma no_relaunch_after_stop s pid code c conv :
  on_exit s !! pid = Some c ->
  objects s !! c = Some conv ->
  conversions s !! id conv = Some c ->
  id conv = conversionId (roomId conv) (producerId conv) ->
  _closed s = false ->
  code <> Some 0 ->
  timers s = [] ->
  processes (run s [Exit pid code; Stop (roomId conv) (producerId conv);
                    Advance restartDelay]) = processes s
  /\ conversions (run s [Exit pid code; Stop (roomId conv) (producerId conv);
                         Advance restartDelay]) !! id conv = None.
Proof.
  intros Hh Hc Hreg Hid Hopen Hcode Ht.
  unfold HlsConverterService.run. cbn [foldl exec].
  rewrite (onExit_sets_timer s pid code c Hh Hcode Hopen), Ht. cbn [app].
  unfold stopConversion. cbn [conversions objects].
  rewrite <- Hid, Hreg, Hc.
  match goal with |- context [HlsConverterService.advance _ ?s1 restartDelay] =>
    rewrite (advance_at_due s1 (now s + restartDelay) c restartDelay eq_refl)
      by (cbn [now]; lia)
  end.
  unfold HlsConverterService.onTimer. cbn [objects conversions _closed]. rewrite Hc.
  rewrite lookup_delete_eq.
  rewrite bool_decide_eq_false_2 by (intros [x Hx]; discriminate Hx).
  cbn [andb processes conversions]. split; [reflexivity|apply lookup_delete_eq].
Qed.

(** C6: a start that returned a conversion, called again for the same room
    and producer with no stop in between, returns the same conversion object
    and leaves the service as it is, so no second encoder is spawned, whatever
    the engine would have answered; and [addProducer] of [converter.js] does
    the same with its [producerInfo]. *)
Theorem startConversion_idempotent :
  (forall s roomId r p t ssrc c s',
      startConversion s roomId r p t ssrc = (Ok c, s') ->
      forall r' p' t' ssrc',
        producer_id p' = producer_id p ->
        startConversion s' roomId r' p' t' ssrc' = (Ok c, s'))
  /\ (forall domain baseUrl outputPath (s : Converter.state) p roomId secureId draw info
            (s' : Converter.state),
         Converter.addProducer domain baseUrl outputPath s p roomId secureId draw
         = (Ok info, s') ->
         forall secureId' draw',
           Converter.addProducer domain baseUrl outputPath s' p roomId secureId' draw'
           = (Ok info, s')).
Proof.
  split.
  - intros s roomId r p t ssrc c s' H r' p' t' ssrc' Hp.
    apply startConversion_registered. rewrite Hp.
    exact (startConversion_registers s roomId r p t ssrc c s' H).
  - intros domain baseUrl outputPath s p roomId secureId draw info s' H secureId' draw'.
    unfold Converter.addProducer in *.
    destruct (String.eqb (Converter.producer_id p) "" || String.eqb roomId "");
      [discriminate H|].
    destruct (negb (String.eqb (Converter.sanitize roomId) roomId)); [discriminate H|].
    assert (Hreg : Converter.producers s' !! Converter.producer_id p = Some info).
    { destruct (Converter.producers s !! Converter.producer_id p) as [i0|] eqn:E.
      - injection H as <- <-. exact E.
      - destruct (negb (String.eqb (Converter.producer_kind p) "video")).
        + injection H as <- <-. cbn. apply lookup_insert_eq.
        + destruct (Converter.allocateRtpPort draw (Converter.usedPorts s)) as [[port|e] u];
            [|discriminate H].
          injection H as <- <-. cbn. apply lookup_insert_eq. }
    rewrite Hreg. reflexivity.
Qed.

End SupervisorFacts.

Section SupervisorScenario.

Import HlsConverterService Scenario.

(** One start on a fresh service. *)
Example first_start :
  startConversion hls_config always_survives initial "room-1" 0%nat video_producer
    "plain-1" 5004
  = (Ok 0%nat, first_conversion)
  /\ length (processes first_conversion) = 1%nat.
Proof. split; reflexivity. Qed.

Lemma startConversion_idempotent_witness :
  startConversion hls_config always_survives first_conversion "room-1" 0%nat video_producer
    "plain-2" 5006
  = (Ok 0%nat, first_conversion)
  /\ Converter.addProducer None "http://localhost:3000/hls" "public/hls"
       (Converter.addProducer None "http://localhost:3000/hls" "public/hls"
          converter_empty {| Converter.producer_id := "prod-1";
                             Converter.producer_kind := "video" |}
          "room-1" "a1b2" (fun _ => 0)).2
       {| Converter.producer_id := "prod-1"; Converter.producer_kind := "video" |}
       "room-1" "c3d4" (fun _ => 2)
     = Converter.addProducer None "http://localhost:3000/hls" "public/hls"
         converter_empty {| Converter.producer_id := "prod-1";
                            Converter.producer_kind := "video" |}
         "room-1" "a1b2" (fun _ => 0).
Proof.
  split.
  - exact (proj1 (startConversion_idempotent hls_config always_survives)
             initial "room-1" 0%nat video_producer "plain-1" 5004 0%nat first_conversion
             (proj1 first_start) 0%nat video_producer "plain-2" 5006 eq_refl).
  - destruct (Converter.addProducer None "http://localhost:3000/hls" "public/hls"
                converter_empty {| Converter.producer_id := "prod-1";
                                   Converter.producer_kind := "video" |}
                "room-1" "a1b2" (fun _ => 0)) as [[info|e] s'] eqn:E.
    + exact (proj2 (startConversion_idempotent hls_config always_survives)
               None "http://localhost:3000/hls" "public/hls" converter_empty
               {| Converter.producer_id := "prod-1"; Converter.producer_kind := "video" |}
               "room-1" "a1b2" (fun _ => 0) info s' E "c3d4" (fun _ => 2)).
    + vm_compute in E. discriminate E.
Defined.

(** C7 (the last clause fails on the code): the encoder of a conversion
    exits with code 1, the conversion is stopped, and the same room and
    producer are started again before the restart timer fires.  The timer then
    finds the id registered (by the new conversion) and relaunches an encoder
    for the stopped conversion object: a third process, on the port of the
    stopped conversion and in the shared output directory. *)
Theorem relaunch_after_stop_and_start :
  conversions (run hls_config always_survives initial stop_and_restart_trace)
    !! "room-1-prod-1" = Some 1%nat
  /\ length (processes (run hls_config always_survives initial stop_and_restart_trace))
     = 3%nat
  /\ processes (run hls_config always_survives initial stop_and_restart_trace) !! 2%nat
     = Some {| proc_roomId := "room-1"; proc_rtpPort := 5004; proc_rtpHost := "127.0.0.1";
               proc_mediaKind := "video"; proc_outputDir := "public/hls/room-1/prod-1" |}
  /\ (ffmpegProcess <$> objects (run hls_config always_survives initial
                                   stop_and_restart_trace) !! 0%nat) = Some 2%nat
  /\ (transport <$> objects (run hls_config always_survives initial
                               stop_and_restart_trace) !! 0%nat) = Some "plain-1"
  /\ "plain-1" ∈ closed_transports (run hls_config always_survives initial
                                      stop_and_restart_trace).
Proof.
  vm_compute. repeat split; reflexivity.
Qed.

(** The same failure without the second start: nothing is relaunched. *)
Example stop_without_restart :
  processes (run hls_config always_survives initial
               (crash_trace ++ [Advance 1000; Stop "room-1" "prod-1"; Advance 9000]))
  = processes first_conversion.
Proof. vm_compute. reflexivity. Qed.

(** And without the stop: the encoder is relaunched once the delay has
    passed, not a millisecond before. *)
Example crash_then_backoff :
  length (processes (run hls_config always_survives initial (crash_trace ++ [Advance 9999])))
  = 1%nat
  /\ length (processes (run hls_config always_survives initial
                          (crash_trace ++ [Advance 10000]))) = 2%nat.
Proof. split; vm_compute; reflexivity. Qed.

End SupervisorScenario.

(** ** Segment upload *)

Section UploadFacts.

Import HlsConverterService Scenario.

Variable put_ok : string -> bool.

(** Keys with the same prefix are equal only for the same file name. *)
Lemma append_cancel_l (a x y : string) : a +:+ x = a +:+ y -> x = y.
Proof.
  induction a as [|c a IH]; cbn; intros H; [exact H|].
  injection H as H. apply IH, H.
Qed.

(** [converter.js]: whatever a pass uploads is a playlist or segment of the
    directory that was readable and last modified at least the debounce window
    before it was examined. *)
Lemma uploadNewFiles_only_stable (now : string -> Z) outputId (files : list file) (u : put) :
  u ∈ Converter.uploadNewFiles put_ok now outputId files ->
  exists f,
    f ∈ files
    /\ put_key u = "hls/" +:+ outputId +:+ "/" +:+ file_name f
    /\ Converter.debounceWindow <= now (file_name f) - file_mtime f
    /\ file_readable f = true
    /\ (endsWith (file_name f) ".m3u8" = true \/ endsWith (file_name f) ".ts" = true).
Proof.
  unfold Converter.uploadNewFiles. intros Hu.
  apply list_elem_of_omap in Hu as (f & Hf & Hsome).
  exists f. split; [exact Hf|].
  destruct (endsWith (file_name f) ".m3u8") eqn:E1, (endsWith (file_name f) ".ts") eqn:E2;
    cbn [negb andb] in Hsome; try discriminate Hsome;
    destruct (file_readable f); cbn [negb] in Hsome; try discriminate Hsome;
    destruct (Z.ltb_spec (now (file_name f) - file_mtime f) Converter.debounceWindow);
    try discriminate Hsome;
    destruct (put_ok _); try discriminate Hsome;
    injection Hsome as <-; cbn [put_key]; repeat split; auto.
Qed.

(** X5: the upload pass of [converter.js] waits for a file to settle.  A
    file modified less than the debounce window of 500 ms before it is examined
    is not uploaded in that pass. *)
Lemma uploadNewFiles_skips_fresh (now : string -> Z) outputId (files : list file) (f : file) :
  NoDup (file_name <$> files) ->
  f ∈ files ->
  now (file_name f) - file_mtime f < Converter.debounceWindow ->
  forall u, u ∈ Converter.uploadNewFiles put_ok now outputId files ->
            put_key u <> "hls/" +:+ outputId +:+ "/" +:+ file_name f.
Proof.
  intros Hnodup Hf Hfresh u Hu Hkey.
  destruct (uploadNewFiles_only_stable now outputId files u Hu)
    as (g & Hg & Hkey' & Hstable & _).
  rewrite Hkey' in Hkey.
  assert (Hname : file_name g = file_name f).
  { do 3 apply append_cancel_l in Hkey. exact Hkey. }
  assert (g = f) as ->.
  { apply list_elem_of_lookup in Hg as [i Hi]. apply list_elem_of_lookup in Hf as [j Hj].
    assert (i = j) as ->.
    { eapply NoDup_lookup; [exact Hnodup| |];
        rewrite list_lookup_fmap; [rewrite Hi|rewrite Hj]; cbn; [reflexivity|].
      rewrite Hname. reflexivity. }
    congruence. }
  lia.
Qed.

(** X6: the upload pass of [converter.js] uploads what has settled.  A
    playlist or segment last modified at least 500 ms before it is examined is
    uploaded in that pass, under the key of its output id and name, when it is
    readable and the store accepts it. *)
Lemma uploadNewFiles_uploads_stable (now : string -> Z) outputId (files : list file)
    (f : file) :
  f ∈ files ->
  endsWith (file_name f) ".m3u8" || endsWith (file_name f) ".ts" = true ->
  file_readable f = true ->
  Converter.debounceWindow <= now (file_name f) - file_mtime f ->
  put_ok ("hls/" +:+ outputId +:+ "/" +:+ file_name f) = true ->
  exists u, u ∈ Converter.uploadNewFiles put_ok now outputId files
            /\ put_key u = "hls/" +:+ outputId +:+ "/" +:+ file_name f.
Proof.
  intros Hf Hext Hread Hstable Hput. unfold Converter.uploadNewFiles.
  set (upload := fun f0 : file => _).
  assert (Hup : exists u, upload f = Some u
                          /\ put_key u = "hls/" +:+ outputId +:+ "/" +:+ file_name f).
  { subst upload. cbv beta zeta. rewrite Hread, Hput. cbn [negb].
    destruct (Z.ltb_spec (now (file_name f) - file_mtime f) Converter.debounceWindow);
      [lia|].
    destruct (endsWith (file_name f) ".m3u8"), (endsWith (file_name f) ".ts");
      cbn [negb andb orb] in *; try discriminate Hext;
      eexists; (split; [reflexivity|reflexivity]). }
  destruct Hup as (u & Hu & Hkey). exists u. split; [|exact Hkey].
  apply list_elem_of_omap. exists f. split; [exact Hf|exact Hu].
Qed.

(** [HlsConverterService.js]: the pass never looks at the modification
    time. *)
Lemma uploadLoop_ignores_mtime roomId producerId (files : list file) (t : Z) :
  uploadLoop put_ok roomId producerId (touch t <$> files)
  = uploadLoop put_ok roomId producerId files.
Proof.
  unfold uploadLoop. induction files as [|f rest IH]; [reflexivity|].
  cbn [fmap list_fmap]. rewrite !filter_cons. cbn [touch file_name].
  destruct (decide _) as [H|H]; cbn [omap list_omap file_name file_readable].
  - rewrite IH. reflexivity.
  - exact IH.
Qed.

End UploadFacts.

Section UploadScenario.

Import HlsConverterService Scenario.

(** C8 (the claim fails on [HlsConverterService]): a pass of
    [_startS3Uploader] at time 10000 over a directory holding a segment
    modified at 9900 uploads the segment, where the pass of [converter.js] over
    the same directory leaves it for later and uploads the playlist only. *)
Theorem uploadLoop_uploads_fresh_file :
  uploadLoop accepts_all "room-1" "prod-1" [fresh_segment; stable_playlist]
  = [ {| put_key := "hls/room-1/prod-1/segment_003.ts";
         put_contentType := "video/MP2T"; put_cacheControl := "max-age=3600" |};
      {| put_key := "hls/room-1/prod-1/playlist.m3u8";
         put_contentType := "application/vnd.apple.mpegurl";
         put_cacheControl := "max-age=5" |} ]
  /\ 10000 - file_mtime fresh_segment < Converter.debounceWindow
  /\ Converter.uploadNewFiles accepts_all (fun _ => 10000) "room-1-a1b2"
       [fresh_segment; stable_playlist]
     = [ {| put_key := "hls/room-1-a1b2/playlist.m3u8";
            put_contentType := "application/vnd.apple.mpegurl";
            put_cacheControl := "max-age=3" |} ]
  /\ Converter.uploadNewFiles accepts_all (fun _ => 10400) "room-1-a1b2"
       [fresh_segment; stable_playlist]
     = [ {| put_key := "hls/room-1-a1b2/segment_003.ts";
            put_contentType := "video/mp2t"; put_cacheControl := "max-age=31536000" |};
         {| put_key := "hls/room-1-a1b2/playlist.m3u8";
            put_contentType := "application/vnd.apple.mpegurl";
            put_cacheControl := "max-age=3" |} ].
Proof. repeat split; vm_compute; reflexivity. Qed.

End UploadScenario.

(** ** The adaptive bitrate loop: pacing, direction, closed transports *)

Section MonitorPacing.

Import Float64 NetworkMonitor.

Implicit Types (cfg : config) (m : monitor).








(** X9: the two adjustments go where they are meant to.  Under a
    well-formed configuration and on a bitrate within the bounds, the value
    applied under congestion is not above the current bitrate and the value
    applied on a quiet network is not below it; both are within the bounds. *)
Theorem adjustment_direction cfg (b : Z) :
  well_formed cfg ->
  within cfg b ->
  minimumAvailableOutgoingBitrate cfg <= decreased cfg b <= b
  /\ b <= increased cfg b <= maximumAvailableOutgoingBitrate cfg.
Proof.
  intros (Hmin & Hle & Hmax & Hdec & Hinc) [Hlo Hhi]. unfold decreased, increased.
  pose proof (floor_mul_le b (decreaseFactor cfg) Hdec ltac:(lia)).
  pose proof (floor_mul_ge b (increaseFactor cfg) Hinc ltac:(lia)).
  lia.
Qed.

Lemma adjustment_direction_witness :
  minimumAvailableOutgoingBitrate default_config
  <= decreased default_config 2000000 <= 2000000
  /\ 2000000 <= increased default_config 2000000
     <= maximumAvailableOutgoingBitrate default_config.
Proof.
  apply (adjustment_direction default_config 2000000).
  - exact default_config_well_formed.
  - split; vm_compute; congruence.
Defined.

End MonitorPacing.

(** ** RTP ports: allocation and release *)

Section PortRoundTrip.

Import Converter.

Implicit Types (used : gset Z) (draw : nat -> Z).

(** Whatever the draws, a port the loop settles on inside the range is
    free. *)
Lemma attempt_free draw used (remaining k : nat) :
  attempt draw remaining k used <= maxRtpPort ->
  attempt draw remaining k used ∉ used.
Proof.
  revert k. induction remaining as [|r IH]; intros k; cbn [attempt].
  - intros Hle. destruct (sweep_spec used) as [(_ & Hfree & _)|[Hgt _]]; [exact Hfree|lia].
  - destruct (bool_decide (candidate (draw k) ∈ used)
              && (candidate (draw k) <=? maxRtpPort)) eqn:E; [apply IH|].
    intros Hle. apply andb_false_iff in E as [E|E].
    + apply bool_decide_eq_false in E. exact E.
    + apply Z.leb_gt in E. lia.
Qed.

Lemma allocateRtpPort_fresh draw used port used' :
  allocateRtpPort draw used = (Ok port, used') ->
  (port ∉ used) /\ used' = {[port]} ∪ used.
Proof.
  unfold allocateRtpPort.
  pose proof (attempt_free draw used 100 0) as Hfree.
  generalize dependent (attempt draw 100 0 used). intros p Hfree.
  destruct (Z.ltb_spec maxRtpPort p) as [?|Hle]; [discriminate|].
  intros H. injection H as <- <-. split; [apply Hfree, Hle|reflexivity].
Qed.

(** Under draws [Math.random()] can produce, the port is in the range. *)
Lemma allocateRtpPort_in_range draw used port used' :
  fair draw ->
  allocateRtpPort draw used = (Ok port, used') ->
  minRtpPort <= port <= maxRtpPort.
Proof.
  intros Hfair. unfold allocateRtpPort.
  pose proof (attempt_spec draw used 100 0 Hfair) as Hspec. cbv zeta in Hspec.
  generalize dependent (attempt draw 100 0 used). intros p Hspec.
  destruct (Z.ltb_spec maxRtpPort p) as [?|Hle]; [discriminate|].
  intros H. injection H as <- _.
  destruct Hspec as [(_ & _ & _ & Hmin)|[Hgt _]]; lia.
Qed.

(** X10: allocation and release are inverse, and no port is handed out
    twice.  Whatever the random draws, a port [allocateRtpPort] returns was not
    in use; releasing it gives back the set of before; and as long as it is not
    released, no later allocation returns it. *)
Theorem allocateRtpPort_release draw used port used' :
  allocateRtpPort draw used = (Ok port, used') ->
  (port ∉ used)
  /\ releaseRtpPort used' port = used
  /\ (forall draw' port' used'',
        allocateRtpPort draw' used' = (Ok port', used'') -> port' <> port).
Proof.
  intros H. destruct (allocateRtpPort_fresh draw used port used' H) as [Hfree ->].
  split; [exact Hfree|]. split.
  - unfold releaseRtpPort. apply set_eq. intros x.
    rewrite elem_of_difference, elem_of_union, elem_of_singleton. split.
    + intros [[->|Hx] Hne]; [contradiction Hne; reflexivity|exact Hx].
    + intros Hx. split; [right; exact Hx|]. intros ->. contradiction.
  - intros draw' port' used'' H'.
    destruct (allocateRtpPort_fresh draw' _ port' used'' H') as [Hfree' _].
    intros ->. apply Hfree'. apply elem_of_union. left. apply elem_of_singleton. reflexivity.
Qed.

Lemma allocateRtpPort_release_witness :
  (10002 ∉ ({[10000]} : gset Z))
  /\ releaseRtpPort ({[10002]} ∪ {[10000]}) 10002 = {[10000]}.
Proof.
  destruct (allocateRtpPort_release (fun _ => 0) {[10000]} 10002 ({[10002]} ∪ {[10000]}))
    as (H1 & H2 & _).
  - vm_compute. reflexivity.
  - split; [exact H1|exact H2].
Defined.

End PortRoundTrip.

(** ** Producers of converter.js *)

Section AddProducerFacts.

Import Stdlib.Strings.Ascii.
Import Converter.

Variable cloudFront_domain : option string.
Variable hls_baseUrl : string.
Variable hls_outputPath : string.

Local Abbreviation addProducer :=
  (Converter.addProducer cloudFront_domain hls_baseUrl hls_outputPath).

Lemma sanitize_length (s : string) :
  (String.length (sanitize s) <= String.length s)%nat.
Proof.
  induction s as [|a s IH]; [reflexivity|].
  cbn [sanitize]. destruct (word_char a); cbn [String.length]; lia.
Qed.

(** A string the filter leaves as it is has word characters only. *)
Lemma sanitize_fixed (s : string) :
  sanitize s = s -> forall a, In a (String.list_ascii_of_string s) -> word_char a = true.
Proof.
  induction s as [|b s IH]; intros Hfix a Hin; [destruct Hin|].
  cbn [sanitize] in Hfix. destruct (word_char b) eqn:Hb.
  - injection Hfix as Hfix. destruct Hin as [<-|Hin]; [exact Hb|apply IH; assumption].
  - exfalso. pose proof (sanitize_length s) as Hlen.
    rewrite Hfix in Hlen. cbn [String.length] in Hlen. lia.
Qed.

(** X11: [addProducer] registers a producer only under a plain room id.  A
    call that returns has checked that the producer id and the room id are not
    empty and that the room id is made of letters, digits, [_] and [-] only, so
    it holds no path separator and no dot.  For a producer not yet registered,
    the entry carries the room id and the output id [roomId-secureId] and is
    registered under the producer id; a video producer gets a port that was
    free, an encoder on that port writing to [outputPath/outputId], and a
    playlist URL; any other producer gets neither port, encoder nor URL. *)
Theorem addProducer_registers s (p : producer) roomId secureId draw info s' :
  addProducer s p roomId secureId draw = (Ok info, s') ->
  producer_id p <> ""
  /\ roomId <> ""
  /\ (forall a, In a (String.list_ascii_of_string roomId) ->
        word_char a = true /\ a <> "/"%char /\ a <> "."%char)
  /\ (producers s !! producer_id p = None ->
      info_roomId info = roomId
      /\ info_outputId info = roomId +:+ "-" +:+ secureId
      /\ producers s' !! producer_id p = Some info
      /\ if String.eqb (producer_kind p) "video"
         then exists port,
             info_rtpInfo info
             = Some {| rtpPort := port; rtpHost := "127.0.0.1";
                       rtp_outputDir := hls_outputPath +:+ "/" +:+ roomId +:+ "-" +:+ secureId |}
             /\ (port ∉ usedPorts s)
             /\ usedPorts s' = {[port]} ∪ usedPorts s
             /\ started s'
                = started s ++ [(port, hls_outputPath +:+ "/" +:+ roomId +:+ "-" +:+ secureId,
                                 producer_id p)]
             /\ ffmpegProcesses s' !! producer_id p = Some (length (started s))
             /\ is_Some (info_hlsUrl info)
         else info_rtpInfo info = None /\ info_hlsUrl info = None
              /\ usedPorts s' = usedPorts s /\ started s' = started s
              /\ ffmpegProcesses s' = ffmpegProcesses s).
Proof.
  unfold Converter.addProducer.
  destruct (String.eqb_spec (producer_id p) "") as [?|Hid]; [discriminate|].
  destruct (String.eqb_spec roomId "") as [?|Hroom]; [discriminate|]. cbn [orb].
  destruct (String.eqb_spec (sanitize roomId) roomId) as [Hsan|?]; [|discriminate].
  cbn [negb]. intros H.
  split; [exact Hid|]. split; [exact Hroom|]. split.
  - intros a Ha. pose proof (sanitize_fixed roomId Hsan a Ha) as Hw.
    split; [exact Hw|]. split; intros ->; vm_compute in Hw; discriminate Hw.
  - intros Hnew. rewrite Hnew in H.
    destruct (String.eqb (producer_kind p) "video"); cbn [negb] in H.
    + destruct (allocateRtpPort draw (usedPorts s)) as [[port|e] u] eqn:Halloc;
        [|discriminate H].
      destruct (allocateRtpPort_fresh draw (usedPorts s) port u Halloc) as [Hfree ->].
      injection H as <- <-. cbn.
      split; [reflexivity|]. split; [reflexivity|]. split; [apply lookup_insert_eq|].
      exists port. split; [reflexivity|]. split; [exact Hfree|]. split; [reflexivity|].
      split; [reflexivity|]. split; [apply lookup_insert_eq|]. eexists. reflexivity.
    + injection H as <- <-. cbn.
      split; [reflexivity|]. split; [reflexivity|]. split; [apply lookup_insert_eq|].
      repeat split.
Qed.

(** X12: a producer that found no port stays registered without a stream.
    When every even port is in use, [addProducer] for a new video producer
    throws the port-exhausted error after it has registered the entry: ports
    and encoders are as before, and every later call for that producer returns
    the entry, with no port and no playlist URL, instead of trying again. *)
Theorem addProducer_exhausted s (p : producer) roomId secureId draw :
  fair draw ->
  exhausted (usedPorts s) ->
  producers s !! producer_id p = None ->
  producer_id p <> "" ->
  roomId <> "" ->
  sanitize roomId = roomId ->
  producer_kind p = "video" ->
  exists s',
    addProducer s p roomId secureId draw = (Throw PortExhausted, s')
    /\ usedPorts s' = usedPorts s
    /\ started s' = started s
    /\ ffmpegProcesses s' = ffmpegProcesses s
    /\ forall secureId' draw',
         exists info,
           addProducer s' p roomId secureId' draw' = (Ok info, s')
           /\ info_rtpInfo info = None
           /\ info_hlsUrl info = None.
Proof.
  intros Hfair Hex Hnew Hid Hroom Hsan Hkind.
  pose proof (attempt_exhausted draw (usedPorts s) 100 0 Hfair Hex) as Hgt.
  unfold Converter.addProducer.
  destruct (String.eqb_spec (producer_id p) "") as [?|_]; [contradiction|].
  destruct (String.eqb_spec roomId "") as [?|_]; [contradiction|]. cbn [orb].
  rewrite Hsan, String.eqb_refl. cbn [negb].
  rewrite Hnew, Hkind. cbn [String.eqb Ascii.eqb Bool.eqb negb andb].
  unfold allocateRtpPort.
  destruct (Z.ltb_spec maxRtpPort (attempt draw 100 0 (usedPorts s))) as [_|?]; [|lia].
  eexists. split; [reflexivity|]. cbn [usedPorts started ffmpegProcesses producers].
  split; [reflexivity|]. split; [reflexivity|]. split; [reflexivity|].
  intros secureId' draw'. rewrite lookup_insert_eq.
  eexists. split; [reflexivity|]. split; reflexivity.
Qed.

End AddProducerFacts.

Section AddProducerScenario.

Import Stdlib.Strings.Ascii.
Import Converter Scenario.

Lemma addProducer_registers_witness :
  Forall (fun a => word_char a = true /\ a <> "/"%char /\ a <> "."%char)
         (String.list_ascii_of_string "room-1").
Proof.
  apply Forall_forall. intros a Ha. apply list_elem_of_In in Ha. revert a Ha.
  destruct (Converter.addProducer None "http://localhost:3000/hls" "public/hls"
              converter_empty {| producer_id := "prod-1"; producer_kind := "video" |}
              "room-1" "a1b2" (fun _ => 0)) as [[info|e] s'] eqn:E.
  - exact (proj1 (proj2 (proj2
             (addProducer_registers None "http://localhost:3000/hls" "public/hls"
                converter_empty {| producer_id := "prod-1"; producer_kind := "video" |}
                "room-1" "a1b2" (fun _ => 0) info s' E)))).
  - vm_compute in E. discriminate E.
Defined.

Lemma addProducer_exhausted_witness :
  exists s',
    Converter.addProducer None "http://localhost:3000/hls" "public/hls"
      {| producers := ∅; ffmpegProcesses := ∅; usedPorts := every_even_port; started := [] |}
      {| producer_id := "prod-1"; producer_kind := "video" |} "room-1" "a1b2" (fun _ => 0)
    = (Throw PortExhausted, s')
    /\ started s' = [].
Proof.
  destruct (addProducer_exhausted None "http://localhost:3000/hls" "public/hls"
              {| producers := ∅; ffmpegProcesses := ∅; usedPorts := every_even_port;
                 started := [] |}
              {| producer_id := "prod-1"; producer_kind := "video" |} "room-1" "a1b2"
              (fun _ => 0))
    as (s' & H & _ & Hstarted & _).
  - exact constant_draw_fair.
  - exact every_even_port_exhausted.
  - reflexivity.
  - discriminate.
  - discriminate.
  - reflexivity.
  - reflexivity.
  - exists s'. split; [exact H|exact Hstarted].
Defined.

End AddProducerScenario.

(** ** HLS supervision: the end of it, and the ids *)

Section SupervisionEnds.

Import Stdlib.Strings.Ascii.
Import HlsConverterService.

Variable cfg : config.
Variable survives : nat -> bool.

Implicit Types (s : service) (conv : conversion).

Local Abbreviation startConversion := (HlsConverterService.startConversion cfg survives).
Local Abbreviation run := (HlsConverterService.run cfg survives).
Local Abbreviation exec := (HlsConverterService.exec cfg survives).

(** With no ['exit'] handler and no timer left, exits and time change
    nothing but the clock. *)
Lemma quiet_run_idle (trace : list event) :
  Forall quiet trace ->
  forall s, on_exit s = ∅ -> timers s = [] ->
            processes (run s trace) = processes s
            /\ conversions (run s trace) = conversions s
            /\ objects (run s trace) = objects s
            /\ killed (run s trace) = killed s.
Proof.
  induction 1 as [|e rest He _ IH]; intros s Hh Ht; [repeat split|].
  unfold HlsConverterService.run. cbn [foldl].
  fold (run (exec s e) rest).
  destruct e as [| |pid code|dt]; cbn [quiet] in He; try contradiction.
  - cbn [HlsConverterService.exec]. unfold onExit. rewrite Hh, lookup_empty.
    apply IH; assumption.
  - cbn [HlsConverterService.exec]. unfold advance. rewrite Ht.
    rewrite !filter_nil. cbn [fmap list_fmap foldl].
    match goal with |- context [run ?s1 rest] =>
      destruct (IH s1 Hh eq_refl) as (H1 & H2 & H3 & H4)
    end.
    repeat split; assumption.
Qed.

(** X13: a relaunch that fails is the last one.  The encoder of a registered
    conversion exits with a failure and the encoder launched ten seconds later
    does not outlive its grace period.  Then, whatever exits and however much
    time passes, no further encoder is launched: the one relaunch is the only
    process added.  The conversion stays registered with its killed encoder,
    and a start for its id returns it as it is. *)
Theorem failed_relaunch_is_final s (pid : nat) (code : option Z) (c : nat) conv
    (trace : list event) :
  on_exit s = {[ pid := c ]} ->
  timers s = [] ->
  objects s !! c = Some conv ->
  conversions s !! id conv = Some c ->
  _closed s = false ->
  code <> Some 0 ->
  survives (length (processes s)) = false ->
  Forall quiet trace ->
  let s' := run s (Exit pid code :: Advance restartDelay :: trace) in
  processes s'
  = processes s ++ [{| proc_roomId := roomId conv;
                       proc_rtpPort := consumer_ssrc (consumer conv);
                       proc_rtpHost := "127.0.0.1";
                       proc_mediaKind := consumer_kind (consumer conv);
                       proc_outputDir := outputDir conv |}]
  /\ conversions s' = conversions s
  /\ objects s' = objects s
  /\ ffmpegProcess conv ∈ killed s'
  /\ (forall roomId' r p t ssrc,
        conversionId roomId' (producer_id p) = id conv ->
        startConversion s' roomId' r p t ssrc = (Ok c, s')).
Proof.
  intros Hh Ht Hc Hreg Hopen Hcode Hdies Hquiet s'.
  assert (Hpid : on_exit s !! pid = Some c) by (rewrite Hh; apply lookup_singleton_eq).
  subst s'. unfold HlsConverterService.run. cbn [foldl HlsConverterService.exec].
  rewrite (onExit_sets_timer s pid code c Hpid Hcode Hopen), Ht. cbn [app].
  match goal with |- context [HlsConverterService.advance _ ?s1 restartDelay] =>
    rewrite (advance_at_due survives s1 (now s + restartDelay) c restartDelay eq_refl)
      by (cbn [now]; lia)
  end.
  cbn [conversions objects _closed processes killed on_exit timers closed_transports now].
  unfold HlsConverterService.onTimer. cbn [objects conversions _closed]. rewrite Hc, Hopen.
  rewrite bool_decide_eq_true_2 by (rewrite Hreg; eauto). cbn [andb negb].
  unfold HlsConverterService._restartFFmpeg. cbn [objects]. rewrite Hc.
  unfold _spawnFfmpeg. cbn [kill processes]. rewrite Hdies.
  cbn [conversions objects _closed processes killed on_exit timers closed_transports now].
  match goal with |- context [foldl _ ?s2 trace] =>
    destruct (quiet_run_idle trace Hquiet s2) as (H1 & H2 & H3 & H4);
      [cbn [on_exit]; rewrite Hh; apply delete_singleton_eq|reflexivity|];
      fold (run s2 trace) in *; set (s3 := run s2 trace) in *
  end.
  cbn [processes conversions objects killed] in H1, H2, H3, H4.
  split; [exact H1|]. split; [exact H2|]. split; [exact H3|]. split.
  - rewrite H4. apply elem_of_union. left. apply elem_of_singleton. reflexivity.
  - intros roomId' r p t ssrc Hid.
    apply startConversion_registered. rewrite Hid, H2. exact Hreg.
Qed.

Lemma dash_split (r1 p1 r2 p2 : string) :
  ~ In "-"%char (String.list_ascii_of_string r1) ->
  ~ In "-"%char (String.list_ascii_of_string r2) ->
  r1 +:+ "-" +:+ p1 = r2 +:+ "-" +:+ p2 ->
  r1 = r2 /\ p1 = p2.
Proof.
  revert r2. induction r1 as [|a r1 IH]; intros [|b r2] H1 H2 E; cbn in E.
  - injection E as E. split; [reflexivity|exact E].
  - injection E as <- _. exfalso. apply H2. left. reflexivity.
  - injection E as -> _. exfalso. apply H1. left. reflexivity.
  - injection E as <- E. destruct (IH r2) as [-> ->].
    + intros Hin. apply H1. right. exact Hin.
    + intros Hin. apply H2. right. exact Hin.
    + exact E.
    + split; reflexivity.
Qed.

(** X14: which pairs share a conversion.  The registry is keyed by
    [`${roomId}-${producerId}`].  Two pairs whose room ids hold no [-] have
    the same key only when they are the same pair; without that, different
    pairs can have the same key, and then a start for the second pair returns
    the conversion of the first and starts nothing. *)
Theorem conversionId_shared :
  (forall r1 p1 r2 p2,
      ~ In "-"%char (String.list_ascii_of_string r1) ->
      ~ In "-"%char (String.list_ascii_of_string r2) ->
      conversionId r1 p1 = conversionId r2 p2 ->
      r1 = r2 /\ p1 = p2)
  /\ (forall s r1 rt1 p1 t1 ssrc1 c s',
         startConversion s r1 rt1 p1 t1 ssrc1 = (Ok c, s') ->
         forall r2 rt2 p2 t2 ssrc2,
           conversionId r2 (producer_id p2) = conversionId r1 (producer_id p1) ->
           startConversion s' r2 rt2 p2 t2 ssrc2 = (Ok c, s')).
Proof.
  split.
  - intros r1 p1 r2 p2 H1 H2 E. exact (dash_split r1 p1 r2 p2 H1 H2 E).
  - intros s r1 rt1 p1 t1 ssrc1 c s' H r2 rt2 p2 t2 ssrc2 E.
    apply startConversion_registered. rewrite E.
    exact (startConversion_registers cfg survives s r1 rt1 p1 t1 ssrc1 c s' H).
Qed.

End SupervisionEnds.

Section SupervisionEndsScenario.

Import HlsConverterService Scenario.

Lemma failed_relaunch_is_final_witness :
  length (processes (run hls_config only_first_survives fragile_conversion
                       [Exit 0%nat (Some 1); Advance restartDelay;
                        Exit 1%nat (Some 1); Advance 60000; Exit 0%nat None])) = 2%nat
  /\ conversions (run hls_config only_first_survives fragile_conversion
                    [Exit 0%nat (Some 1); Advance restartDelay;
                     Exit 1%nat (Some 1); Advance 60000; Exit 0%nat None])
     = conversions fragile_conversion.
Proof.
  destruct (objects fragile_conversion !! 0%nat) as [conv|] eqn:Hc;
    [|vm_compute in Hc; discriminate Hc].
  destruct (failed_relaunch_is_final hls_config only_first_survives fragile_conversion
              0%nat (Some 1) 0%nat conv
              [Exit 1%nat (Some 1); Advance 60000; Exit 0%nat None])
    as (Hp & Hconvs & _).
  - vm_compute. reflexivity.
  - reflexivity.
  - exact Hc.
  - vm_compute in Hc. injection Hc as <-. vm_compute. reflexivity.
  - reflexivity.
  - discriminate.
  - reflexivity.
  - repeat constructor.
  - split; [rewrite Hp, length_app; reflexivity|exact Hconvs].
Defined.

Lemma conversionId_shared_witness :
  ("room1" = "room1" /\ "prod-1" = "prod-1")
  /\ startConversion hls_config always_survives
       (startConversion hls_config always_survives initial "a-b" 0%nat
          {| producer_id := "c"; producer_kind := "video" |} "plain-1" 5004).2
       "a" 0%nat {| producer_id := "b-c"; producer_kind := "video" |} "plain-2" 5006
     = (Ok 0%nat,
        (startConversion hls_config always_survives initial "a-b" 0%nat
           {| producer_id := "c"; producer_kind := "video" |} "plain-1" 5004).2).
Proof.
  split.
  - apply (proj1 (conversionId_shared hls_config always_survives)
             "room1" "prod-1" "room1" "prod-1").
    + vm_compute. intros H. repeat (destruct H as [H|H]; [discriminate H|]). exact H.
    + vm_compute. intros H. repeat (destruct H as [H|H]; [discriminate H|]). exact H.
    + reflexivity.
  - apply (proj2 (conversionId_shared hls_config always_survives)
             initial "a-b" 0%nat {| producer_id := "c"; producer_kind := "video" |}
             "plain-1" 5004).
    + reflexivity.
    + reflexivity.
Defined.

End SupervisionEndsScenario.

(** ** Rooms of RoomManager.js: placement, failed requests *)

Section RoomPlacement.

Import RoomManager.

Implicit Types (m : manager) (ws : list worker).







End RoomPlacement.

(** ** Requests to MediasoupServer.js *)

Section ServerRequests.

Variable canConsume : router -> string -> rtpCapabilities -> bool.

Import MediasoupServer.

Implicit Types (s : server).


(** X18: a consumer exists only where the engine agreed.  When
    [MediasoupServer.createConsumer] returns a consumer, the room, both peers,
    the producer and the transport were found, the receiving peer had announced
    its capabilities and the engine's [canConsume] accepted them for the
    producer; the consumer carries the engine's id and the producer's id and is
    registered under its id in [this.consumers] and in the receiving peer, and
    nothing else in the server has changed. *)
Theorem createConsumer_registers s roomId consumerPeerId producerPeerId producerId
    transportId newId (c : consumer) s' :
  createConsumer canConsume s roomId consumerPeerId producerPeerId producerId
    transportId newId = (Ok c, s') ->
  exists room consumerPeer producerPeer producer caps,
    rooms s !! roomId = Some room
    /\ peers room !! consumerPeerId = Some consumerPeer
    /\ peers room !! producerPeerId = Some producerPeer
    /\ peer_producers producerPeer !! producerId = Some producer
    /\ transportId ∈ peer_transports consumerPeer
    /\ peer_rtpCapabilities consumerPeer = Some caps
    /\ canConsume (room_router room) (producer_id producer) caps = true
    /\ c = {| consumer_id := newId; consumer_producerId := producer_id producer |}
    /\ consumers s' = <[newId := c]> (consumers s)
    /\ producers s' = producers s
    /\ pool_of s' = pool_of s
    /\ Engine.consumers_created (engine s') = newId :: Engine.consumers_created (engine s)
    /\ rooms s'
       = <[roomId := {| room_id := room_id room; room_router := room_router room;
                        peers := <[peer_id consumerPeer :=
                                     {| peer_id := peer_id consumerPeer;
                                        peer_transports := peer_transports consumerPeer;
                                        peer_producers := peer_producers consumerPeer;
                                        peer_consumers :=
                                          <[newId := c]> (peer_consumers consumerPeer);
                                        peer_rtpCapabilities :=
                                          peer_rtpCapabilities consumerPeer |}]>
                                 (peers room) |}]> (rooms s).
Proof.
  unfold createConsumer, _getPeer.
  destruct (rooms s !! roomId) as [room|] eqn:Hroom; [|discriminate].
  destruct (peers room !! consumerPeerId) as [cp|] eqn:Hcp; [|discriminate].
  destruct (peers room !! producerPeerId) as [pp|] eqn:Hpp; [|discriminate].
  destruct (peer_producers pp !! producerId) as [pr|] eqn:Hpr; [|discriminate].
  destruct (bool_decide (transportId ∈ peer_transports cp)) eqn:Ht; [|discriminate].
  apply bool_decide_eq_true in Ht. cbn [negb].
  rewrite (getRouter_known s roomId room Hroom).
  destruct (peer_rtpCapabilities cp) as [caps|] eqn:Hcaps; [|discriminate].
  destruct (canConsume (room_router room) (producer_id pr) caps) eqn:Hok; [|discriminate].
  cbn [negb]. intros H. injection H as <- <-.
  exists room, cp, pp, pr, caps.
  unfold store_peer. cbn [set_engine rooms]. rewrite Hroom. cbn.
  repeat split; try assumption; try reflexivity.
  rewrite Hcaps. reflexivity.
Qed.

End ServerRequests.

Section ServerRequestsScenario.

Import MediasoupServer Scenario.


Lemma createConsumer_registers_witness :
  exists c s',
    createConsumer always_compatible server_with_two_peers
      "room-1" "p2" "p1" "prod-1" "t2" "c-1" = (Ok c, s')
    /\ consumers s' = <["c-1" := c]> (consumers server_with_two_peers)
    /\ producers s' = producers server_with_two_peers.
Proof.
  destruct (createConsumer always_compatible server_with_two_peers
              "room-1" "p2" "p1" "prod-1" "t2" "c-1") as [[c|e] s'] eqn:E;
    [|vm_compute in E; discriminate E].
  destruct (createConsumer_registers always_compatible server_with_two_peers
              "room-1" "p2" "p1" "prod-1" "t2" "c-1" c s' E)
    as (room & cp & pp & pr & caps & _ & _ & _ & _ & _ & _ & _ & _ & Hc & Hp & _).
  exists c, s'. split; [reflexivity|]. split; [exact Hc|exact Hp].
Defined.

End ServerRequestsScenario.

(** ** Concrete runs of the properties of the first part *)

Section EarlierScenarios.

Import Scenario.

Lemma mediasoup_calls_cycle_witness :
  (calls MediasoupServer._getNextWorker 5
         {| workers := [101; 102; 103]; nextWorkerIndex := Int (Z.of_nat 1) |}).1
  = [Ok (Some 102); Ok (Some 103); Ok (Some 101); Ok (Some 102); Ok (Some 103)].
Proof.
  rewrite (mediasoup_calls_cycle [101; 102; 103] 5 1) by (cbn [length]; lia).
  reflexivity.
Defined.

Lemma closePeers_all_witness :
  MediasoupServer.rooms
    (MediasoupServer.closePeers server_with_one_peer "room-1" ["ghost"; "p1"; "p1"])
    !! "room-1" = None.
Proof.
  set (peer := {| MediasoupServer.peer_id := "p1";
                  MediasoupServer.peer_transports := {[ "t1" ]};
                  MediasoupServer.peer_producers :=
                    {[ "prod-1" := {| MediasoupServer.producer_id := "prod-1";
                                      MediasoupServer.producer_kind := "video" |} ]};
                  MediasoupServer.peer_consumers := ∅;
                  MediasoupServer.peer_rtpCapabilities := None |}).
  apply (closePeers_all server_with_one_peer "room-1" ["ghost"; "p1"; "p1"]
           {| MediasoupServer.room_id := "room-1"; MediasoupServer.room_router := 0%nat;
              MediasoupServer.peers := {[ "p1" := peer ]} |}).
  - vm_compute. reflexivity.
  - cbn [MediasoupServer.peers]. apply insert_non_empty.
  - cbn [MediasoupServer.peers]. intros k [x Hk].
    apply lookup_singleton_Some in Hk as [<- _].
    apply elem_of_cons. right. apply elem_of_cons. left. reflexivity.
Defined.

Import HlsConverterService.

Lemma relaunch_after_backoff_witness :
  length (processes (run hls_config always_survives first_conversion
                       [Exit 0%nat (Some 1); Advance 9999])) = 1%nat
  /\ length (processes (run hls_config always_survives first_conversion
                          [Exit 0%nat (Some 1); Advance restartDelay])) = 2%nat.
Proof.
  destruct (objects first_conversion !! 0%nat) as [conv|] eqn:Hc;
    [|vm_compute in Hc; discriminate Hc].
  destruct (relaunch_after_backoff hls_config always_survives first_conversion
              0%nat (Some 1) 0%nat conv) as (Hbefore & Hat & _).
  - vm_compute. reflexivity.
  - exact Hc.
  - vm_compute in Hc. injection Hc as <-. vm_compute. eexists. reflexivity.
  - reflexivity.
  - discriminate.
  - reflexivity.
  - split.
    + rewrite (Hbefore 9999) by (unfold restartDelay; lia). reflexivity.
    + rewrite Hat, length_app. reflexivity.
Defined.

Lemma no_relaunch_after_stop_witness :
  length (processes (run hls_config always_survives first_conversion
                       [Exit 0%nat (Some 1); Stop "room-1" "prod-1"; Advance restartDelay]))
  = 1%nat.
Proof.
  destruct (objects first_conversion !! 0%nat) as [conv|] eqn:Hc;
    [|vm_compute in Hc; discriminate Hc].
  assert (Hconv : conv = {| id := "room-1-prod-1"; roomId := "room-1";
                            producerId := "prod-1";
                            outputDir := "public/hls/room-1/prod-1";
                            transport := "plain-1";
                            consumer := {| consumer_ssrc := 5004;
                                           consumer_kind := "video" |};
                            ffmpegProcess := 0%nat;
                            hlsUrl := hlsUrl conv; startedAt := 0;
                            s3Uploading := true |}).
  { vm_compute in Hc. injection Hc as <-. reflexivity. }
  destruct (no_relaunch_after_stop hls_config always_survives first_conversion
              0%nat (Some 1) 0%nat conv) as (Hp & _).
  - vm_compute. reflexivity.
  - exact Hc.
  - rewrite Hconv. vm_compute. reflexivity.
  - rewrite Hconv. reflexivity.
  - reflexivity.
  - discriminate.
  - reflexivity.
  - rewrite Hconv in Hp. cbn [roomId producerId] in Hp. rewrite Hp. reflexivity.
Defined.

Lemma uploadNewFiles_skips_fresh_witness :
  Forall (fun u => put_key u <> "hls/" +:+ "room-1-a1b2" +:+ "/" +:+ file_name fresh_segment)
         (Converter.uploadNewFiles accepts_all (fun _ => 10000) "room-1-a1b2"
            [fresh_segment; stable_playlist]).
Proof.
  apply Forall_forall.
  apply (uploadNewFiles_skips_fresh accepts_all (fun _ => 10000) "room-1-a1b2"
           [fresh_segment; stable_playlist] fresh_segment).
  - cbn. apply NoDup_cons. split.
    + intros H. apply list_elem_of_singleton in H. discriminate H.
    + apply NoDup_singleton.
  - apply elem_of_cons. left. reflexivity.
  - vm_compute. reflexivity.
Defined.

Lemma uploadNewFiles_uploads_stable_witness :
  exists u,
    u ∈ Converter.uploadNewFiles accepts_all (fun _ => 10000) "room-1-a1b2"
          [fresh_segment; stable_playlist]
    /\ put_key u = "hls/" +:+ "room-1-a1b2" +:+ "/" +:+ file_name stable_playlist.
Proof.
  apply (uploadNewFiles_uploads_stable accepts_all (fun _ => 10000) "room-1-a1b2"
           [fresh_segment; stable_playlist] stable_playlist).
  - apply elem_of_cons. right. apply elem_of_cons. left. reflexivity.
  - reflexivity.
  - reflexivity.
  - vm_compute. discriminate.
  - reflexivity.
Defined.

End EarlierScenarios.

(** ** Workers that die *)

Section WorkerDeath.

Implicit Types (p : pool) (ws : list worker).

(** Filtering a worker out of a list without duplicates removes at most one
    entry, and exactly one when the worker is in the list. *)
Lemma filter_out_length ws (pid : worker) :
  NoDup ws ->
  (length ws <= S (length (filter (fun w => w <> pid) ws)))%nat
  /\ (pid ∈ ws -> length ws = S (length (filter (fun w => w <> pid) ws))).
Proof.
  induction 1 as [|w ws Hw Hnodup IH].
  - split; [cbn; lia|]. intros H. inversion H.
  - rewrite filter_cons. destruct IH as [IH1 IH2].
    destruct (decide (w <> pid)) as [Hne|Heq].
    + cbn [length]. split; [lia|]. intros Hin.
      apply elem_of_cons in Hin as [->|Hin]; [contradiction Hne; reflexivity|].
      rewrite (IH2 Hin). reflexivity.
    + assert (w = pid) as -> by (destruct (decide (w = pid)); [assumption|contradiction]).
      assert (Hall : filter (fun w0 => w0 <> pid) ws = ws).
      { clear IH1 IH2 Hnodup. induction ws as [|x ws IHws]; [reflexivity|].
        rewrite filter_cons. destruct (decide (x <> pid)) as [_|Hx].
        - f_equal. apply IHws. intros Hin. apply Hw. apply elem_of_cons. right. exact Hin.
        - exfalso. apply Hw. apply elem_of_cons. left.
          destruct (decide (pid = x)); [assumption|]. contradiction Hx. congruence. }
      rewrite Hall. cbn [length]. split; [lia|]. intros _. reflexivity.
Qed.

(** X19: [MediasoupServer] between the death of a worker and its
    replacement.  The handler removes the dead worker at once and leaves the
    index alone; the replacement is pushed later.  On a healthy pool of
    distinct workers: the dead worker is no longer selected; once the
    replacement is in, the pool is healthy again; but in between, when the
    index stood at the last position and another worker remains, the next
    selection finds no worker at the index and returns [undefined]. *)
Theorem worker_died_window p (pid newWorker : worker) :
  healthy p ->
  NoDup (workers p) ->
  (pid ∉ workers (MediasoupServer.on_died p pid))
  /\ healthy (MediasoupServer.on_restarted (MediasoupServer.on_died p pid) newWorker)
  /\ (pid ∈ workers p ->
      (2 <= length (workers p))%nat ->
      nextWorkerIndex p = Int (Z.of_nat (length (workers p) - 1)) ->
      (MediasoupServer._getNextWorker (MediasoupServer.on_died p pid)).1 = Ok None).
Proof.
  intros (i & w & Hidx & Hw) Hnodup.
  pose proof (lookup_lt_Some _ _ _ Hw) as Hlt.
  destruct (filter_out_length (workers p) pid Hnodup) as [Hlen Hexact].
  split; [|split].
  - cbn [MediasoupServer.on_died workers]. intros Hin.
    apply list_elem_of_filter in Hin as [Hne _]. apply Hne. reflexivity.
  - assert (Hi : (i < length (filter (fun w0 => w0 <> pid) (workers p) ++ [newWorker]))%nat)
      by (rewrite length_app; cbn [length]; lia).
    destruct (lookup_lt_is_Some_2 _ _ Hi) as [w' Hw'].
    exists i, w'. split; [exact Hidx|exact Hw'].
  - intros Hin Htwo Hlast.
    specialize (Hexact Hin).
    unfold MediasoupServer._getNextWorker.
    cbn [MediasoupServer.on_died workers nextWorkerIndex].
    destruct (Nat.eqb_spec (length (filter (fun w0 => w0 <> pid) (workers p))) 0) as [E|_];
      [lia|].
    cbn [fst]. f_equal. rewrite Hlast. unfold index.
    destruct (Z.leb_spec 0 (Z.of_nat (length (workers p) - 1))) as [_|?]; [|lia].
    rewrite Nat2Z.id. apply lookup_ge_None_2. lia.
Qed.

Lemma worker_died_window_witness :
  healthy (MediasoupServer.on_restarted
             (MediasoupServer.on_died {| workers := [101; 102]; nextWorkerIndex := Int 1 |}
                                      101) 103)
  /\ (MediasoupServer._getNextWorker
        (MediasoupServer.on_died {| workers := [101; 102]; nextWorkerIndex := Int 1 |}
                                 101)).1 = Ok None.
Proof.
  destruct (worker_died_window {| workers := [101; 102]; nextWorkerIndex := Int 1 |} 101 103)
    as (_ & Hhealthy & Hwindow).
  - exists 1%nat, 102. split; reflexivity.
  - cbn [workers]. apply NoDup_cons. split.
    + intros H. apply list_elem_of_singleton in H. discriminate H.
    + apply NoDup_singleton.
  - split; [exact Hhealthy|]. apply Hwindow.
    + apply elem_of_cons. left. reflexivity.
    + cbn [workers length]. lia.
    + reflexivity.
Defined.



End WorkerDeath.

(** ** Closing rooms and the manager (RoomManager.js) *)

Section RoomClosing.

Import RoomManager.

Implicit Types (m : manager) (room : room).

(** What [closeRoom] leaves closed stays closed, and the pool is not
    touched. *)
Lemma closeRoom_grows m roomId :
  Engine.closed_routers (engine m) ⊆ Engine.closed_routers (engine (closeRoom m roomId).2)
  /\ Engine.closed_transports (engine m)
     ⊆ Engine.closed_transports (engine (closeRoom m roomId).2)
  /\ pool_of (closeRoom m roomId).2 = pool_of m
  /\ Engine.routers_created (engine (closeRoom m roomId).2)
     = Engine.routers_created (engine m).
Proof.
  unfold closeRoom. destruct (rooms m !! roomId) as [room|]; cbn.
  - split; [apply union_subseteq_r|]. split; [|split; reflexivity].
    etransitivity; [|apply union_subseteq_r]. apply union_subseteq_r.
  - repeat split; reflexivity.
Qed.

Lemma closeRoom_rooms m roomId :
  rooms (closeRoom m roomId).2 = delete roomId (rooms m).
Proof.
  unfold closeRoom. destruct (rooms m !! roomId) as [room|] eqn:E; cbn; [reflexivity|].
  symmetry. apply delete_id. exact E.
Qed.

(** What [closeRoom] closes in the engine. *)
Lemma closeRoom_closed m roomId room :
  rooms m !! roomId = Some room ->
  room_router room ∈ Engine.closed_routers (engine (closeRoom m roomId).2)
  /\ (forall t, is_Some (webRtcTransports room !! t) \/ t ∈ rtpTransports room ->
                t ∈ Engine.closed_transports (engine (closeRoom m roomId).2)).
Proof.
  intros Hroom. unfold closeRoom. rewrite Hroom. cbn.
  split; [apply elem_of_union; left; apply elem_of_singleton; reflexivity|].
  intros t [Ht|Ht].
  - apply elem_of_union. right. apply elem_of_union. left. apply elem_of_dom. exact Ht.
  - apply elem_of_union. left. exact Ht.
Qed.

(** X21: [closeRoom] releases the room.  For a registered room the call
    answers true; afterwards the room is absent from the registry, its router
    and all its WebRTC and RTP transports are closed, and the other rooms, the
    pool and what was closed before are as they were.  A second call, like any
    call for an unknown room, answers false and changes nothing. *)
Theorem closeRoom_releases m roomId room :
  rooms m !! roomId = Some room ->
  (closeRoom m roomId).1 = true
  /\ rooms (closeRoom m roomId).2 !! roomId = None
  /\ (forall r, r <> roomId -> rooms (closeRoom m roomId).2 !! r = rooms m !! r)
  /\ room_router room ∈ Engine.closed_routers (engine (closeRoom m roomId).2)
  /\ (forall t, is_Some (webRtcTransports room !! t) \/ t ∈ rtpTransports room ->
                t ∈ Engine.closed_transports (engine (closeRoom m roomId).2))
  /\ Engine.closed_routers (engine m) ⊆ Engine.closed_routers (engine (closeRoom m roomId).2)
  /\ Engine.closed_transports (engine m)
     ⊆ Engine.closed_transports (engine (closeRoom m roomId).2)
  /\ pool_of (closeRoom m roomId).2 = pool_of m
  /\ closeRoom (closeRoom m roomId).2 roomId = (false, (closeRoom m roomId).2).
Proof.
  intros Hroom.
  destruct (closeRoom_closed m roomId room Hroom) as [Hrouter Htransports].
  destruct (closeRoom_grows m roomId) as (Hrt & Htr & Hpool & _).
  split; [unfold closeRoom; rewrite Hroom; reflexivity|].
  split; [rewrite closeRoom_rooms; apply lookup_delete_eq|].
  split; [intros r Hne; rewrite closeRoom_rooms; apply lookup_delete_ne; congruence|].
  split; [exact Hrouter|]. split; [exact Htransports|].
  split; [exact Hrt|]. split; [exact Htr|]. split; [exact Hpool|].
  unfold closeRoom at 1. rewrite closeRoom_rooms, lookup_delete_eq. reflexivity.
Qed.

Lemma closeRoom_releases_witness :
  (closeRoom Scenario.manager_with_producer "room-1").1 = true
  /\ rooms (closeRoom Scenario.manager_with_producer "room-1").2 !! "room-1" = None.
Proof.
  destruct (rooms Scenario.manager_with_producer !! "room-1") as [room|] eqn:Hroom;
    [|vm_compute in Hroom; discriminate Hroom].
  destruct (closeRoom_releases Scenario.manager_with_producer "room-1" room Hroom)
    as (H1 & H2 & _).
  split; [exact H1|exact H2].
Defined.

(** Closing the rooms named by a list, one after the other. *)
Lemma closeRooms_spec (roomIds : list string) :
  forall m m',
    m' = foldl (fun m roomId => (closeRoom m roomId).2) m roomIds ->
    pool_of m' = pool_of m
    /\ Engine.closed_routers (engine m) ⊆ Engine.closed_routers (engine m')
    /\ Engine.closed_transports (engine m) ⊆ Engine.closed_transports (engine m')
    /\ (forall k, k ∈ roomIds -> rooms m' !! k = None)
    /\ (forall k, k ∉ roomIds -> rooms m' !! k = rooms m !! k)
    /\ (forall k room,
          k ∈ roomIds -> rooms m !! k = Some room ->
          room_router room ∈ Engine.closed_routers (engine m')
          /\ (forall t, is_Some (webRtcTransports room !! t) \/ t ∈ rtpTransports room ->
                        t ∈ Engine.closed_transports (engine m'))).
Proof.
  induction roomIds as [|x rest IH]; intros m m' ->; cbn [foldl].
  - split; [reflexivity|]. split; [reflexivity|]. split; [reflexivity|].
    split; [intros k H; inversion H|]. split; [reflexivity|]. intros k room H. inversion H.
  - destruct (IH (closeRoom m x).2 _ eq_refl) as (Hpool & Hrt & Htr & Hin & Hout & Hclosed).
    destruct (closeRoom_grows m x) as (Hrt0 & Htr0 & Hpool0 & _).
    split; [congruence|]. split; [etransitivity; eassumption|].
    split; [etransitivity; eassumption|]. split; [|split].
    + intros k Hk. destruct (decide (k ∈ rest)) as [Hr|Hr]; [apply Hin, Hr|].
      apply elem_of_cons in Hk as [->|Hk]; [|contradiction].
      rewrite (Hout x Hr), closeRoom_rooms. apply lookup_delete_eq.
    + intros k Hk. rewrite Hout by (intros H; apply Hk; apply elem_of_cons; right; exact H).
      rewrite closeRoom_rooms. apply lookup_delete_ne.
      intros ->. apply Hk. apply elem_of_cons. left. reflexivity.
    + intros k room Hk Hroom. destruct (decide (k = x)) as [->|Hne].
      * destruct (closeRoom_closed m x room Hroom) as [Hr Ht].
        split; [apply Hrt, Hr|]. intros t Hcase. apply Htr, Ht, Hcase.
      * apply (Hclosed k room).
        -- apply elem_of_cons in Hk as [->|Hk]; [contradiction|exact Hk].
        -- rewrite closeRoom_rooms, lookup_delete_ne by congruence. exact Hroom.
Qed.

(** X22: [RoomManager.close] closes the rooms and then fails.  Every room
    is closed as by [closeRoom] and the registry is empty; but the call that
    follows the loop is to a method [HlsConverterService] does not have, so
    [close] throws: the workers are not closed and the pool is as before. *)
Theorem close_stops_at_rooms m :
  (close m).1 = Throw TypeError
  /\ rooms (close m).2 = ∅
  /\ pool_of (close m).2 = pool_of m
  /\ (forall k room,
        rooms m !! k = Some room ->
        room_router room ∈ Engine.closed_routers (engine (close m).2)
        /\ (forall t, is_Some (webRtcTransports room !! t) \/ t ∈ rtpTransports room ->
                      t ∈ Engine.closed_transports (engine (close m).2))).
Proof.
  unfold close. cbn [fst snd].
  destruct (closeRooms_spec (map_to_list (rooms m)).*1 m _ eq_refl)
    as (Hpool & _ & _ & Hin & Hout & Hclosed).
  assert (Hkeys : forall k, k ∈ (map_to_list (rooms m)).*1 <-> is_Some (rooms m !! k)).
  { intros k. rewrite list_elem_of_fmap. split.
    - intros ([k' room] & -> & H). apply elem_of_map_to_list in H. eauto.
    - intros [room H]. exists (k, room). split; [reflexivity|].
      apply elem_of_map_to_list. exact H. }
  split; [reflexivity|]. split; [|split; [exact Hpool|]].
  - apply map_empty. intros k.
    destruct (rooms m !! k) as [room|] eqn:E.
    + apply Hin. apply Hkeys. eauto.
    + rewrite Hout; [exact E|]. intros H. apply Hkeys in H. rewrite E in H.
      destruct H as [? H]. discriminate H.
  - intros k room Hroom. apply (Hclosed k room); [|exact Hroom]. apply Hkeys. eauto.
Qed.

Lemma close_stops_at_rooms_witness :
  rooms (close Scenario.manager_with_producer).2 = ∅
  /\ workers (pool_of (close Scenario.manager_with_producer).2) = [101]
  /\ 0%nat ∈ Engine.closed_routers (engine (close Scenario.manager_with_producer).2).
Proof.
  destruct (close_stops_at_rooms Scenario.manager_with_producer) as (_ & H1 & H2 & H3).
  split; [exact H1|]. split; [rewrite H2; reflexivity|].
  destruct (rooms Scenario.manager_with_producer !! "room-1") as [room|] eqn:Hroom;
    [|vm_compute in Hroom; discriminate Hroom].
  destruct (H3 "room-1" room Hroom) as [Hr _].
  vm_compute in Hroom. injection Hroom as <-. exact Hr.
Defined.

End RoomClosing.

(** ** Expiry sweeps *)

Section ExpirySweeps.

Import HlsConverterService.

(** The loop over [i] cuts the list into its consecutive slices. *)
Lemma batchesFrom_concat {A : Type} (objs : list A) (rounds i : nat) :
  (length objs <= i + 100 * rounds)%nat ->
  concat (batchesFrom rounds i objs) = drop i objs.
Proof.
  revert i. induction rounds as [|r IH]; intros i Hfuel; cbn [batchesFrom].
  - rewrite drop_ge by lia. reflexivity.
  - destruct (Nat.ltb_spec i (length objs)) as [Hlt|Hge].
    + cbn [concat]. rewrite IH by lia.
      rewrite <- (take_drop 100 (drop i objs)) at 2. rewrite drop_drop. reflexivity.
    + rewrite drop_ge by lia. reflexivity.
Qed.

Lemma batchesFrom_sizes {A : Type} (objs : list A) (rounds i : nat) :
  Forall (fun batch => (0 < length batch <= 100)%nat) (batchesFrom rounds i objs).
Proof.
  revert i. induction rounds as [|r IH]; intros i; cbn [batchesFrom]; [constructor|].
  destruct (Nat.ltb_spec i (length objs)) as [Hlt|Hge]; [|constructor].
  constructor; [|apply IH].
  rewrite length_take, length_drop. lia.
Qed.

Lemma batches_concat {A : Type} (objs : list A) : concat (batches objs) = objs.
Proof. unfold batches. rewrite batchesFrom_concat by lia. apply drop_0. Qed.

(** The commands sent are those of the first batches, in order; all of them
    when the store refuses none. *)
Lemma deleteBatches_prefix (delete_ok : string -> bool) (bs : list (list s3Object)) :
  deleteBatches delete_ok bs `prefix_of` map obj_key (concat bs).
Proof.
  induction bs as [|batch rest IH]; cbn [deleteBatches concat]; [reflexivity|].
  rewrite map_app. apply prefix_app.
  destruct (forallb _ batch); [exact IH|apply prefix_nil].
Qed.

Lemma deleteBatches_all (delete_ok : string -> bool) (bs : list (list s3Object)) :
  (forall obj, obj ∈ concat bs -> delete_ok (obj_key obj) = true) ->
  deleteBatches delete_ok bs = map obj_key (concat bs).
Proof.
  induction bs as [|batch rest IH]; intros Hok; cbn [deleteBatches concat]; [reflexivity|].
  rewrite map_app. f_equal.
  assert (Hbatch : forallb (fun obj => delete_ok (obj_key obj)) batch = true).
  { apply forallb_forall. intros obj Hin. apply Hok. cbn [concat].
    apply elem_of_app. left. apply list_elem_of_In. exact Hin. }
  rewrite Hbatch. apply IH. intros obj Hin. apply Hok. cbn [concat].
  apply elem_of_app. right. exact Hin.
Qed.

Lemma expiredObjects_spec (ts : Z) (contents : list s3Object) (obj : s3Object) :
  obj ∈ expiredObjects ts contents
  <-> obj ∈ contents /\ exists t, obj_lastModified obj = Some t /\ t < ts.
Proof.
  unfold expiredObjects. rewrite !list_elem_of_In, filter_In. split.
  - intros [Hin Hexp]. split; [exact Hin|].
    destruct (obj_lastModified obj) as [t|]; [|discriminate Hexp].
    exists t. split; [reflexivity|]. apply Z.ltb_lt. exact Hexp.
  - intros [Hin (t & Ht & Hlt)]. split; [exact Hin|].
    rewrite Ht. apply Z.ltb_lt. exact Hlt.
Qed.

(** X23: the sweep of the object store deletes expired objects only, in
    batches of at most a hundred.  For [startS3Cleanup] of
    [HlsConverterService] and [cleanupS3HlsSegments] of [converter.js] alike:
    a key is sent for deletion only if the listing holds an object with that
    key whose [LastModified] is present and strictly older than
    [expirationDays] days; the commands go out in the order of the listing, in
    batches that are never empty and never above 100; and when the store
    refuses no deletion, every expired object of the listing is deleted, once.
    With the store disabled nothing is sent. *)
Theorem expired_objects_swept (cfg : config) (delete_ok : string -> bool)
    (now expirationDays : Z) (contents : list s3Object) :
  (forall key, key ∈ startS3Cleanup cfg delete_ok now expirationDays contents ->
     exists obj t, obj ∈ contents /\ obj_key obj = key
                   /\ obj_lastModified obj = Some t
                   /\ t < now - expirationDays * 86400 * 1000)
  /\ startS3Cleanup cfg delete_ok now expirationDays contents
     `prefix_of` map obj_key (expiredObjects (now - expirationDays * 86400 * 1000) contents)
  /\ Forall (fun batch => (0 < length batch <= 100)%nat)
            (batches (expiredObjects (now - expirationDays * 86400 * 1000) contents))
  /\ concat (batches (expiredObjects (now - expirationDays * 86400 * 1000) contents))
     = expiredObjects (now - expirationDays * 86400 * 1000) contents
  /\ (s3_enabled cfg = true ->
      (forall obj, obj ∈ contents -> delete_ok (obj_key obj) = true) ->
      startS3Cleanup cfg delete_ok now expirationDays contents
      = map obj_key (expiredObjects (now - expirationDays * 86400 * 1000) contents))
  /\ (s3_enabled cfg = false ->
      startS3Cleanup cfg delete_ok now expirationDays contents = [])
  /\ Converter.cleanupS3HlsSegments (s3_enabled cfg) delete_ok now expirationDays contents
     = startS3Cleanup cfg delete_ok now expirationDays contents.
Proof.
  set (sent := startS3Cleanup cfg delete_ok now expirationDays contents).
  set (expired := expiredObjects (now - expirationDays * 86400 * 1000) contents).
  assert (Hprefix : sent `prefix_of` map obj_key expired).
  { subst sent. unfold startS3Cleanup.
    destruct (s3_enabled cfg); cbn [negb]; [|apply prefix_nil].
    unfold deleteExpired. fold expired.
    rewrite <- (batches_concat expired) at 2. apply deleteBatches_prefix. }
  split; [|split; [exact Hprefix|split; [|split; [|split; [|split]]]]].
  - intros key Hkey.
    assert (Hin : key ∈ map obj_key expired).
    { destruct Hprefix as [rest ->]. apply elem_of_app. left. exact Hkey. }
    apply list_elem_of_In, in_map_iff in Hin as (obj & <- & Hobj).
    apply list_elem_of_In, expiredObjects_spec in Hobj as [Hobj (t & Ht & Hlt)].
    exists obj, t. repeat split; assumption.
  - apply batchesFrom_sizes.
  - apply batches_concat.
  - intros Hon Hok. subst sent. unfold startS3Cleanup. rewrite Hon. cbn [negb].
    unfold deleteExpired. fold expired.
    rewrite deleteBatches_all, batches_concat; [reflexivity|].
    rewrite batches_concat. intros obj Hobj. apply Hok.
    apply expiredObjects_spec in Hobj as [Hobj _]. exact Hobj.
  - intros Hoff. subst sent. unfold startS3Cleanup. rewrite Hoff. reflexivity.
  - reflexivity.
Qed.





End ExpirySweeps.

Section DirectoryCleanup.

Import Converter.

(** X25: [cleanupDirectory] keeps the playlist and every recent file.  The
    files it unlinks are entries of the listing other than [playlist.m3u8]
    whose age, measured from the one clock reading taken before the loop, is
    strictly above [age]; when every [stat] succeeds, each such file that can
    be unlinked is. *)
Theorem cleanupDirectory_spec (unlink_ok : string -> bool) (now age : Z)
    (files : list dirEntry) :
  (forall name,
      name ∈ cleanupDirectory unlink_ok now age files ->
      name <> "playlist.m3u8"
      /\ exists entry st,
           entry ∈ files /\ entry_name entry = name /\ entry_stat entry = Some st
           /\ age < now - mtime st
           /\ unlink_ok name = true)
  /\ ((forall e, e ∈ files -> is_Some (entry_stat e)) ->
      forall entry st,
        entry ∈ files ->
        entry_name entry <> "playlist.m3u8" ->
        entry_stat entry = Some st ->
        age < now - mtime st ->
        unlink_ok (entry_name entry) = true ->
        entry_name entry ∈ cleanupDirectory unlink_ok now age files).
Proof.
  split.
  - induction files as [|e rest IH]; cbn [cleanupDirectory]; [intros name H; inversion H|].
    intros name.
    assert (Hrest : name ∈ cleanupDirectory unlink_ok now age rest ->
                    name <> "playlist.m3u8"
                    /\ exists entry st,
                         entry ∈ e :: rest /\ entry_name entry = name
                         /\ entry_stat entry = Some st /\ age < now - mtime st
                         /\ unlink_ok name = true).
    { intros H. destruct (IH name H) as (Hne & entry & st & Hin & Hmore).
      split; [exact Hne|]. exists entry, st.
      split; [apply elem_of_cons; right; exact Hin|exact Hmore]. }
    destruct (String.eqb_spec (entry_name e) "playlist.m3u8") as [Hpl|Hpl]; [exact Hrest|].
    destruct (entry_stat e) as [st|] eqn:Hst; [|intros H; inversion H].
    destruct (Z.ltb_spec age (now - mtime st)) as [Hold|?]; cbn [andb]; [|exact Hrest].
    destruct (unlink_ok (entry_name e)) eqn:Hok; [|exact Hrest].
    intros H. apply elem_of_cons in H as [->|H]; [|exact (Hrest H)].
    split; [exact Hpl|]. exists e, st.
    split; [apply elem_of_cons; left; reflexivity|]. repeat split; assumption.
  - intros Hstat entry st Hin Hpl Hst Hold Hok.
    induction files as [|e rest IH]; [inversion Hin|].
    cbn [cleanupDirectory].
    assert (Hrest : entry ∈ rest ->
                    entry_name entry ∈ cleanupDirectory unlink_ok now age rest).
    { intros H. apply IH; [|exact H].
      intros e' He'. apply Hstat. apply elem_of_cons. right. exact He'. }
    apply elem_of_cons in Hin as [<-|Hin].
    + destruct (String.eqb_spec (entry_name entry) "playlist.m3u8") as [?|_];
        [contradiction|].
      rewrite Hst, Hok. destruct (Z.ltb_spec age (now - mtime st)); [|lia].
      apply elem_of_cons. left. reflexivity.
    + destruct (String.eqb (entry_name e) "playlist.m3u8"); [exact (Hrest Hin)|].
      destruct (Hstat e) as [st' Hst']; [apply elem_of_cons; left; reflexivity|].
      rewrite Hst'.
      destruct ((age <? now - mtime st') && unlink_ok (entry_name e));
        [apply elem_of_cons; right|]; exact (Hrest Hin).
Qed.

End DirectoryCleanup.

(** ** Closing the conversion service *)

Section ServiceClosing.

Import HlsConverterService.

Variable cfg : config.
Variable survives : nat -> bool.

Implicit Types (s : service) (conv : conversion).

Local Abbreviation startConversion := (HlsConverterService.startConversion cfg survives).
Local Abbreviation run := (HlsConverterService.run cfg survives).
Local Abbreviation exec := (HlsConverterService.exec cfg survives).
Local Abbreviation onTimer := (HlsConverterService.onTimer survives).
Local Abbreviation _restartFFmpeg := (HlsConverterService._restartFFmpeg survives).












End ServiceClosing.

(** ** Removing a producer (converter.js) *)

Section ProducerRemoval.

Import Converter.

Variable cloudFront_domain : option string.
Variable hls_baseUrl : string.
Variable hls_outputPath : string.

Local Abbreviation addProducer :=
  (Converter.addProducer cloudFront_domain hls_baseUrl hls_outputPath).

(** X27: [removeProducer] undoes [addProducer].  A producer that was not
    registered is added, under draws [Math.random()] can produce, and then
    removed: the registry and the set of ports in use are what they were
    before the producer was added, and [getHlsUrl] answers [null] again.  The
    encoder's entry stays in [ffmpegProcesses] (it goes when the process
    closes), and removing the producer once more changes nothing. *)
Theorem removeProducer_undoes_addProducer s (p : producer) roomId secureId draw info s1 :
  fair draw ->
  producers s !! producer_id p = None ->
  addProducer s p roomId secureId draw = (Ok info, s1) ->
  producers (removeProducer s1 (producer_id p)) = producers s
  /\ usedPorts (removeProducer s1 (producer_id p)) = usedPorts s
  /\ getHlsUrl (removeProducer s1 (producer_id p)) (producer_id p) = None
  /\ ffmpegProcesses (removeProducer s1 (producer_id p)) = ffmpegProcesses s1
  /\ stopFFmpeg s1 (producer_id p) = ffmpegProcesses s1 !! producer_id p
  /\ removeProducer (removeProducer s1 (producer_id p)) (producer_id p)
     = removeProducer s1 (producer_id p).
Proof.
  intros Hfair Hnew Hadd.
  assert (Hshape :
    producers s1 = <[producer_id p := info]> (producers s)
    /\ ((info_rtpInfo info = None /\ usedPorts s1 = usedPorts s)
        \/ exists port, info_rtpInfo info
                        = Some {| rtpPort := port; rtpHost := "127.0.0.1";
                                  rtp_outputDir := hls_outputPath +:+ "/" +:+ roomId
                                                   +:+ "-" +:+ secureId |}
                        /\ port <> 0 /\ (port ∉ usedPorts s)
                        /\ usedPorts s1 = {[port]} ∪ usedPorts s)).
  { unfold Converter.addProducer in Hadd.
    destruct (String.eqb (producer_id p) "" || String.eqb roomId ""); [discriminate Hadd|].
    destruct (negb (String.eqb (sanitize roomId) roomId)); [discriminate Hadd|].
    rewrite Hnew in Hadd.
    destruct (negb (String.eqb (producer_kind p) "video")).
    - injection Hadd as <- <-. cbn. split; [reflexivity|]. left. split; reflexivity.
    - destruct (allocateRtpPort draw (usedPorts s)) as [[port|e] u] eqn:Halloc;
        [|discriminate Hadd].
      injection Hadd as <- <-. cbn. split; [reflexivity|]. right. exists port.
      destruct (allocateRtpPort_fresh draw (usedPorts s) port u Halloc) as [Hfree Hu].
      split; [reflexivity|]. split; [|split; [exact Hfree|exact Hu]].
      pose proof (allocateRtpPort_in_range draw (usedPorts s) port _ Hfair Halloc) as Hrange.
      unfold minRtpPort in Hrange. lia. }
  destruct Hshape as [Hprod Hports].
  assert (Hreg : producers s1 !! producer_id p = Some info)
    by (rewrite Hprod; apply lookup_insert_eq).
  assert (Hremoved : producers (removeProducer s1 (producer_id p)) = producers s).
  { unfold removeProducer. rewrite Hreg. cbn [producers].
    rewrite Hprod, delete_insert_eq. apply delete_id. exact Hnew. }
  split; [exact Hremoved|]. split; [|split; [|split; [|split]]].
  - unfold removeProducer. rewrite Hreg. cbn [usedPorts].
    destruct Hports as [[-> ->]|(port & -> & Hnz & Hfree & ->)]; [reflexivity|].
    cbn [rtpPort]. destruct (Z.eqb_spec port 0) as [?|_]; [contradiction|].
    unfold releaseRtpPort. apply set_eq. intros x.
    rewrite elem_of_difference, elem_of_union, elem_of_singleton. split.
    + intros [[->|Hx] Hne]; [contradiction Hne; reflexivity|exact Hx].
    + intros Hx. split; [right; exact Hx|]. intros ->. contradiction.
  - unfold getHlsUrl. rewrite Hremoved, Hnew. reflexivity.
  - unfold removeProducer. rewrite Hreg. reflexivity.
  - reflexivity.
  - unfold removeProducer at 1. rewrite Hremoved, Hnew. reflexivity.
Qed.

End ProducerRemoval.

(** ** Concrete runs of the sweeps and of the shutdown *)

Section SweepScenarios.

Import HlsConverterService Scenario.

Lemma expired_objects_swept_witness :
  startS3Cleanup hls_config accepts_all (10 * 86400000) 7 listing
  = ["hls/room-1/prod-1/segment_001.ts"].
Proof.
  destruct (expired_objects_swept hls_config accepts_all (10 * 86400000) 7 listing)
    as (_ & _ & _ & _ & Hall & _).
  rewrite Hall; [reflexivity|reflexivity|]. intros obj _. reflexivity.
Defined.



End SweepScenarios.

Section ConverterScenarios.

Import Converter Scenario.

Lemma cleanupDirectory_spec_witness :
  (forall name, name ∈ cleanupDirectory accepts_all 3600000 fileCleanupAge output_dir ->
                name <> "playlist.m3u8")
  /\ "segment_001.ts" ∈ cleanupDirectory accepts_all 3600000 fileCleanupAge output_dir.
Proof.
  destruct (cleanupDirectory_spec accepts_all 3600000 fileCleanupAge output_dir)
    as (Hsound & Hcomplete).
  split.
  - intros name Hname. exact (proj1 (Hsound name Hname)).
  - apply (Hcomplete
             ltac:(intros e He; unfold output_dir in He;
                   repeat (apply elem_of_cons in He as [->|He]; [eexists; reflexivity|]);
                   inversion He)
             {| entry_name := "segment_001.ts";
                entry_stat := Some {| isDirectory := false; mtime := 0 |} |}
             {| isDirectory := false; mtime := 0 |}).
    + apply elem_of_cons. right. apply elem_of_cons. left. reflexivity.
    + discriminate.
    + reflexivity.
    + vm_compute. reflexivity.
    + reflexivity.
Defined.

Lemma removeProducer_undoes_addProducer_witness :
  usedPorts (removeProducer
               (Converter.addProducer None "http://localhost:3000/hls" "public/hls"
                  converter_empty {| producer_id := "prod-1"; producer_kind := "video" |}
                  "room-1" "a1b2" (fun _ => 0)).2 "prod-1") = ∅
  /\ producers (removeProducer
                  (Converter.addProducer None "http://localhost:3000/hls" "public/hls"
                     converter_empty {| producer_id := "prod-1"; producer_kind := "video" |}
                     "room-1" "a1b2" (fun _ => 0)).2 "prod-1") = ∅.
Proof.
  destruct (Converter.addProducer None "http://localhost:3000/hls" "public/hls"
              converter_empty {| producer_id := "prod-1"; producer_kind := "video" |}
              "room-1" "a1b2" (fun _ => 0)) as [[info|e] s1] eqn:E;
    [|vm_compute in E; discriminate E].
  destruct (removeProducer_undoes_addProducer None "http://localhost:3000/hls" "public/hls"
              converter_empty {| producer_id := "prod-1"; producer_kind := "video" |}
              "room-1" "a1b2" (fun _ => 0) info s1 constant_draw_fair eq_refl E)
    as (Hp & Hu & _).
  split; [exact Hu|exact Hp].
Defined.

End ConverterScenarios.
